(** * polyAcapture: the alignment pipeline and the coverage reconstructor

    A shallow embedding of [reverseReadIns/align.py] (sequence preparation,
    aligner invocation, SAM parsing, batch orchestration) and of
    [reverseReadIns/plot_alignment.py] (CIGAR span and coverage depth),
    followed by the properties the specification states about them.

    Conventions.
    - A Python [str] is a list of characters; a character is a code point
      below 256 (Latin-1), which covers the SAM and FASTA alphabets.
    - Python integers are [Z]; [&] is [Z.land].  The cells of the NumPy
      coverage array hold counts and are [Z] as well.
    - A Python exception is a value [Raise e] of the [result] monad.
    - The file system is a finite map from paths to file contents.
    - The external aligner is a parameter of the development. *)

From Stdlib Require Import ZArith List Ascii String Bool Lia.
From Stdlib Require Import Sorted.
From stdpp Require Import base option list gmap strings pretty.

Open Scope Z_scope.

(** ** Python strings *)

Definition str := list ascii.

Notation "'py' s" := (list_ascii_of_string s) (at level 1, s at level 0, only parsing).

Module Py.

Definition ord (c : ascii) : Z := Z.of_N (N_of_ascii c).

(** [str.isspace] on one character (code points below 256). *)
Definition isspace (c : ascii) : bool :=
  let n := ord c in
  ((9 <=? n) && (n <=? 13)) || ((28 <=? n) && (n <=? 32))
  || (n =? 133) || (n =? 160).

(** The characters [int] accepts as digits: the decimal digits. *)
Definition isdecimal (c : ascii) : bool :=
  let n := ord c in (48 <=? n) && (n <=? 57).

(** [str.isdigit] on one character: the decimal digits and the
    superscript digits of Latin-1, which [int] rejects. *)
Definition isdigit (c : ascii) : bool :=
  let n := ord c in
  isdecimal c || (n =? 178) || (n =? 179) || (n =? 185).

Definition digit_value (c : ascii) : Z := ord c - 48.

Fixpoint lstrip (s : str) : str :=
  match s with
  | c :: s' => if isspace c then lstrip s' else s
  | [] => []
  end.

Definition rstrip (s : str) : str := rev (lstrip (rev s)).

(** [s.strip()] *)
Definition strip (s : str) : str := rstrip (lstrip s).

(** [s.split(sep)] for a one-character separator: never empty, and the
    empty string splits into one empty field. *)
Fixpoint split (sep : ascii) (s : str) : list str :=
  match s with
  | [] => [[]]
  | c :: s' =>
      if Ascii.eqb c sep then [] :: split sep s'
      else match split sep s' with
           | f :: fs => (c :: f) :: fs
           | [] => [[c]]
           end
  end.

(** [s.startswith(c)] for a one-character prefix. *)
Definition startswith (c : ascii) (s : str) : bool :=
  match s with
  | c' :: _ => Ascii.eqb c' c
  | [] => false
  end.

(** [c in chars] for a one-character [c]. *)
Definition char_in (c : ascii) (chars : str) : bool :=
  existsb (Ascii.eqb c) chars.

(** [fields[i]] on a list (non-negative index; the callers check the
    length first, so the default is never returned). *)
Definition item (fields : list str) (i : nat) : str := nth i fields [].

End Py.

(** ** Exceptions *)

Inductive exn : Type :=
| ValueError
| FileNotFoundError
| CalledProcessError
| TypeError
| OverflowError.

Inductive result (A : Type) : Type :=
| Ok (a : A)
| Raise (e : exn).
Arguments Ok {A} a.
Arguments Raise {A} e.

#[global] Instance result_ret : MRet result := fun A a => Ok a.
#[global] Instance result_bind : MBind result := fun A B f m =>
  match m with
  | Ok a => f a
  | Raise e => Raise e
  end.

Definition is_ok {A} (r : result A) : bool :=
  match r with Ok _ => true | Raise _ => false end.

(** ** [int(s)] on a string, base 10 *)

Module PyInt.

(** The digits of a literal: decimal digits, single underscores allowed
    between two digits.  [seen] tells whether a digit precedes. *)
Fixpoint digits (acc : Z) (seen : bool) (s : str) : option Z :=
  match s with
  | [] => if seen then Some acc else None
  | c :: s' =>
      if Py.isdecimal c then digits (10 * acc + Py.digit_value c) true s'
      else if Ascii.eqb c "_" && seen then
        match s' with
        | d :: _ => if Py.isdecimal d then digits acc true s' else None
        | [] => None
        end
      else None
  end.

(** The white space [int] drops around a literal: the characters of
    [str.isspace] except the separators 28 to 31, which [int] rejects. *)
Definition isspace (c : ascii) : bool :=
  let n := Py.ord c in
  ((9 <=? n) && (n <=? 13)) || (n =? 32) || (n =? 133) || (n =? 160).

Fixpoint lstrip (s : str) : str :=
  match s with
  | c :: s' => if isspace c then lstrip s' else s
  | [] => []
  end.

Definition strip (s : str) : str := rev (lstrip (rev (lstrip s))).

(** The interpreter's default limit on the number of digits of a
    literal. *)
Definition max_str_digits : nat := 4300.

(** Surrounding white space is dropped, one sign is allowed, and a
    literal of more than [max_str_digits] digits is refused. *)
Definition int (s : str) : result Z :=
  let t := strip s in
  let '(neg, body) :=
    match t with
    | c :: b => if Ascii.eqb c "-" then (true, b)
                else if Ascii.eqb c "+" then (false, b)
                else (false, t)
    | [] => (false, t)
    end in
  match digits 0 false body with
  | Some v =>
      if (max_str_digits <? length (List.filter Py.isdecimal body))%nat
      then Raise ValueError
      else Ok (if neg then - v else v)
  | None => Raise ValueError
  end.

End PyInt.

(** ** [align.py] *)

Module Align.

Definition TAB : ascii := "009".
Definition LF : ascii := "010".
Definition CR : ascii := "013".

(** Iterating over a file opened in text mode: the content is cut after
    each line end; [\n], [\r] and [\r\n] all end a line and are handed
    over as [\n]; a last line without line end is handed over as it is. *)
Fixpoint readlines (content : str) : list str :=
  match content with
  | [] => []
  | c :: rest =>
      if Ascii.eqb c LF then [LF] :: readlines rest
      else if Ascii.eqb c CR then
        match rest with
        | c' :: rest' =>
            if Ascii.eqb c' LF then [LF] :: readlines rest'
            else [LF] :: readlines rest
        | [] => [[LF]]
        end
      else match readlines rest with
           | l :: ls => (c :: l) :: ls
           | [] => [[c]]
           end
  end.

(** *** Sequence preparation *)

(** Modelled from the spec: the complement table of the sequence library
    ([Bio.Seq]), which is not part of the repository.  The nucleotides
    A, C, G, T and the ambiguity codes map to their complements, in upper
    and in lower case; a character outside this alphabet fails the
    conversion. *)
Definition complement_upper (c : ascii) : option ascii :=
  if Ascii.eqb c "A" then Some "T"%char else
  if Ascii.eqb c "C" then Some "G"%char else
  if Ascii.eqb c "G" then Some "C"%char else
  if Ascii.eqb c "T" then Some "A"%char else
  if Ascii.eqb c "M" then Some "K"%char else
  if Ascii.eqb c "K" then Some "M"%char else
  if Ascii.eqb c "R" then Some "Y"%char else
  if Ascii.eqb c "Y" then Some "R"%char else
  if Ascii.eqb c "W" then Some "W"%char else
  if Ascii.eqb c "S" then Some "S"%char else
  if Ascii.eqb c "V" then Some "B"%char else
  if Ascii.eqb c "B" then Some "V"%char else
  if Ascii.eqb c "H" then Some "D"%char else
  if Ascii.eqb c "D" then Some "H"%char else
  if Ascii.eqb c "N" then Some "N"%char else None.

Definition is_lower (c : ascii) : bool :=
  (97 <=? Py.ord c) && (Py.ord c <=? 122).

Definition to_upper (c : ascii) : ascii :=
  ascii_of_N (Z.to_N (Py.ord c - 32)).

Definition to_lower (c : ascii) : ascii :=
  ascii_of_N (Z.to_N (Py.ord c + 32)).

Definition complement (c : ascii) : option ascii :=
  if is_lower c then to_lower <$> complement_upper (to_upper c)
  else complement_upper c.

(** [Seq(s).reverse_complement()]: [None] stands for the exception the
    library raises. *)
Definition Seq_reverse_complement (s : str) : option str :=
  match mapM complement s with
  | Some t => Some (rev t)
  | None => None
  end.

(** [seq] is [None] for a missing value ([pd.isna]); the [except] clause
    turns every failure into [None]. *)
Definition reverse_complement_sequence (seq : option str) : option str :=
  match seq with
  | None => None
  | Some s =>
      let seq_str := Py.strip s in
      match seq_str with
      | [] => None
      | _ => Seq_reverse_complement seq_str
      end
  end.

(** *** The alignment record parser *)

Record AlignmentRecord : Type := {
  read_id : str;
  ref_pos : Z;
  mapq : Z;
  cigar : str;
  sequence : str
}.

Record Stats : Type := {
  total_reads : Z;
  unmapped : Z;
  low_mapq : Z;
  mapped_high_qual : Z
}.

(** The local variables of [parse_sam_file]. *)
Record parse_vars : Type := {
  v_results : list AlignmentRecord;
  v_total_reads : Z;
  v_unmapped : Z;
  v_low_mapq : Z
}.

Definition parse_init : parse_vars :=
  {| v_results := []; v_total_reads := 0; v_unmapped := 0; v_low_mapq := 0 |}.

Definition count_read (v : parse_vars) : parse_vars :=
  {| v_results := v_results v; v_total_reads := v_total_reads v + 1;
     v_unmapped := v_unmapped v; v_low_mapq := v_low_mapq v |}.

Definition count_unmapped (v : parse_vars) : parse_vars :=
  {| v_results := v_results v; v_total_reads := v_total_reads v;
     v_unmapped := v_unmapped v + 1; v_low_mapq := v_low_mapq v |}.

Definition count_low_mapq (v : parse_vars) : parse_vars :=
  {| v_results := v_results v; v_total_reads := v_total_reads v;
     v_unmapped := v_unmapped v; v_low_mapq := v_low_mapq v + 1 |}.

Definition append_result (v : parse_vars) (r : AlignmentRecord) : parse_vars :=
  {| v_results := v_results v ++ [r]; v_total_reads := v_total_reads v;
     v_unmapped := v_unmapped v; v_low_mapq := v_low_mapq v |}.

(** One iteration of the [for line in f] loop. *)
Definition parse_line (v : parse_vars) (line : str) : result parse_vars :=
  if Py.startswith "@" line then Ok v
  else
    let v := count_read v in
    let fields := Py.split TAB (Py.strip line) in
    if (length fields <? 11)%nat then Ok v
    else
      flag ← PyInt.int (Py.item fields 1);
      mapq ← PyInt.int (Py.item fields 4);
      if negb (Z.land flag 4 =? 0) then Ok (count_unmapped v)
      else if mapq <? 20 then Ok (count_low_mapq v)
      else
        let read_id := Py.item fields 0 in
        ref_pos ← PyInt.int (Py.item fields 3);
        let cigar := Py.item fields 5 in
        let seq := Py.item fields 9 in
        Ok (append_result v
              {| read_id := read_id; ref_pos := ref_pos; mapq := mapq;
                 cigar := cigar; sequence := seq |}).

Fixpoint parse_lines (v : parse_vars) (lines : list str) : result parse_vars :=
  match lines with
  | [] => Ok v
  | line :: rest => v' ← parse_line v line; parse_lines v' rest
  end.

Definition stats_of (v : parse_vars) : Stats :=
  {| total_reads := v_total_reads v;
     unmapped := v_unmapped v;
     low_mapq := v_low_mapq v;
     mapped_high_qual := Z.of_nat (length (v_results v)) |}.

(** The parser on the lines of a file. *)
Definition parse_sam_lines (lines : list str)
  : result (list AlignmentRecord * Stats) :=
  v ← parse_lines parse_init lines;
  Ok (v_results v, stats_of v).

(** [parse_sam_file(sam_file)]: the file is only read. *)
Definition parse_sam_file (fs : gmap string str) (sam_file : string)
  : result (list AlignmentRecord * Stats) :=
  match fs !! sam_file with
  | None => Raise FileNotFoundError
  | Some content => parse_sam_lines (readlines content)
  end.

(** *** One batch *)

(** A row of the input table; [Sequence] is [None] for a missing cell. *)
Record Row : Type := {
  CellID : str;
  UMI : str;
  Sequence : option str
}.

(** [astype(str)] on one cell: a missing cell becomes the text [nan]. *)
Definition astype_str (cell : option str) : str :=
  match cell with
  | Some s => s
  | None => py "nan"
  end.

Definition is_empty (s : str) : bool :=
  match s with [] => true | _ => false end.

(** The chunk after [astype(str).str.strip()] and after dropping the rows
    whose sequence is empty. *)
Definition validate (chunk : list Row) : list Row :=
  filter (fun row => is_empty (astype_str (Sequence row)) = false)
    (map (fun row => {| CellID := CellID row; UMI := UMI row;
                        Sequence := Some (Py.strip (astype_str (Sequence row))) |})
       chunk).

(** The column [rev_comp_seq], and the rows where it is defined. *)
Definition with_rev_comp (chunk : list Row) : list (Row * str) :=
  omap (fun row =>
          match reverse_complement_sequence (Some (astype_str (Sequence row))) with
          | Some rc => Some (row, rc)
          | None => None
          end) chunk.

(** The text written to the temporary FASTA file. *)
Definition fasta_text (chunk : list (Row * str)) : str :=
  flat_map (fun '(row, rev_comp_seq) =>
              py ">" ++ CellID row ++ py "_" ++ UMI row ++ [LF]
                ++ rev_comp_seq ++ [LF]) chunk.

Definition zero_stats : Stats :=
  {| total_reads := 0; unmapped := 0; low_mapq := 0; mapped_high_qual := 0 |}.

Definition output_dir : string := "alignment_results".

Definition temp_fasta_path (chunk_num : nat) : string :=
  output_dir +:+ "/temp_seqs_chunk_" +:+ pretty chunk_num +:+ ".fa".

Definition sam_output_path (chunk_num : nat) : string :=
  output_dir +:+ "/alignment_chunk_" +:+ pretty chunk_num +:+ ".sam".

Definition intermediate_path (chunk_num : nat) : string :=
  output_dir +:+ "/intermediate_results_chunk_" +:+ pretty chunk_num +:+ ".csv".

Definition final_results_path : string :=
  output_dir +:+ "/final_alignment_results.csv".

(** What [subprocess.run(..., check=True)] can do: the program cannot be
    launched, or it runs, possibly writes files, and exits with a code. *)
Inductive aligner_outcome : Type :=
| LaunchFailed
| Exited (returncode : Z) (fs' : gmap string str).

Definition add_stats (total stats : Stats) : Stats :=
  {| total_reads := total_reads total + total_reads stats;
     unmapped := unmapped total + unmapped stats;
     low_mapq := low_mapq total + low_mapq stats;
     mapped_high_qual := mapped_high_qual total + mapped_high_qual stats |}.

(** The state of a run: the text files, the tables written with
    [to_csv], the report, and the running totals of [main]. *)
Record run_state : Type := {
  fs : gmap string str;
  tables : gmap string (list AlignmentRecord);
  report : option Stats;
  total_results : list AlignmentRecord;
  total_stats : Stats
}.

Definition init_state (fs0 : gmap string str) : run_state :=
  {| fs := fs0; tables := ∅; report := None;
     total_results := []; total_stats := zero_stats |}.

Section Pipeline.

(** The external aligner, called with the file system, the path of the
    FASTA file and the path of the SAM file to write. *)
Variable bowtie2 : gmap string str → string → string → aligner_outcome.

(** [process_chunk(chunk, chunk_num, output_dir)]: the file system after
    the call, and the value returned or the exception raised. *)
Definition process_chunk (chunk : list Row) (chunk_num : nat)
    (fs : gmap string str)
  : gmap string str * result (list AlignmentRecord * Stats) :=
  let chunk := with_rev_comp (validate chunk) in
  match chunk with
  | [] => (fs, Ok ([], zero_stats))
  | _ :: _ =>
      let temp_fasta := temp_fasta_path chunk_num in
      let fs := <[temp_fasta := fasta_text chunk]> fs in
      let sam_output := sam_output_path chunk_num in
      match bowtie2 fs temp_fasta sam_output with
      | LaunchFailed => (fs, Raise FileNotFoundError)
      | Exited returncode fs =>
          if returncode =? 0 then
            match parse_sam_file fs sam_output with
            | Raise e => (fs, Raise e)
            | Ok (alignment_results, stats) =>
                (delete sam_output (delete temp_fasta fs),
                 Ok (alignment_results, stats))
            end
          else (delete temp_fasta fs, Ok ([], zero_stats))
      end
  end.

(** The [for chunk_num, chunk in enumerate(chunks, 1)] loop of [main]:
    an exception leaves the loop with the state reached so far. *)
Fixpoint process_chunks (chunks : list (list Row)) (chunk_num : nat)
    (st : run_state) : run_state * result unit :=
  match chunks with
  | [] => (st, Ok ())
  | chunk :: rest =>
      match process_chunk chunk chunk_num (fs st) with
      | (fs', Raise e) =>
          ({| fs := fs'; tables := tables st; report := report st;
              total_results := total_results st;
              total_stats := total_stats st |}, Raise e)
      | (fs', Ok (results, stats)) =>
          let total_results' := total_results st ++ results in
          let tables' :=
            if (Z.of_nat chunk_num mod 2 =? 0)
            then <[intermediate_path chunk_num := total_results']> (tables st)
            else tables st in
          process_chunks rest (S chunk_num)
            {| fs := fs'; tables := tables'; report := report st;
               total_results := total_results';
               total_stats := add_stats (total_stats st) stats |}
      end
  end.

(** [main()] on the chunks read from the input table. *)
Definition main (chunks : list (list Row)) (fs0 : gmap string str)
  : run_state * result unit :=
  match process_chunks chunks 1 (init_state fs0) with
  | (st, Raise e) => (st, Raise e)
  | (st, Ok _) =>
      ({| fs := fs st;
          tables := <[final_results_path := total_results st]> (tables st);
          report := Some (total_stats st);
          total_results := total_results st;
          total_stats := total_stats st |}, Ok ())
  end.

End Pipeline.

End Align.

(** ** [plot_alignment.py] *)

Module Plot.

(** The loop of [get_read_length] with its two local variables. *)
Fixpoint get_read_length_loop (length : Z) (current_num : str) (cigar : str)
  : result Z :=
  match cigar with
  | [] => Ok length
  | char :: rest =>
      if Py.isdigit char then
        get_read_length_loop length (current_num ++ [char]) rest
      else if Py.char_in char (py "MIDNSHP=X") then
        if Py.char_in char (py "M=X") then
          n ← PyInt.int current_num;
          get_read_length_loop (length + n) [] rest
        else get_read_length_loop length [] rest
      else get_read_length_loop length current_num rest
  end.

Definition get_read_length (cigar : str) : result Z :=
  get_read_length_loop 0 [] cigar.

(** A bound of a slice [a[i:j]] on an array of length [len]. *)
Definition slice_bound (len i : Z) : Z :=
  if i <? 0 then Z.max 0 (i + len) else Z.min i len.

(** [coverage[start_idx:end_idx] += 1] *)
Definition slice_incr (coverage : list Z) (start_idx end_idx : Z) : list Z :=
  let len := Z.of_nat (length coverage) in
  let lo := slice_bound len start_idx in
  let hi := slice_bound len end_idx in
  imap (fun i depth =>
          if (lo <=? Z.of_nat i) && (Z.of_nat i <? hi) then depth + 1
          else depth) coverage.

(** The body of the [for _, row in df.iterrows()] loop, on a row whose
    [ref_pos] is an integer and whose [cigar] is a text, as the rows of a
    table written by [align.py] are.  ([Frame] below has the loop on the
    other cells a table can hold.) *)
Definition add_read (start_pos end_pos : Z) (coverage : list Z)
    (row : Align.AlignmentRecord) : result (list Z) :=
  let read_start := Align.ref_pos row in
  read_length ← get_read_length (Align.cigar row);
  let read_end := read_start + read_length in
  if (start_pos <=? read_end) && (read_start <=? end_pos) then
    let start_idx := Z.max 0 (read_start - start_pos) in
    let end_idx := Z.min (end_pos - start_pos) (read_end - start_pos) in
    Ok (slice_incr coverage start_idx end_idx)
  else Ok coverage.

Fixpoint add_reads (start_pos end_pos : Z) (coverage : list Z)
    (df : list Align.AlignmentRecord) : result (list Z) :=
  match df with
  | [] => Ok coverage
  | row :: rest =>
      coverage' ← add_read start_pos end_pos coverage row;
      add_reads start_pos end_pos coverage' rest
  end.

(** [np.zeros(n)] *)
Definition zeros (n : Z) : result (list Z) :=
  if n <? 0 then Raise ValueError else Ok (replicate (Z.to_nat n) 0).

(** The array [coverage] when the loop is over. *)
Definition coverage (df : list Align.AlignmentRecord) (start_pos end_pos : Z)
  : result (list Z) :=
  zero ← zeros (end_pos - start_pos + 1);
  add_reads start_pos end_pos zero df.

(** [max(coverage)] *)
Definition py_max (l : list Z) : result Z :=
  match l with
  | [] => Raise ValueError
  | x :: l' => Ok (fold_left Z.max l' x)
  end.

Definition plot_alignment_coverage (df : list Align.AlignmentRecord)
    (start_pos end_pos : Z) : result Z :=
  cov ← coverage df start_pos end_pos;
  py_max cov.

(** The depth the array holds for reference position [pos]. *)
Definition depth_at (start_pos : Z) (cov : list Z) (pos : Z) : option Z :=
  if pos <? start_pos then None else cov !! Z.to_nat (pos - start_pos).

End Plot.

(** ** The vocabulary of the specification *)

Module Spec.

Import Align.

(** *** Alignment record lines (specification 4.3) *)

Inductive line_class : Type :=
| Header
| Short
| Malformed
| Unmapped
| LowConfidence
| Accepted (r : AlignmentRecord).

Definition fields_of (line : str) : list str := Py.split TAB (Py.strip line).

(** Bit [0x4] of the flag. *)
Definition unmapped_bit (flag : Z) : bool := Z.testbit flag 2.

Definition threshold : Z := 20.

(** The class of a line in the words of the specification: header lines
    and lines with fewer than 11 fields are skipped, the unmapped bit is
    tested first, then the mapping quality against the threshold.  A line
    with 11 fields whose flag or quality is no integer, or which would be
    accepted but whose position is no integer, is [Malformed]. *)
Definition classify (line : str) : line_class :=
  if Py.startswith "@" line then Header
  else
    let fields := fields_of line in
    if (length fields <? 11)%nat then Short
    else
      match PyInt.int (Py.item fields 1), PyInt.int (Py.item fields 4) with
      | Ok flag, Ok q =>
          if unmapped_bit flag then Unmapped
          else if q <? threshold then LowConfidence
          else match PyInt.int (Py.item fields 3) with
               | Ok pos =>
                   Accepted {| read_id := Py.item fields 0; ref_pos := pos;
                               mapq := q; cigar := Py.item fields 5;
                               sequence := Py.item fields 9 |}
               | Raise _ => Malformed
               end
      | _, _ => Malformed
      end.

Definition accepted_record (line : str) : option AlignmentRecord :=
  match classify line with
  | Accepted r => Some r
  | _ => None
  end.

Definition is_header (line : str) : bool :=
  match classify line with Header => true | _ => false end.

Definition is_short (line : str) : bool :=
  match classify line with Short => true | _ => false end.

Definition is_malformed (line : str) : bool :=
  match classify line with Malformed => true | _ => false end.

Definition is_unmapped (line : str) : bool :=
  match classify line with Unmapped => true | _ => false end.

Definition is_low_confidence (line : str) : bool :=
  match classify line with LowConfidence => true | _ => false end.

Definition count (p : str → bool) (lines : list str) : Z :=
  Z.of_nat (length (List.filter p lines)).

(** The records accepted from a file, in file order. *)
Definition accepted_records (lines : list str) : list AlignmentRecord :=
  omap accepted_record lines.

(** The variables of the parser after the lines [lines], started from
    [v], when no line is malformed. *)
Definition advance (v : parse_vars) (lines : list str) : parse_vars :=
  {| v_results := v_results v ++ accepted_records lines;
     v_total_reads :=
       v_total_reads v + count (fun l => negb (is_header l)) lines;
     v_unmapped := v_unmapped v + count is_unmapped lines;
     v_low_mapq := v_low_mapq v + count is_low_confidence lines |}.

(** The variables of the parser after a line of class [c]. *)
Definition apply_class (v : parse_vars) (c : line_class) : parse_vars :=
  match c with
  | Header => v
  | Short | Malformed => count_read v
  | Unmapped => count_unmapped (count_read v)
  | LowConfidence => count_low_mapq (count_read v)
  | Accepted r => append_result (count_read v) r
  end.

(** What the invariant of the specification leaves out of account. *)
Definition uncounted (s : Stats) : Z :=
  total_reads s - (unmapped s + low_mapq s + mapped_high_qual s).

(** The aligner writes SAM files without short data lines. *)
Definition writes_full_lines
    (bowtie2 : gmap string str → string → string → aligner_outcome) : Prop :=
  ∀ fs fasta sam returncode fs' content,
    bowtie2 fs fasta sam = Exited returncode fs' →
    fs' !! sam = Some content →
    count is_short (readlines content) = 0.

(** *** Nucleotide strings *)

Definition is_nucleotide (c : ascii) : bool :=
  Py.char_in c (py "ACGT").

(** *** Operation strings (specification 4.5) *)

Inductive cigar_op : Type :=
| OpM | OpI | OpD | OpN | OpS | OpH | OpP | OpEq | OpX.

Definition op_char (op : cigar_op) : ascii :=
  match op with
  | OpM => "M" | OpI => "I" | OpD => "D" | OpN => "N" | OpS => "S"
  | OpH => "H" | OpP => "P" | OpEq => "=" | OpX => "X"
  end.

(** The operations the reconstructor counts as advancing the reference. *)
Definition consumes_reference (op : cigar_op) : bool :=
  match op with
  | OpM | OpEq | OpX => true
  | _ => false
  end.

(** The text of a sequence of (length, operation) pairs. *)
Definition cigar_text (ops : list (N * cigar_op)) : str :=
  flat_map (fun '(n, op) => py (pretty n) ++ [op_char op]) ops.

(** The decimal text of [n] has no more digits than [int] accepts. *)
Definition within_limit (n : N) : bool :=
  (String.length (pretty n) <=? PyInt.max_str_digits)%nat.

(** Every length that [get_read_length] hands to [int] (those of the
    operations that advance the reference) is within that limit. *)
Definition readable (ops : list (N * cigar_op)) : bool :=
  forallb (fun '(n, op) => negb (consumes_reference op) || within_limit n) ops.

Fixpoint reference_span (ops : list (N * cigar_op)) : Z :=
  match ops with
  | [] => 0
  | (n, op) :: rest =>
      (if consumes_reference op then Z.of_N n else 0) + reference_span rest
  end.

(** Position [pos] lies in the interval [[lo, hi)]. *)
Definition in_range (lo hi pos : Z) : bool := (lo <=? pos) && (pos <? hi).

End Spec.

(** ** Sample data *)

Module Samples.

Import Align.

(** A SAM line from its fields. *)
Definition sam_line (fields : list string) : str :=
  match map list_ascii_of_string fields with
  | [] => [LF]
  | f :: fs => f ++ flat_map (fun x => TAB :: x) fs ++ [LF]
  end.

Definition record_line (name flag pos q cig : string) : str :=
  sam_line [name; flag; "HIV"; pos; q; cig; "*"; "0"; "0"; "ACGT"; "FFFF"]%string.

Definition sam_path : string := "alignment_results/alignment_chunk_1.sam".

(** A file with a header, one line of each class, and a short line. *)
Definition mixed_sam : str :=
  sam_line ["@HD"; "VN:1.6"]%string
    ++ record_line "cell1_umi1" "4" "0" "0" "*"
    ++ record_line "cell2_umi2" "0" "10" "15" "4M"
    ++ record_line "cell3_umi3" "16" "100" "30" "30M"
    ++ sam_line ["truncated"; "0"]%string.

(** The same without the short line. *)
Definition full_sam : str :=
  sam_line ["@HD"; "VN:1.6"]%string
    ++ record_line "cell1_umi1" "4" "0" "0" "*"
    ++ record_line "cell2_umi2" "0" "10" "15" "4M"
    ++ record_line "cell3_umi3" "16" "100" "30" "30M".

(** A file whose only data line has a flag that is no integer. *)
Definition bad_flag_sam : str := record_line "cell1_umi1" "x" "10" "30" "4M".

Definition one_read : list Row :=
  [ {| CellID := py "cell1"; UMI := py "umi1"; Sequence := Some (py "ACGT") |} ].

(** Aligners. *)
Definition aligner_writing (text : str)
  : gmap string str → string → string → aligner_outcome :=
  fun fs _ sam => Exited 0 (<[sam := text]> fs).

Definition aligner_failing_after (text : str)
  : gmap string str → string → string → aligner_outcome :=
  fun fs _ sam => Exited 1 (<[sam := text]> fs).

Definition aligner_missing
  : gmap string str → string → string → aligner_outcome :=
  fun _ _ _ => LaunchFailed.

Definition read_at (pos : Z) (cig : string) : AlignmentRecord :=
  {| read_id := py "cell_umi"; ref_pos := pos; mapq := 30;
     cigar := py cig; sequence := [] |}.

End Samples.

(** ** [trimcsv.py] *)

Module TrimCsv.

(** [s.lstrip(chars)] *)
Fixpoint lstrip_chars (chars : str) (s : str) : str :=
  match s with
  | c :: s' => if Py.char_in c chars then lstrip_chars chars s' else s
  | [] => []
  end.

Definition trim_t_sequence (sequence : str) : str :=
  let trimmed := lstrip_chars (py "T") sequence in
  trimmed.

End TrimCsv.

(** ** [fastq2csv.py] *)

Module Fastq.

(** [s[a:b]] for [0 <= a <= b]. *)
Definition slice (a b : nat) (s : str) : str := take (b - a) (drop a s).

(** [s[a:]] for [0 <= a]. *)
Definition slice_from (a : nat) (s : str) : str := drop a s.

(** A record of the FASTQ parser: the sequence and its quality values. *)
Record FastqRecord : Type := {
  seq : str;
  phred_quality : list Z
}.

Inductive error : Type := ZeroDivisionError.

Section Process.

(** The type of the rounded mean, and [round(sum(q) / len(q), 2)] on a
    non-empty list: floating point is left out of the model. *)
Variable quality_t : Type.
Variable mean_quality : list Z → quality_t.

Record Read : Type := {
  CellID : str;
  UMI : str;
  Sequence : str;
  Average_Quality : quality_t
}.

(** A line of the CSV file. *)
Inductive csv_line : Type :=
| HeaderLine
| DataLine (row : Read).

(** The row appended to [data] for one record; the division fails on an
    empty list of quality values. *)
Definition extract (record : FastqRecord) : error + Read :=
  let cell_id := slice 0 16 (seq record) in
  let umi := slice 16 28 (seq record) in
  let sequence := slice_from 28 (seq record) in
  let quality := phred_quality record in
  match quality with
  | [] => inl ZeroDivisionError
  | _ :: _ =>
      inr {| CellID := cell_id; UMI := umi; Sequence := sequence;
             Average_Quality := mean_quality quality |}
  end.

(** [df.to_csv(output_file, mode=..., header=..., index=False)] on a file
    that may not exist yet. *)
Definition to_csv (file : option (list csv_line)) (append header : bool)
    (rows : list Read) : option (list csv_line) :=
  let old := if append then default [] file else [] in
  Some (old ++ (if header then [HeaderLine] else []) ++ map DataLine rows).

(** The variables of [process_fastq] and the output file. *)
Record vars : Type := {
  data : list Read;
  total_reads : Z;
  current_chunk : Z;
  output : option (list csv_line)
}.

(** The body of the loop for record number [i]. *)
Definition step (chunk_size : Z) (i : Z) (v : vars) (record : FastqRecord)
  : error + vars :=
  match extract record with
  | inl e => inl e
  | inr row =>
      let data := data v ++ [row] in
      let total_reads := total_reads v + 1 in
      if chunk_size =? 0 then inl ZeroDivisionError
      else if (i + 1) mod chunk_size =? 0 then
        let current_chunk := current_chunk v + 1 in
        let output :=
          if current_chunk =? 1 then to_csv (output v) false true data
          else to_csv (output v) true false data in
        inr {| data := []; total_reads := total_reads;
               current_chunk := current_chunk; output := output |}
      else
        inr {| data := data; total_reads := total_reads;
               current_chunk := current_chunk v; output := output v |}
  end.

(** The loop: the variables at the end, or the exception with the file
    as it is when the exception is raised. *)
Fixpoint loop (chunk_size : Z) (i : Z) (v : vars) (records : list FastqRecord)
  : (error * option (list csv_line)) + vars :=
  match records with
  | [] => inr v
  | record :: rest =>
      match step chunk_size i v record with
      | inl e => inl (e, output v)
      | inr v' => loop chunk_size (i + 1) v' rest
      end
  end.

(** [process_fastq] on the records of the input file: the output file
    afterwards and the number of reads, or the exception. *)
Definition process_fastq (records : list FastqRecord)
    (output_file : option (list csv_line)) (chunk_size : Z)
  : (error * option (list csv_line)) + (option (list csv_line) * Z) :=
  match loop chunk_size 0
          {| data := []; total_reads := 0; current_chunk := 0;
             output := output_file |} records with
  | inl failure => inl failure
  | inr v =>
      match data v with
      | [] => inr (output v, total_reads v)
      | _ :: _ =>
          inr (to_csv (output v) true (current_chunk v =? 0) (data v),
               total_reads v)
      end
  end.

(** What the loop keeps true after the rows [done]: the rows flushed so
    far and the rows held in [data] make up [done], the flushed rows are
    [current_chunk] whole chunks, fewer than [chunk_size] rows are held,
    and the file is untouched before the first flush and holds the header
    and the flushed rows after it. *)
Definition loop_invariant (chunk_size : Z) (output_file : option (list csv_line))
    (i : Z) (v : vars) (done : list Read) : Prop :=
  i = Z.of_nat (length done)
  ∧ total_reads v = i
  ∧ 0 ≤ current_chunk v
  ∧ Z.of_nat (length (data v)) < chunk_size
  ∧ ∃ written,
      done = written ++ data v
      ∧ Z.of_nat (length written) = chunk_size * current_chunk v
      ∧ output v
        = if current_chunk v =? 0 then output_file
          else Some (HeaderLine :: map DataLine written).

End Process.

Arguments HeaderLine {quality_t}.
Arguments DataLine {quality_t} row.

End Fastq.

(** ** [polyC.py] *)

Module PolyC.

(** The loop of [find_poly_c] at index [i], with [rest] the text from
    [i] on; [fuel] bounds the number of iterations. *)
Fixpoint find_poly_c_loop (fuel : nat) (length : nat) (i : nat) (rest : str)
  : list (nat * nat) :=
  match fuel with
  | O => []
  | S fuel' =>
      match rest with
      | [] => []
      | _ :: rest' =>
          if decide (take length rest = replicate length "C"%char) then
            let start := (i + 1)%nat in
            let end_ := (i + length)%nat in
            (start, end_) :: find_poly_c_loop fuel' length (i + length) (drop length rest)
          else find_poly_c_loop fuel' length (i + 1) rest'
      end
  end.

(** [find_poly_c(sequence, length)] for [length >= 0].  With [length = 0]
    every comparison succeeds and [i] never moves, so the loop does not
    end on a non-empty sequence: [None].  Otherwise [i] grows in every
    iteration and the length of the sequence is fuel enough. *)
Definition find_poly_c (sequence : str) (length : nat) : option (list (nat * nat)) :=
  match length, sequence with
  | O, [] => Some []
  | O, _ :: _ => None
  | S _, _ => Some (find_poly_c_loop (List.length sequence) length 0 sequence)
  end.

End PolyC.

(** ** Further vocabulary *)

Module More.

Import Align Spec Plot.

(** The number of occurrences of [c] in [s]. *)
Definition count_char (c : ascii) (s : str) : nat :=
  length (List.filter (Ascii.eqb c) s).

(** A string of white space only (the empty string included). *)
Definition is_blank (s : str) : bool := forallb Py.isspace s.

(** The characters [get_read_length] reacts to: digits and operation
    codes. *)
Definition is_cigar_char (c : ascii) : bool :=
  Py.isdigit c || Py.char_in c (py "MIDNSHP=X").

Definition is_op_char (c : ascii) : bool := Py.char_in c (py "MIDNSHP=X").

(** [row] is counted at [pos] by the loop of [plot_alignment_coverage]:
    [pos] lies at or after both [start_pos] and the start of the record,
    and before both [end_pos] and the end of the record. *)
Definition covers (start_pos end_pos pos : Z) (row : AlignmentRecord) : bool :=
  match get_read_length (cigar row) with
  | Ok L =>
      in_range (Z.max start_pos (ref_pos row))
        (Z.min end_pos (ref_pos row + L)) pos
  | Raise _ => false
  end.

Definition span_ok (row : AlignmentRecord) : bool :=
  is_ok (get_read_length (cigar row)).

(** [pos] lies in the interval [[ref_pos, ref_pos + L)] of [row]. *)
Definition spans (pos : Z) (row : AlignmentRecord) : bool :=
  match get_read_length (cigar row) with
  | Ok L => in_range (ref_pos row) (ref_pos row + L) pos
  | Raise _ => false
  end.

(** An aligner that changes no file but the SAM file it is asked for. *)
Definition writes_only_sam
    (bowtie2 : gmap string str → string → string → aligner_outcome) : Prop :=
  ∀ fs fasta sam returncode fs',
    bowtie2 fs fasta sam = Exited returncode fs' →
    ∀ path, path ≠ sam → fs' !! path = fs !! path.

(** An aligner that can always be launched and always exits with
    code 0. *)
Definition always_exits_zero
    (bowtie2 : gmap string str → string → string → aligner_outcome) : Prop :=
  ∀ fs fasta sam, ∃ fs', bowtie2 fs fasta sam = Exited 0 fs'.

(** No file of [fs] is new and none differs from what [fs0] holds. *)
Definition only_deleted (fs0 fs : gmap string str) : Prop :=
  ∀ path, fs !! path = None ∨ fs !! path = fs0 !! path.

(** [l1] is an initial segment of [l2]. *)
Definition is_prefix {A} (l1 l2 : list A) : Prop := ∃ rest, l2 = l1 ++ rest.

(** What the loop of [main] keeps true of its state: the accepted counter
    is the number of records gathered, every table written so far is an
    initial segment of them, and neither the final table nor the report
    has been written. *)
Definition run_invariant (st : run_state) : Prop :=
  mapped_high_qual (total_stats st) = Z.of_nat (length (total_results st))
  ∧ (∀ path t, tables st !! path = Some t → is_prefix t (total_results st))
  ∧ tables st !! final_results_path = None
  ∧ report st = None.

End More.

(** ** [plot_alignment.py] on a table as [pd.read_csv] hands it over *)

Module Frame.

Import Align Plot.

(** What a cell of the column [ref_pos] holds after
    [pd.to_numeric(..., errors='coerce')]: a finite number, given by the
    integer [int] makes of it, or not-a-number (a cell that was empty or
    no number), or an infinite number. *)
Inductive number : Type :=
| Finite (truncated : Z)
| NaN
| Infinity.

(** What a cell of the column [cigar] holds: a text, or a value that is
    no text (not-a-number for an empty cell, a number when the column was
    read as numeric). *)
Inductive cell : Type :=
| Text (s : str)
| NotText.

Record FrameRow : Type := {
  ref_pos_cell : number;
  cigar_cell : cell
}.

(** [int(row['ref_pos'])] *)
Definition int_of_number (x : number) : result Z :=
  match x with
  | Finite truncated => Ok truncated
  | NaN => Raise ValueError
  | Infinity => Raise OverflowError
  end.

(** [get_read_length(row['cigar'])]: [for char in cigar] raises
    [TypeError] on a value that is no text. *)
Definition get_read_length_cell (cigar : cell) : result Z :=
  match cigar with
  | Text s => get_read_length s
  | NotText => Raise TypeError
  end.

(** The body of the [for _, row in df.iterrows()] loop. *)
Definition add_read (start_pos end_pos : Z) (coverage : list Z)
    (row : FrameRow) : result (list Z) :=
  read_start ← int_of_number (ref_pos_cell row);
  read_length ← get_read_length_cell (cigar_cell row);
  let read_end := read_start + read_length in
  if (start_pos <=? read_end) && (read_start <=? end_pos) then
    let start_idx := Z.max 0 (read_start - start_pos) in
    let end_idx := Z.min (end_pos - start_pos) (read_end - start_pos) in
    Ok (slice_incr coverage start_idx end_idx)
  else Ok coverage.

Fixpoint add_reads (start_pos end_pos : Z) (coverage : list Z)
    (df : list FrameRow) : result (list Z) :=
  match df with
  | [] => Ok coverage
  | row :: rest =>
      coverage' ← add_read start_pos end_pos coverage row;
      add_reads start_pos end_pos coverage' rest
  end.

(** The array [coverage] when the loop is over. *)
Definition coverage (df : list FrameRow) (start_pos end_pos : Z)
  : result (list Z) :=
  zero ← zeros (end_pos - start_pos + 1);
  add_reads start_pos end_pos zero df.

(** The row as a record with an integer position and a text, when its
    cells are such (the other columns play no part). *)
Definition record_of (row : FrameRow) : option AlignmentRecord :=
  match ref_pos_cell row, cigar_cell row with
  | Finite truncated, Text s =>
      Some {| read_id := []; ref_pos := truncated; mapq := 0; cigar := s;
              sequence := [] |}
  | _, _ => None
  end.

(** The exception the loop body raises on [row], if any. *)
Definition row_failure (row : FrameRow) : option exn :=
  match ref_pos_cell row with
  | NaN => Some ValueError
  | Infinity => Some OverflowError
  | Finite _ =>
      match cigar_cell row with
      | NotText => Some TypeError
      | Text s => if is_ok (get_read_length s) then None else Some ValueError
      end
  end.

Definition row_ok (row : FrameRow) : bool :=
  match row_failure row with None => true | Some _ => false end.

(** The exception of the first row on which the loop body raises. *)
Definition first_failure (df : list FrameRow) : option exn :=
  head (omap row_failure df).

End Frame.

(** ** [polyA.py] *)

Module PolyA.

Import More.

(** An entry of [adenine_rich_sequences]. *)
Record hit : Type := {
  gene : str;
  start : Z;
  end_ : Z;
  sequence : str;
  adenine_count : Z
}.

(** [s[i:j]] for any two integers: a negative index counts from the end,
    and both are cut to the string. *)
Definition py_slice (s : str) (i j : Z) : str :=
  let len := Z.of_nat (length s) in
  let lo := Plot.slice_bound len i in
  let hi := Plot.slice_bound len j in
  take (Z.to_nat (hi - lo)) (drop (Z.to_nat lo) s).

(** The [while] loop of [find_adenine_rich_sequences] on one record, from
    index [i] on: the entries it appends when it ends within [fuel]
    iterations, [None] when it does not. *)
Fixpoint scan_loop (fuel : nat) (record_id : str) (sequence : str)
    (window_size adenine_threshold jump_size : Z) (i : Z)
  : option (list hit) :=
  match fuel with
  | O => None
  | S fuel' =>
      if i <? Z.of_nat (length sequence) - window_size + 1 then
        let window := py_slice sequence i (i + window_size) in
        if adenine_threshold <=? Z.of_nat (count_char "A" window) then
          tail ← scan_loop fuel' record_id sequence window_size
                    adenine_threshold jump_size (i + jump_size);
          Some ({| gene := record_id; start := i + 1;
                   end_ := i + window_size; sequence := window;
                   adenine_count := Z.of_nat (count_char "A" window) |} :: tail)
        else
          scan_loop fuel' record_id sequence window_size adenine_threshold
            jump_size (i + 1)
      else Some []
  end.

(** The jump when [jump_size] is [None]: [window_size // 2]. *)
Definition jump_of (window_size : Z) (jump_size : option Z) : Z :=
  match jump_size with
  | None => window_size / 2
  | Some j => j
  end.

(** The entries one record adds ([i = 0] at the start). *)
Definition scan_record (fuel : nat) (record_id : str) (sequence : str)
    (window_size adenine_threshold : Z) (jump_size : option Z)
  : option (list hit) :=
  scan_loop fuel record_id sequence window_size adenine_threshold
    (jump_of window_size jump_size) 0.

(** [find_adenine_rich_sequences] on the records of the FASTA file, given
    as pairs of an identifier and a sequence; [fuel] bounds the
    iterations of the [while] loop on each record. *)
Fixpoint find_adenine_rich_sequences (fuel : nat) (records : list (str * str))
    (window_size adenine_threshold : Z) (jump_size : option Z)
  : option (list hit) :=
  match records with
  | [] => Some []
  | (record_id, sequence) :: rest =>
      hits ← scan_record fuel record_id sequence window_size adenine_threshold
                jump_size;
      more ← find_adenine_rich_sequences fuel rest window_size
                adenine_threshold jump_size;
      Some (hits ++ more)
  end.

(** Iterations that are enough for the loop on [sequence] when the index
    grows in every iteration. *)
Definition enough (sequence : str) (window_size : Z) : nat :=
  S (Z.to_nat (Z.of_nat (length sequence) - window_size + 1)).

(** The loop looks at index [p], and the window there meets the
    threshold. *)
Definition rich_at (sequence : str) (window_size adenine_threshold : Z)
    (p : Z) : Prop :=
  0 ≤ p < Z.of_nat (length sequence) - window_size + 1
  ∧ adenine_threshold
    ≤ Z.of_nat (count_char "A" (py_slice sequence p (p + window_size))).

(** The entry [h] is the one written for the window at 0-based index
    [p] of the record. *)
Definition window_entry (record_id : str) (sequence : str)
    (window_size adenine_threshold : Z) (p : Z) (h : hit) : Prop :=
  gene h = record_id
  ∧ start h = p + 1
  ∧ end_ h = p + window_size
  ∧ PolyA.sequence h = py_slice sequence p (p + window_size)
  ∧ adenine_count h
    = Z.of_nat (count_char "A" (py_slice sequence p (p + window_size)))
  ∧ rich_at sequence window_size adenine_threshold p.

End PolyA.

(** ** [adenine_csv_to_gtf_converter.py] *)

Module AdenineGtf.

Import Align.

Inductive error : Type := StopIteration | ValueError.

(** The double quote. *)
Definition QUOTE : ascii := "034".

(** The three counters and the lines written so far. *)
Record vars : Type := {
  total_lines : Z;
  adjusted_lines : Z;
  skipped_lines : Z;
  outfile : list str
}.

(** [str(n)] for an integer. *)
Definition str_of_int (n : Z) : str := py (pretty n).

Definition gtf_line (seqname source feature new_start new_end score strand frame
    attributes : str) : str :=
  seqname ++ [TAB] ++ source ++ [TAB] ++ feature ++ [TAB] ++ new_start ++ [TAB]
    ++ new_end ++ [TAB] ++ score ++ [TAB] ++ strand ++ [TAB] ++ frame ++ [TAB]
    ++ attributes ++ [LF].

Definition int_field (s : str) : error + Z :=
  match PyInt.int s with
  | Ok n => inr n
  | Raise _ => inl ValueError
  end.

(** The body of the loop for one row of the reader. *)
Definition step (adjustment : Z) (source_name : str) (v : vars) (row : list str)
  : error + vars :=
  let total_lines := total_lines v + 1 in
  if (length row <? 5)%nat then
    inr {| total_lines := total_lines; adjusted_lines := adjusted_lines v;
           skipped_lines := skipped_lines v + 1; outfile := outfile v |}
  else
    match row with
    | [chromosome; start; end_; sequence; adenine_count] =>
        match int_field start with
        | inl e => inl e
        | inr start_value =>
            let new_start := start_value - adjustment in
            match int_field end_ with
            | inl e => inl e
            | inr end_value =>
                let new_end := end_value - adjustment in
                if 0 <? new_start then
                  let attributes :=
                    py "sequence " ++ [QUOTE] ++ sequence ++ [QUOTE]
                      ++ py "; adenine_count " ++ [QUOTE] ++ adenine_count
                      ++ [QUOTE] in
                  let line :=
                    gtf_line chromosome source_name (py "adenine_rich_region")
                      (str_of_int new_start) (str_of_int new_end)
                      (py ".") (py ".") (py ".") attributes in
                  inr {| total_lines := total_lines;
                         adjusted_lines := adjusted_lines v + 1;
                         skipped_lines := skipped_lines v;
                         outfile := outfile v ++ [line] |}
                else
                  inr {| total_lines := total_lines;
                         adjusted_lines := adjusted_lines v;
                         skipped_lines := skipped_lines v + 1;
                         outfile := outfile v |}
            end
        end
    | _ => inl ValueError
    end.

Fixpoint loop (adjustment : Z) (source_name : str) (v : vars)
    (rows : list (list str)) : error + vars :=
  match rows with
  | [] => inr v
  | row :: rest =>
      match step adjustment source_name v row with
      | inl e => inl e
      | inr v' => loop adjustment source_name v' rest
      end
  end.

(** [adjust_and_convert_to_gtf] on the rows the reader yields, the header
    row first: the counters returned and the lines of the output file. *)
Definition adjust_and_convert_to_gtf (rows : list (list str)) (adjustment : Z)
    (source_name : str) : error + (Z * Z * Z * list str) :=
  match rows with
  | [] => inl StopIteration
  | _ :: rows =>
      match loop adjustment source_name
              {| total_lines := 0; adjusted_lines := 0; skipped_lines := 0;
                 outfile := [] |} rows with
      | inl e => inl e
      | inr v => inr (total_lines v, adjusted_lines v, skipped_lines v, outfile v)
      end
  end.

End AdenineGtf.

(** * Properties *)

(** ** The embedding on small inputs *)

Example int_plain : PyInt.int (py "20") = Ok 20.
Proof. reflexivity. Qed.

Example int_spaces_and_sign : PyInt.int (py " -7 ") = Ok (-7).
Proof. reflexivity. Qed.

Example int_underscore : PyInt.int (py "1_000") = Ok 1000.
Proof. reflexivity. Qed.

Example int_rejects_letters : PyInt.int (py "4x") = Raise ValueError.
Proof. reflexivity. Qed.

Example int_rejects_empty : PyInt.int (py "") = Raise ValueError.
Proof. reflexivity. Qed.

Example int_rejects_separators :
  PyInt.int ["028"%char; "4"%char; "031"%char] = Raise ValueError
  ∧ Py.strip ["028"%char; "4"%char; "031"%char] = py "4".
Proof. split; reflexivity. Qed.

Example int_drops_line_ends : PyInt.int (py "4" ++ [Align.LF]) = Ok 4.
Proof. reflexivity. Qed.

Example separator_flag_is_malformed :
  Spec.is_malformed
    (Samples.record_line "cell1_umi1"
       (String "028" (String "4" (String "031" EmptyString))) "10" "30" "4M")
  = true.
Proof. reflexivity. Qed.

Example split_empty : Py.split "," (py "") = [py ""].
Proof. reflexivity. Qed.

Example split_keeps_empty_fields :
  Py.split "," (py "a,,b") = [py "a"; py ""; py "b"].
Proof. reflexivity. Qed.

Example strip_both_ends : Py.strip (py "  a b  ") = py "a b".
Proof. reflexivity. Qed.

Example readlines_line_ends :
  Align.readlines (py "a" ++ [Align.CR; Align.LF] ++ py "b" ++ [Align.CR] ++ py "c")
  = [py "a" ++ [Align.LF]; py "b" ++ [Align.LF]; py "c"].
Proof. reflexivity. Qed.

Example temp_fasta_path_12 :
  Align.temp_fasta_path 12 = "alignment_results/temp_seqs_chunk_12.fa"%string.
Proof. vm_compute. reflexivity. Qed.

Example reverse_complement_strips :
  Align.reverse_complement_sequence (Some (py " AACGT ")) = Some (py "ACGTT").
Proof. reflexivity. Qed.

Example reverse_complement_rejects_digit :
  Align.reverse_complement_sequence (Some (py "AC9T")) = None.
Proof. reflexivity. Qed.

(** The end-to-end scenario of the specification: one unmapped read, one
    of mapping quality 15, one of mapping quality 30. *)
Example three_reads :
  Align.parse_sam_lines (Align.readlines Samples.full_sam)
  = Ok ([ {| Align.read_id := py "cell3_umi3"; Align.ref_pos := 100;
             Align.mapq := 30; Align.cigar := py "30M";
             Align.sequence := py "ACGT" |} ],
        {| Align.total_reads := 3; Align.unmapped := 1; Align.low_mapq := 1;
           Align.mapped_high_qual := 1 |}).
Proof. vm_compute. reflexivity. Qed.

Example span_skips_clips_and_indels :
  Plot.get_read_length (py "5S21M3I2D4=1X") = Ok 26.
Proof. reflexivity. Qed.

Example span_without_number :
  Plot.get_read_length (py "M") = Raise ValueError.
Proof. reflexivity. Qed.

(** ** Strings *)

Module StringFacts.

Lemma lstrip_id (s : str) :
  Forall (fun c => Py.isspace c = false) s → Py.lstrip s = s.
Proof. intros H. destruct H as [| c s Hc _]; simpl; [| rewrite Hc]; reflexivity. Qed.

Lemma Forall_rev' {A} (P : A → Prop) (l : list A) : Forall P l → Forall P (rev l).
Proof.
  intros H. apply Forall_forall. intros x Hx%list_elem_of_In%in_rev.
  apply (proj1 (Forall_forall P l) H), list_elem_of_In, Hx.
Qed.

(** [strip] leaves a string without white space as it is. *)
Lemma strip_id (s : str) :
  Forall (fun c => Py.isspace c = false) s → Py.strip s = s.
Proof.
  intros H. unfold Py.strip, Py.rstrip.
  rewrite (lstrip_id s H), (lstrip_id (rev s) (Forall_rev' _ _ H)).
  apply rev_involutive.
Qed.

End StringFacts.

Module PreparerFacts.
Import Align Spec StringFacts.

Lemma nucleotide_cases (c : ascii) :
  is_nucleotide c = true →
  c = "A"%char ∨ c = "C"%char ∨ c = "G"%char ∨ c = "T"%char.
Proof.
  unfold is_nucleotide, Py.char_in. cbn [existsb list_ascii_of_string].
  rewrite !orb_true_iff, !Ascii.eqb_eq. intuition discriminate.
Qed.

(** On a nucleotide the complement is defined, is a nucleotide, and is
    undone by a second complement. *)
Lemma complement_nucleotide (c : ascii) :
  is_nucleotide c = true →
  ∃ c', complement c = Some c' ∧ complement c' = Some c
        ∧ is_nucleotide c' = true ∧ Py.isspace c = false.
Proof.
  intros [-> | [-> | [-> | ->]]]%nucleotide_cases; eexists; repeat split.
Qed.

Lemma complement_all (s : str) :
  forallb is_nucleotide s = true →
  ∃ t, mapM complement s = Some t ∧ mapM complement t = Some s
       ∧ forallb is_nucleotide t = true.
Proof.
  induction s as [| c s IH]; [exists []; auto |].
  cbn [forallb]. intros [Hc Hs]%andb_true_iff.
  destruct (complement_nucleotide c Hc) as (c' & Hcc' & Hc'c & Hn & _).
  destruct (IH Hs) as (t & Hst & Hts & Ht).
  exists (c' :: t). cbn [mapM forallb]. rewrite Hcc', Hc'c, Hn, Ht.
  cbn [mbind option_bind]. rewrite Hst, Hts. auto.
Qed.

Lemma mapM_rev {A B} (f : A → option B) (l : list A) (k : list B) :
  mapM f l = Some k → mapM f (rev l) = Some (rev k).
Proof.
  rewrite !mapM_Some. induction 1 as [| x y l k Hxy _ IH]; [constructor |].
  cbn [rev]. apply Forall2_app; [exact IH | repeat constructor; exact Hxy].
Qed.

Lemma nucleotides_no_space (s : str) :
  forallb is_nucleotide s = true → Forall (fun c => Py.isspace c = false) s.
Proof.
  intros H. apply Forall_forall. intros c Hc%list_elem_of_In.
  rewrite forallb_forall in H.
  destruct (complement_nucleotide c (H c Hc)) as (_ & _ & _ & _ & Hsp).
  exact Hsp.
Qed.

Lemma forallb_rev {A} (p : A → bool) (l : list A) :
  forallb p l = true → forallb p (rev l) = true.
Proof.
  rewrite !forallb_forall. intros H x Hx%in_rev. auto.
Qed.

(** The reverse complement of a non-empty nucleotide string. *)
Lemma reverse_complement_nucleotides (s : str) :
  s ≠ [] → forallb is_nucleotide s = true →
  ∃ t, reverse_complement_sequence (Some s) = Some (rev t)
       ∧ mapM complement s = Some t ∧ mapM complement t = Some s
       ∧ forallb is_nucleotide t = true ∧ t ≠ [].
Proof.
  intros Hne Hs. destruct (complement_all s Hs) as (t & Hst & Hts & Ht).
  exists t. unfold reverse_complement_sequence.
  rewrite (strip_id s (nucleotides_no_space s Hs)).
  destruct s as [| c s]; [contradiction |].
  unfold Seq_reverse_complement. rewrite Hst.
  repeat split; auto.
  intros ->. cbn in Hts. discriminate.
Qed.

End PreparerFacts.

(** ** The parser, line by line *)

Module ParserFacts.
Import Align Spec.

Lemma land_4_testbit (flag : Z) :
  (Z.land flag 4 =? 0) = negb (unmapped_bit flag).
Proof.
  unfold unmapped_bit.
  assert (E : Z.land flag 4 = if Z.testbit flag 2 then 4 else 0).
  { apply Z.bits_inj'. intros n Hn.
    rewrite Z.land_spec.
    change 4 with (2 ^ 2) at 1. rewrite Z.pow2_bits_eqb by lia.
    destruct (Z.eqb_spec 2 n) as [<- | Hne].
    - rewrite andb_true_r. destruct (Z.testbit flag 2); reflexivity.
    - rewrite andb_false_r. destruct (Z.testbit flag 2).
      + change 4 with (2 ^ 2). rewrite Z.pow2_bits_eqb by lia.
        symmetry. apply Z.eqb_neq. exact Hne.
      + symmetry. apply Z.bits_0. }
  rewrite E. destruct (Z.testbit flag 2); reflexivity.
Qed.

Lemma existsb_false_In {A} (p : A → bool) (l : list A) :
  existsb p l = false → ∀ x, In x l → p x = false.
Proof.
  intros Hex x Hin. destruct (p x) eqn:Hp; [| reflexivity].
  assert (existsb p l = true) as Hex' by (apply existsb_exists; eauto).
  congruence.
Defined.

Lemma int_raises_ValueError (s : str) (e : exn) :
  PyInt.int s = Raise e → e = ValueError.
Proof.
  unfold PyInt.int.
  destruct (match PyInt.strip s with [] => _ | _ :: _ => _ end) as [neg body].
  destruct (PyInt.digits 0 false body); [| congruence].
  destruct (_ <? _)%nat; congruence.
Qed.

(** The loop body does what the class of the line says. *)
Lemma parse_line_classify (v : parse_vars) (line : str) :
  parse_line v line =
  match classify line with
  | Header => Ok v
  | Short => Ok (count_read v)
  | Malformed => Raise ValueError
  | Unmapped => Ok (count_unmapped (count_read v))
  | LowConfidence => Ok (count_low_mapq (count_read v))
  | Accepted r => Ok (append_result (count_read v) r)
  end.
Proof.
  unfold parse_line, classify, fields_of, threshold.
  destruct (Py.startswith "@" line); [reflexivity |].
  destruct (length (Py.split TAB (Py.strip line)) <? 11)%nat; [reflexivity |].
  destruct (PyInt.int (Py.item _ 1)) as [flag | e1] eqn:E1; simpl.
  2:{ apply int_raises_ValueError in E1 as ->. reflexivity. }
  destruct (PyInt.int (Py.item _ 4)) as [q | e4] eqn:E4; simpl.
  2:{ apply int_raises_ValueError in E4 as ->. reflexivity. }
  rewrite land_4_testbit, negb_involutive.
  destruct (unmapped_bit flag); [reflexivity |].
  destruct (q <? 20); [reflexivity |].
  destruct (PyInt.int (Py.item _ 3)) as [pos | e3] eqn:E3; simpl.
  - reflexivity.
  - apply int_raises_ValueError in E3 as ->. reflexivity.
Qed.

Lemma count_cons (p : str → bool) (l : str) (ls : list str) :
  count p (l :: ls) = (if p l then 1 else 0) + count p ls.
Proof. unfold count. simpl. destruct (p l); simpl length; lia. Qed.

Lemma count_nil (p : str → bool) : count p [] = 0.
Proof. reflexivity. Qed.

Lemma count_app (p : str → bool) (l1 l2 : list str) :
  count p (l1 ++ l2) = count p l1 + count p l2.
Proof.
  induction l1 as [| l l1 IH]; [rewrite count_nil; simpl; lia |].
  simpl app. rewrite !count_cons, IH. lia.
Qed.

Lemma count_nonneg (p : str → bool) (ls : list str) : 0 ≤ count p ls.
Proof. unfold count. lia. Qed.

Lemma vars_eq (v w : parse_vars) :
  v_results v = v_results w → v_total_reads v = v_total_reads w →
  v_unmapped v = v_unmapped w → v_low_mapq v = v_low_mapq w → v = w.
Proof. destruct v, w; simpl; intros; subst; reflexivity. Qed.

Lemma advance_nil (v : parse_vars) : advance v [] = v.
Proof.
  apply vars_eq; unfold advance, accepted_records; simpl;
    rewrite ?count_nil, ?app_nil_r; lia || reflexivity.
Qed.

Lemma advance_cons (v : parse_vars) (line : str) (rest : list str) :
  advance v (line :: rest) = advance (apply_class v (classify line)) rest.
Proof.
  apply vars_eq; unfold advance, accepted_records;
    cbn [v_results v_total_reads v_unmapped v_low_mapq omap list_omap];
    rewrite ?count_cons;
    unfold accepted_record, is_header, is_unmapped, is_low_confidence;
    destruct (classify line);
    cbn [apply_class count_read count_unmapped count_low_mapq append_result
         v_results v_total_reads v_unmapped v_low_mapq negb];
    rewrite <- ?app_assoc; try reflexivity; lia.
Qed.

(** The loop is the class-wise summary of the lines, unless a line is
    malformed. *)
Lemma parse_lines_advance (lines : list str) (v : parse_vars) :
  parse_lines v lines =
  if existsb is_malformed lines then Raise ValueError
  else Ok (advance v lines).
Proof.
  revert v. induction lines as [| line rest IH]; intros v.
  - simpl. rewrite advance_nil. reflexivity.
  - cbn [parse_lines existsb]. rewrite parse_line_classify, advance_cons.
    unfold is_malformed at 1.
    destruct (classify line); cbn [mbind result_bind orb apply_class];
      try reflexivity; apply IH.
Qed.

Lemma parse_sam_lines_spec (lines : list str) :
  parse_sam_lines lines =
  if existsb is_malformed lines then Raise ValueError
  else Ok (accepted_records lines, stats_of (advance parse_init lines)).
Proof.
  unfold parse_sam_lines. rewrite parse_lines_advance.
  destruct (existsb is_malformed lines); reflexivity.
Qed.

End ParserFacts.

(** ** The parser on a file, and the orchestrator *)

Module FileFacts.
Import Align Spec ParserFacts.

Lemma accepted_records_app (l1 l2 : list str) :
  accepted_records (l1 ++ l2) = accepted_records l1 ++ accepted_records l2.
Proof. unfold accepted_records. apply omap_app. Qed.

(** Every data line is short, unmapped, of low confidence or accepted,
    when none is malformed. *)
Lemma data_lines_partition (lines : list str) :
  existsb is_malformed lines = false →
  count (fun l => negb (is_header l)) lines =
  count is_short lines + count is_unmapped lines
  + count is_low_confidence lines
  + Z.of_nat (length (accepted_records lines)).
Proof.
  induction lines as [| line rest IH]; [reflexivity |].
  cbn [existsb]. intros [Hm Hrest]%orb_false_elim.
  specialize (IH Hrest). rewrite !count_cons.
  unfold accepted_records in *. cbn [omap list_omap].
  set (n_data := count _ rest) in *.
  set (n_short := count is_short rest) in *.
  set (n_unmapped := count is_unmapped rest) in *.
  set (n_low := count is_low_confidence rest) in *.
  set (acc := omap accepted_record rest) in *.
  revert Hm.
  unfold is_malformed, is_header, is_short, is_unmapped, is_low_confidence,
    accepted_record.
  destruct (classify line); cbn [negb length]; intros Hm;
    try discriminate; lia.
Qed.

Lemma uncounted_advance (lines : list str) :
  existsb is_malformed lines = false →
  uncounted (stats_of (advance parse_init lines)) = count is_short lines.
Proof.
  intros Hm. pose proof (data_lines_partition lines Hm) as Hp.
  unfold uncounted, stats_of, advance, parse_init.
  cbn [total_reads unmapped low_mapq mapped_high_qual
       v_results v_total_reads v_unmapped v_low_mapq app].
  lia.
Qed.

Lemma parse_sam_lines_ok (lines : list str) results stats :
  parse_sam_lines lines = Ok (results, stats) →
  existsb is_malformed lines = false
  ∧ results = accepted_records lines
  ∧ stats = stats_of (advance parse_init lines).
Proof.
  rewrite parse_sam_lines_spec.
  destruct (existsb is_malformed lines); [discriminate |].
  intros [= <- <-]. auto.
Qed.

Lemma parse_sam_file_ok (fs : gmap string str) (sam_file : string) results stats :
  parse_sam_file fs sam_file = Ok (results, stats) →
  ∃ content, fs !! sam_file = Some content
    ∧ parse_sam_lines (readlines content) = Ok (results, stats).
Proof.
  unfold parse_sam_file. destruct (fs !! sam_file) as [content |];
    [eauto | discriminate].
Qed.

Lemma uncounted_add (a b : Stats) :
  uncounted (add_stats a b) = uncounted a + uncounted b.
Proof. unfold uncounted, add_stats. simpl. lia. Qed.

Lemma uncounted_zero : uncounted zero_stats = 0.
Proof. reflexivity. Qed.

Section Orchestrator.

Variable bowtie2 : gmap string str → string → string → aligner_outcome.

(** What a batch leaves out of account is the number of short lines of
    its SAM file. *)
Lemma process_chunk_uncounted chunk chunk_num fs fs' results stats :
  process_chunk bowtie2 chunk chunk_num fs = (fs', Ok (results, stats)) →
  0 ≤ uncounted stats
  ∧ (writes_full_lines bowtie2 → uncounted stats = 0).
Proof.
  unfold process_chunk.
  destruct (with_rev_comp (validate chunk)) as [| r rs].
  { intros [= <- <- <-]. rewrite uncounted_zero. split; [lia | auto]. }
  destruct (bowtie2 _ _ _) as [| code fs1] eqn:Hrun; [discriminate |].
  destruct (code =? 0).
  2:{ intros [= <- <- <-]. rewrite uncounted_zero. split; [lia | auto]. }
  destruct (parse_sam_file fs1 _) as [[res st] | e] eqn:Hparse;
    [| discriminate].
  intros [= <- <- <-].
  apply parse_sam_file_ok in Hparse as (content & Hfile & Hlines).
  apply parse_sam_lines_ok in Hlines as (Hm & _ & ->).
  rewrite (uncounted_advance _ Hm). split.
  - apply count_nonneg.
  - intros Hfull. exact (Hfull _ _ _ _ _ _ Hrun Hfile).
Qed.

Lemma process_chunks_uncounted chunks : ∀ chunk_num st,
  0 ≤ uncounted (total_stats st) →
  0 ≤ uncounted (total_stats (process_chunks bowtie2 chunks chunk_num st).1).
Proof.
  induction chunks as [| chunk rest IH]; intros chunk_num st Hst;
    [exact Hst |].
  cbn [process_chunks].
  destruct (process_chunk bowtie2 chunk chunk_num (fs st))
    as [fs' [[results stats] | e]] eqn:Hchunk; [| exact Hst].
  apply IH. cbn [total_stats]. rewrite uncounted_add.
  apply process_chunk_uncounted in Hchunk as [Hge _]. lia.
Qed.

Lemma process_chunks_exact chunks : writes_full_lines bowtie2 →
  ∀ chunk_num st,
  uncounted (total_stats st) = 0 →
  uncounted (total_stats (process_chunks bowtie2 chunks chunk_num st).1) = 0.
Proof.
  intros Hfull.
  induction chunks as [| chunk rest IH]; intros chunk_num st Hst;
    [exact Hst |].
  cbn [process_chunks].
  destruct (process_chunk bowtie2 chunk chunk_num (fs st))
    as [fs' [[results stats] | e]] eqn:Hchunk; [| exact Hst].
  apply IH. cbn [total_stats]. rewrite uncounted_add.
  apply process_chunk_uncounted in Hchunk as [_ Heq].
  rewrite (Heq Hfull). lia.
Qed.

Lemma main_total_stats chunks fs0 :
  total_stats (main bowtie2 chunks fs0).1
  = total_stats (process_chunks bowtie2 chunks 1 (init_state fs0)).1.
Proof.
  unfold main.
  destruct (process_chunks bowtie2 chunks 1 (init_state fs0)) as [st [[] | e]];
    reflexivity.
Qed.

End Orchestrator.

End FileFacts.

Module LineFacts.
Import Align Spec Samples ParserFacts FileFacts.

Lemma existsb_insert {A} (p : A → bool) (l1 l2 : list A) (x : A) :
  existsb p (l1 ++ x :: l2) = p x || existsb p (l1 ++ l2).
Proof.
  rewrite !existsb_app. cbn [existsb].
  destruct (existsb p l1), (p x), (existsb p l2); reflexivity.
Qed.

Lemma count_insert (p : str → bool) (l1 l2 : list str) (x : str) :
  count p (l1 ++ x :: l2) = (if p x then 1 else 0) + count p (l1 ++ l2).
Proof. rewrite !count_app, count_cons. lia. Qed.

Lemma accepted_records_insert (l1 l2 : list str) (x : str) :
  accepted_records (l1 ++ x :: l2)
  = accepted_records l1
      ++ match accepted_record x with Some r => [r] | None => [] end
      ++ accepted_records l2.
Proof.
  rewrite accepted_records_app. f_equal.
  unfold accepted_records. cbn [omap list_omap].
  destruct (accepted_record x); reflexivity.
Qed.

(** A line that is neither malformed nor accepted can be taken out of
    the file without changing the accepted records. *)
Lemma parse_without_discarded before line after results stats :
  accepted_record line = None →
  parse_sam_lines (before ++ line :: after) = Ok (results, stats) →
  parse_sam_lines (before ++ after)
  = Ok (results, stats_of (advance parse_init (before ++ after)))
  ∧ stats = stats_of (advance parse_init (before ++ line :: after)).
Proof.
  intros Hnone Hparse.
  apply parse_sam_lines_ok in Hparse as (Hm & -> & ->).
  rewrite existsb_insert in Hm. apply orb_false_elim in Hm as [_ Hm].
  rewrite parse_sam_lines_spec, Hm.
  rewrite accepted_records_insert, Hnone, accepted_records_app.
  split; reflexivity.
Qed.

Lemma accepted_stays before line after results stats r :
  accepted_record line = Some r →
  parse_sam_lines (before ++ line :: after) = Ok (results, stats) →
  results = accepted_records before ++ r :: accepted_records after.
Proof.
  intros Hsome Hparse.
  apply parse_sam_lines_ok in Hparse as (_ & -> & _).
  rewrite accepted_records_insert, Hsome. reflexivity.
Qed.

Section OneLine.

Variables (line : str) (flag q : Z).
Hypothesis Hdata : Py.startswith "@" line = false.
Hypothesis Hfields : (11 ≤ length (fields_of line))%nat.
Hypothesis Hflag : PyInt.int (Py.item (fields_of line) 1) = Ok flag.
Hypothesis Hq : PyInt.int (Py.item (fields_of line) 4) = Ok q.

Lemma classify_data :
  classify line =
  if unmapped_bit flag then Unmapped
  else if q <? threshold then LowConfidence
  else match PyInt.int (Py.item (fields_of line) 3) with
       | Ok pos =>
           Accepted {| read_id := Py.item (fields_of line) 0; ref_pos := pos;
                       mapq := q; cigar := Py.item (fields_of line) 5;
                       sequence := Py.item (fields_of line) 9 |}
       | Raise _ => Malformed
       end.
Proof.
  unfold classify. rewrite Hdata.
  destruct (Nat.ltb_spec (length (fields_of line)) 11) as [Hlt | _]; [lia |].
  cbv zeta. rewrite Hflag, Hq. reflexivity.
Qed.

Lemma classify_unmapped : Z.land flag 4 ≠ 0 → classify line = Unmapped.
Proof.
  intros Hbit. rewrite classify_data.
  destruct (unmapped_bit flag) eqn:Hb; [reflexivity |].
  pose proof (land_4_testbit flag) as H. rewrite Hb in H.
  apply Z.eqb_eq in H. contradiction.
Qed.

Lemma classify_low : Z.land flag 4 = 0 → q < 20 → classify line = LowConfidence.
Proof.
  intros Hbit Hlow. rewrite classify_data.
  pose proof (land_4_testbit flag) as H. rewrite Hbit in H.
  destruct (unmapped_bit flag); [discriminate |].
  unfold threshold. destruct (Z.ltb_spec q 20); [reflexivity | lia].
Qed.

Lemma classify_accepted pos :
  Z.land flag 4 = 0 → 20 ≤ q →
  PyInt.int (Py.item (fields_of line) 3) = Ok pos →
  classify line =
  Accepted {| read_id := Py.item (fields_of line) 0; ref_pos := pos;
              mapq := q; cigar := Py.item (fields_of line) 5;
              sequence := Py.item (fields_of line) 9 |}.
Proof.
  intros Hbit Hhigh Hpos. rewrite classify_data, Hpos.
  pose proof (land_4_testbit flag) as H. rewrite Hbit in H.
  destruct (unmapped_bit flag); [discriminate |].
  unfold threshold. destruct (Z.ltb_spec q 20); [lia | reflexivity].
Qed.

End OneLine.

End LineFacts.

(** ** A failing aligner *)

Module BatchFacts.
Import Align Spec.

Lemma add_zero_stats (total : Stats) : add_stats total zero_stats = total.
Proof.
  destruct total. unfold add_stats, zero_stats. simpl.
  rewrite !Z.add_0_r. reflexivity.
Qed.

Section Failure.

Variable bowtie2 : gmap string str → string → string → aligner_outcome.
Variables (chunk : list Row) (chunk_num : nat) (fs0 : gmap string str).

Hypothesis Hprepared : with_rev_comp (validate chunk) ≠ [].

Lemma process_chunk_runs :
  process_chunk bowtie2 chunk chunk_num fs0 =
  let prepared := with_rev_comp (validate chunk) in
  let temp_fasta := temp_fasta_path chunk_num in
  let sam_output := sam_output_path chunk_num in
  match bowtie2 (<[temp_fasta := fasta_text prepared]> fs0)
          temp_fasta sam_output with
  | LaunchFailed =>
      (<[temp_fasta := fasta_text prepared]> fs0, Raise FileNotFoundError)
  | Exited returncode fs1 =>
      if returncode =? 0 then
        match parse_sam_file fs1 sam_output with
        | Raise e => (fs1, Raise e)
        | Ok (alignment_results, stats) =>
            (delete sam_output (delete temp_fasta fs1),
             Ok (alignment_results, stats))
        end
      else (delete temp_fasta fs1, Ok ([], zero_stats))
  end.
Proof.
  unfold process_chunk.
  destruct (with_rev_comp (validate chunk)) as [| r rs] eqn:E;
    [contradiction | reflexivity].
Qed.

Lemma process_chunk_nonzero_exit returncode fs1 :
  bowtie2 (<[temp_fasta_path chunk_num :=
               fasta_text (with_rev_comp (validate chunk))]> fs0)
    (temp_fasta_path chunk_num) (sam_output_path chunk_num)
  = Exited returncode fs1 →
  returncode ≠ 0 →
  process_chunk bowtie2 chunk chunk_num fs0
  = (delete (temp_fasta_path chunk_num) fs1, Ok ([], zero_stats)).
Proof.
  intros Hrun Hcode. rewrite process_chunk_runs. cbv zeta. rewrite Hrun.
  destruct (Z.eqb_spec returncode 0); [contradiction | reflexivity].
Qed.

Lemma process_chunk_launch_failure :
  bowtie2 (<[temp_fasta_path chunk_num :=
               fasta_text (with_rev_comp (validate chunk))]> fs0)
    (temp_fasta_path chunk_num) (sam_output_path chunk_num)
  = LaunchFailed →
  process_chunk bowtie2 chunk chunk_num fs0
  = (<[temp_fasta_path chunk_num :=
         fasta_text (with_rev_comp (validate chunk))]> fs0,
     Raise FileNotFoundError).
Proof.
  intros Hrun. rewrite process_chunk_runs. cbv zeta. rewrite Hrun.
  reflexivity.
Qed.

End Failure.

End BatchFacts.

(** ** Operation strings and coverage *)

Module CigarFacts.
Import Align Spec Plot StringFacts.

Lemma py_String (c : ascii) (s : string) : py (String c s) = c :: py s.
Proof. reflexivity. Qed.

Lemma pretty_N_char_decimal (d : N) :
  (d < 10)%N →
  Py.isdecimal (pretty_N_char d) = true
  ∧ Py.digit_value (pretty_N_char d) = Z.of_N d.
Proof.
  intros Hd.
  assert (d = 0 ∨ d = 1 ∨ d = 2 ∨ d = 3 ∨ d = 4 ∨ d = 5 ∨ d = 6 ∨ d = 7
          ∨ d = 8 ∨ d = 9)%N as Hcases by lia.
  decompose [or] Hcases; subst; split; reflexivity.
Qed.

Lemma decimal_is_digit (c : ascii) : Py.isdecimal c = true → Py.isdigit c = true.
Proof. unfold Py.isdigit. intros ->. reflexivity. Qed.

Lemma decimal_no_space (c : ascii) :
  Py.isdecimal c = true → PyInt.isspace c = false.
Proof.
  unfold Py.isdecimal, PyInt.isspace. intros [H1 H2]%andb_true_iff.
  apply Z.leb_le in H1, H2.
  repeat match goal with
         | |- context [?a <=? ?b] => destruct (Z.leb_spec a b); try lia
         | |- context [?a =? ?b] => destruct (Z.eqb_spec a b); try lia
         end; reflexivity.
Qed.

Lemma int_lstrip_decimal (s : str) :
  Forall (fun c => Py.isdecimal c = true) s → PyInt.lstrip s = s.
Proof.
  intros [| c s' Hc _]; [reflexivity |].
  cbn [PyInt.lstrip]. rewrite (decimal_no_space c Hc). reflexivity.
Qed.

Lemma int_strip_decimal (s : str) :
  Forall (fun c => Py.isdecimal c = true) s → PyInt.strip s = s.
Proof.
  intros H. unfold PyInt.strip. rewrite (int_lstrip_decimal s H).
  rewrite int_lstrip_decimal by (apply Forall_rev', H).
  apply rev_involutive.
Qed.

Lemma filter_decimal (s : str) :
  Forall (fun c => Py.isdecimal c = true) s → List.filter Py.isdecimal s = s.
Proof.
  induction 1 as [| c s' Hc _ IH]; [reflexivity |].
  cbn [List.filter]. rewrite Hc, IH. reflexivity.
Qed.

Lemma py_length (s : string) : length (py s) = String.length s.
Proof. induction s as [| c s IH]; [reflexivity |]. cbn. f_equal. exact IH. Qed.

(** The digits [pretty_N_go] puts in front of [s]. *)
Lemma pretty_N_go_decimal (x : N) : ∀ s,
  Forall (fun c => Py.isdecimal c = true) (py s) →
  Forall (fun c => Py.isdecimal c = true) (py (pretty_N_go x s)).
Proof.
  induction (N.lt_wf_0 x) as [x _ IH]. intros s Hs.
  destruct (N.eq_dec x 0%N) as [-> | Hx]; [exact Hs |].
  rewrite pretty_N_go_step by lia.
  apply IH; [apply N.div_lt; lia |].
  rewrite py_String. constructor; [| exact Hs].
  apply pretty_N_char_decimal, N.mod_lt. lia.
Qed.

Lemma digits_pretty_N_go (x : N) : ∀ s seen,
  (0 < x)%N →
  PyInt.digits 0 seen (py (pretty_N_go x s))
  = PyInt.digits (Z.of_N x) true (py s).
Proof.
  induction (N.lt_wf_0 x) as [x _ IH]. intros s seen Hx.
  rewrite pretty_N_go_step by exact Hx.
  destruct (pretty_N_char_decimal (x `mod` 10)%N) as [Hdec Hval];
    [apply N.mod_lt; lia |].
  assert (Hx10 : Z.of_N x = 10 * Z.of_N (x `div` 10)%N + Z.of_N (x `mod` 10)%N).
  { assert (x = 10 * (x `div` 10) + x `mod` 10)%N as Hdm
      by (apply N.div_mod; lia).
    lia. }
  destruct (N.eq_dec (x `div` 10)%N 0%N) as [Hq | Hq].
  - rewrite Hq, pretty_N_go_0, py_String. cbn [PyInt.digits].
    rewrite Hdec, Hval, Hx10, Hq. reflexivity.
  - rewrite IH; [| apply N.div_lt; lia | apply N.neq_0_lt_0, Hq].
    rewrite py_String. cbn [PyInt.digits]. rewrite Hdec, Hval, Hx10.
    reflexivity.
Qed.

Lemma pretty_decimal (n : N) :
  Forall (fun c => Py.isdecimal c = true) (py (pretty n)).
Proof.
  unfold pretty, pretty_N. destruct (decide (n = 0)%N).
  - repeat constructor.
  - apply pretty_N_go_decimal. constructor.
Qed.

(** [int(str(n)) = n], unless [str(n)] has too many digits. *)
Lemma int_pretty (n : N) :
  PyInt.int (py (pretty n))
  = if within_limit n then Ok (Z.of_N n) else Raise ValueError.
Proof.
  pose proof (pretty_decimal n) as Hdec.
  assert (Hdigits : PyInt.digits 0 false (py (pretty n)) = Some (Z.of_N n)).
  { unfold pretty, pretty_N. destruct (decide (n = 0)%N) as [-> | Hn].
    - reflexivity.
    - rewrite digits_pretty_N_go by lia. reflexivity. }
  unfold within_limit. rewrite <- py_length.
  unfold PyInt.int. rewrite (int_strip_decimal _ Hdec).
  revert Hdec Hdigits. generalize (py (pretty n)). intros l Hdec Hdigits.
  destruct l as [| c body].
  - cbn in Hdigits. discriminate.
  - pose proof (filter_decimal _ Hdec) as Hfilter.
    apply Forall_cons in Hdec as [Hc _].
    assert (Ascii.eqb c "-" = false) as ->.
    { apply Ascii.eqb_neq. intros ->. discriminate. }
    assert (Ascii.eqb c "+" = false) as ->.
    { apply Ascii.eqb_neq. intros ->. discriminate. }
    rewrite Hdigits, Hfilter, Nat.ltb_antisym.
    destruct (_ <=? _)%nat; reflexivity.
Qed.

(** The loop collects a run of digits in [current_num]. *)
Lemma loop_digits (ds : str) : ∀ length current_num rest,
  Forall (fun c => Py.isdecimal c = true) ds →
  get_read_length_loop length current_num (ds ++ rest)
  = get_read_length_loop length (current_num ++ ds) rest.
Proof.
  induction ds as [| d ds IH]; intros length current_num rest Hds.
  - rewrite app_nil_r. reflexivity.
  - apply Forall_cons in Hds as [Hd Hds].
    cbn [app get_read_length_loop]. rewrite (decimal_is_digit d Hd).
    rewrite IH by exact Hds. rewrite <- app_assoc. reflexivity.
Qed.

(** At an operation code the loop adds the number collected so far when
    the operation consumes the reference, and starts a new number. *)
Lemma loop_op (op : cigar_op) (length : Z) (current_num rest : str) :
  get_read_length_loop length current_num (op_char op :: rest)
  = if consumes_reference op
    then n ← PyInt.int current_num; get_read_length_loop (length + n) [] rest
    else get_read_length_loop length [] rest.
Proof. destruct op; reflexivity. Qed.

Lemma loop_cigar_text (ops : list (N * cigar_op)) : ∀ length,
  get_read_length_loop length [] (cigar_text ops)
  = if readable ops then Ok (length + reference_span ops) else Raise ValueError.
Proof.
  induction ops as [| [n op] ops IH]; intros length.
  - cbn. rewrite Z.add_0_r. reflexivity.
  - cbn [cigar_text flat_map reference_span readable forallb].
    rewrite <- !app_assoc. rewrite loop_digits by apply pretty_decimal.
    cbn [app]. rewrite loop_op.
    fold (cigar_text ops). fold (readable ops).
    destruct (consumes_reference op); cbn [negb orb].
    + rewrite int_pretty. destruct (within_limit n); cbn [mbind result_bind andb].
      * rewrite IH. destruct (readable ops); [f_equal; lia | reflexivity].
      * reflexivity.
    + rewrite IH. destruct (readable ops); reflexivity.
Qed.

End CigarFacts.

Module CoverageFacts.
Import Align Spec Plot CigarFacts.

Lemma slice_incr_length (cov : list Z) (a b : Z) :
  length (slice_incr cov a b) = length cov.
Proof. unfold slice_incr. apply length_imap. Qed.

Lemma slice_incr_lookup (cov : list Z) (a b : Z) (i : nat) :
  slice_incr cov a b !! i
  = (fun depth =>
       if (slice_bound (Z.of_nat (length cov)) a <=? Z.of_nat i)
          && (Z.of_nat i <? slice_bound (Z.of_nat (length cov)) b)
       then depth + 1 else depth) <$> cov !! i.
Proof. unfold slice_incr. apply list_lookup_imap. Qed.

Lemma slice_bound_nonneg (len i : Z) : 0 ≤ i → slice_bound len i = Z.min i len.
Proof. intros H. unfold slice_bound. destruct (Z.ltb_spec i 0); [lia | reflexivity]. Qed.

Lemma depth_at_None_below (start_pos : Z) (cov : list Z) (pos : Z) :
  pos < start_pos → depth_at start_pos cov pos = None.
Proof.
  intros H. unfold depth_at. destruct (Z.ltb_spec pos start_pos); [reflexivity | lia].
Qed.

(** What one record does to the window: the positions from
    [max start_pos read_start] up to, and without,
    [min end_pos read_end] are incremented. *)
Lemma add_read_depth (start_pos end_pos : Z) (cov : list Z)
    (row : AlignmentRecord) (L : Z) :
  Z.of_nat (length cov) = end_pos - start_pos + 1 →
  get_read_length (cigar row) = Ok L →
  ∃ cov',
    add_read start_pos end_pos cov row = Ok cov'
    ∧ length cov' = length cov
    ∧ ∀ pos,
        depth_at start_pos cov' pos
        = (fun depth =>
             if in_range (Z.max start_pos (ref_pos row))
                  (Z.min end_pos (ref_pos row + L)) pos
             then depth + 1 else depth) <$> depth_at start_pos cov pos.
Proof.
  intros Hlen HL. unfold add_read. rewrite HL. cbn [mbind result_bind].
  set (read_start := ref_pos row). set (read_end := read_start + L).
  destruct ((start_pos <=? read_end) && (read_start <=? end_pos)) eqn:Hguard.
  - apply andb_true_iff in Hguard as [H1%Z.leb_le H2%Z.leb_le].
    eexists. split; [reflexivity |]. split; [apply slice_incr_length |].
    intros pos. unfold depth_at.
    destruct (Z.ltb_spec pos start_pos) as [Hlt | Hge]; [reflexivity |].
    rewrite slice_incr_lookup.
    destruct (cov !! Z.to_nat (pos - start_pos)) as [d |] eqn:Hd;
      [| reflexivity].
    apply lookup_lt_Some in Hd. cbn [fmap option_fmap option_map]. f_equal.
    rewrite !slice_bound_nonneg by (subst read_start read_end; lia).
    unfold in_range. subst read_start read_end.
    repeat match goal with
           | |- context [?a <? ?b] => destruct (Z.ltb_spec a b)
           | |- context [?a <=? ?b] => destruct (Z.leb_spec a b)
           end; cbn [andb]; try reflexivity; lia.
  - exists cov. split; [reflexivity |]. split; [reflexivity |].
    intros pos. destruct (depth_at start_pos cov pos) as [d |]; [| reflexivity].
    cbn [fmap option_fmap option_map]. f_equal. unfold in_range.
    subst read_start read_end.
    apply andb_false_iff in Hguard as [H%Z.leb_gt | H%Z.leb_gt];
      repeat match goal with
             | |- context [?a <? ?b] => destruct (Z.ltb_spec a b)
             | |- context [?a <=? ?b] => destruct (Z.leb_spec a b)
             end; cbn [andb]; try reflexivity; lia.
Qed.

Lemma zeros_length (n : Z) :
  0 ≤ n → Z.of_nat (length (replicate (Z.to_nat n) 0)) = n.
Proof. intros H. rewrite length_replicate. lia. Qed.

Lemma zeros_depth (start_pos end_pos pos : Z) :
  start_pos ≤ pos ≤ end_pos →
  depth_at start_pos (replicate (Z.to_nat (end_pos - start_pos + 1)) 0) pos
  = Some 0.
Proof.
  intros H. unfold depth_at.
  destruct (Z.ltb_spec pos start_pos); [lia |].
  apply lookup_replicate. split; [reflexivity | lia].
Qed.

(** The last position of the window is never incremented. *)
Lemma add_read_last_position (start_pos end_pos : Z) (cov cov' : list Z)
    (row : AlignmentRecord) :
  Z.of_nat (length cov) = end_pos - start_pos + 1 →
  add_read start_pos end_pos cov row = Ok cov' →
  length cov' = length cov
  ∧ depth_at start_pos cov' end_pos = depth_at start_pos cov end_pos.
Proof.
  intros Hlen Hadd.
  destruct (get_read_length (cigar row)) as [L | e] eqn:HL.
  2:{ unfold add_read in Hadd. rewrite HL in Hadd. discriminate. }
  destruct (add_read_depth start_pos end_pos cov row L Hlen HL)
    as (cov'' & Hadd' & Hlen' & Hdepth).
  rewrite Hadd in Hadd'. injection Hadd' as <-.
  split; [exact Hlen' |]. rewrite Hdepth.
  destruct (depth_at start_pos cov end_pos) as [d |]; [| reflexivity].
  cbn [fmap option_fmap option_map]. f_equal. unfold in_range.
  destruct (Z.ltb_spec end_pos (Z.min end_pos (ref_pos row + L))); [lia |].
  rewrite andb_false_r. reflexivity.
Qed.

Lemma add_reads_last_position (start_pos end_pos : Z)
    (df : list AlignmentRecord) : ∀ cov cov',
  Z.of_nat (length cov) = end_pos - start_pos + 1 →
  add_reads start_pos end_pos cov df = Ok cov' →
  depth_at start_pos cov' end_pos = depth_at start_pos cov end_pos.
Proof.
  induction df as [| row rest IH]; intros cov cov' Hlen Hadd.
  - injection Hadd as <-. reflexivity.
  - cbn [add_reads] in Hadd.
    destruct (add_read start_pos end_pos cov row) as [cov1 | e] eqn:H1;
      [| discriminate].
    cbn [mbind result_bind] in Hadd.
    destruct (add_read_last_position _ _ _ _ _ Hlen H1) as [Hlen1 Hd1].
    rewrite <- Hd1. apply IH; [rewrite Hlen1; exact Hlen | exact Hadd].
Qed.

(** Whatever the records, the depth at [end_pos] stays 0. *)
Lemma last_position_never_covered (df : list AlignmentRecord)
    (start_pos end_pos : Z) (cov : list Z) :
  start_pos ≤ end_pos →
  coverage df start_pos end_pos = Ok cov →
  depth_at start_pos cov end_pos = Some 0.
Proof.
  intros Hwin. unfold coverage, zeros.
  destruct (Z.ltb_spec (end_pos - start_pos + 1) 0); [lia |].
  cbn [mbind result_bind]. intros Hadd.
  rewrite (add_reads_last_position _ _ _ _ _ (zeros_length (end_pos - start_pos + 1) ltac:(lia)) Hadd).
  apply zeros_depth. lia.
Qed.

End CoverageFacts.

(** ** The claims of the specification *)

Import Align Spec Samples Plot.
Import StringFacts PreparerFacts ParserFacts FileFacts LineFacts BatchFacts.
Import CigarFacts CoverageFacts.

(** C1, as the code has it.  The statistics of a parsed file satisfy
    [total_reads = unmapped + low_mapq + mapped_high_qual + s], where [s]
    is the number of data lines with fewer than 11 fields.  The running
    totals of the orchestrator satisfy
    [unmapped + low_mapq + mapped_high_qual <= total_reads] after any
    sequence of batches, with equality when the aligner writes no data
    line with fewer than 11 fields. *)
Theorem C1_partition_up_to_short_lines :
  (∀ (fs : gmap string str) sam_file results stats,
      parse_sam_file fs sam_file = Ok (results, stats) →
      ∃ content, fs !! sam_file = Some content
        ∧ total_reads stats
          = unmapped stats + low_mapq stats + mapped_high_qual stats
            + count is_short (readlines content))
  ∧ (∀ bowtie2 chunks fs0,
       let totals := total_stats (main bowtie2 chunks fs0).1 in
       unmapped totals + low_mapq totals + mapped_high_qual totals
         ≤ total_reads totals
       ∧ (writes_full_lines bowtie2 →
          total_reads totals
          = unmapped totals + low_mapq totals + mapped_high_qual totals)).
Proof.
  split.
  - intros fs sam_file results stats Hparse.
    apply parse_sam_file_ok in Hparse as (content & Hfile & Hlines).
    exists content. split; [exact Hfile |].
    apply parse_sam_lines_ok in Hlines as (Hm & _ & ->).
    pose proof (uncounted_advance _ Hm) as Hu. unfold uncounted in Hu. lia.
  - intros bowtie2 chunks fs0 totals. subst totals.
    rewrite main_total_stats. split.
    + pose proof (process_chunks_uncounted bowtie2 chunks 1 (init_state fs0)) as H.
      unfold uncounted in H at 2. cbn [init_state total_stats] in H.
      rewrite uncounted_zero in H. specialize (H ltac:(lia)). lia.
    + intros Hfull.
      pose proof (process_chunks_exact bowtie2 chunks Hfull 1 (init_state fs0)) as H.
      unfold uncounted in H at 2. cbn [init_state total_stats] in H.
      rewrite uncounted_zero in H. specialize (H eq_refl). lia.
Qed.

(** The sample aligner writes no short line. *)
Lemma aligner_writing_full_sam : writes_full_lines (aligner_writing full_sam).
Proof.
  intros fs fasta sam returncode fs' content [= <- <-].
  rewrite lookup_insert_eq. intros [= <-]. vm_compute. reflexivity.
Defined.

(** C1 on a file with one line of each class and a short line, and on a
    run of two batches whose SAM files have no short line. *)
Lemma C1_partition_witness :
  (∃ content, ({[ sam_path := mixed_sam ]} : gmap string str) !! sam_path = Some content
     ∧ 4 = 1 + 1 + 1 + count is_short (readlines content))
  ∧ (let totals := total_stats (main (aligner_writing full_sam) [one_read; one_read] ∅).1 in
     total_reads totals
     = unmapped totals + low_mapq totals + mapped_high_qual totals).
Proof.
  destruct C1_partition_up_to_short_lines as [Hparse Hmain]. split.
  - apply (Hparse {[ sam_path := mixed_sam ]} sam_path
             [ {| read_id := py "cell3_umi3"; ref_pos := 100; mapq := 30;
                  cigar := py "30M"; sequence := py "ACGT" |} ]
             {| total_reads := 4; unmapped := 1; low_mapq := 1;
                mapped_high_qual := 1 |}).
    vm_compute. reflexivity.
  - apply (Hmain (aligner_writing full_sam) [one_read; one_read] ∅).
    exact aligner_writing_full_sam.
Defined.

(** C1 fails as stated: a file whose only line has two fields yields
    [total_reads = 1] while the three classes are all 0. *)
Lemma C1_short_line_counterexample :
  parse_sam_file {[ sam_path := sam_line ["truncated"; "0"]%string ]} sam_path
  = Ok ([], {| total_reads := 1; unmapped := 0; low_mapq := 0;
               mapped_high_qual := 0 |})
  ∧ 1 ≠ 0 + 0 + 0
  ∧ total_stats (main (aligner_writing (sam_line ["truncated"; "0"]%string))
                   [one_read] ∅).1
    = {| total_reads := 1; unmapped := 0; low_mapq := 0;
         mapped_high_qual := 0 |}.
Proof. split; [| split]; [vm_compute; reflexivity | lia | vm_compute; reflexivity]. Qed.

(** C2.  The code at the input of the claim: a record at position 5 with
    21 matched bases (reference positions 5 to 25) and the window
    [[10, 20]].  Positions 10 to 19 are incremented; position 20, the last
    of the window, is not. *)
Theorem C2_window_end_not_incremented :
  get_read_length (py "21M") = Ok 21
  ∧ coverage [read_at 5 "21M"] 10 20 = Ok [1; 1; 1; 1; 1; 1; 1; 1; 1; 1; 0]
  ∧ depth_at 10 [1; 1; 1; 1; 1; 1; 1; 1; 1; 1; 0] 19 = Some 1
  ∧ depth_at 10 [1; 1; 1; 1; 1; 1; 1; 1; 1; 1; 0] 20 = Some 0.
Proof. repeat split. Qed.

(** C3.  The span of an operation string is the sum of the lengths of its
    M, = and X operations (when [int] reads each of them; otherwise
    [get_read_length] raises).  Every record increments the positions of
    its interval [[ref_pos, ref_pos + L)] that lie in the window before
    [end_pos], and no other.  One record at 100 with span 50 in the window
    [[1, 200]] gives depth 1 on [[100, 149]] and 0 elsewhere, and with a
    second record at 120 with span 50 the depth is 2 exactly on
    [[120, 149]].  A record at 151 with span 50 has 200 in its interval
    and in the window, and leaves the depth at 200 at 0. *)
Theorem C3_reference_span_and_depth :
  (∀ ops, get_read_length (cigar_text ops)
          = if readable ops then Ok (reference_span ops) else Raise ValueError)
  ∧ (∀ start_pos end_pos cov row L,
       Z.of_nat (length cov) = end_pos - start_pos + 1 →
       get_read_length (cigar row) = Ok L →
       ∃ cov',
         add_read start_pos end_pos cov row = Ok cov'
         ∧ ∀ pos,
             depth_at start_pos cov' pos
             = (fun depth =>
                  if in_range (ref_pos row) (ref_pos row + L) pos
                     && (pos <? end_pos)
                  then depth + 1 else depth) <$> depth_at start_pos cov pos)
  ∧ (∀ r1,
       ref_pos r1 = 100 → get_read_length (cigar r1) = Ok 50 →
       ∃ cov,
         coverage [r1] 1 200 = Ok cov
         ∧ ∀ pos, 1 ≤ pos ≤ 200 →
             depth_at 1 cov pos = Some (if in_range 100 150 pos then 1 else 0))
  ∧ (∀ r1 r2,
       ref_pos r1 = 100 → get_read_length (cigar r1) = Ok 50 →
       ref_pos r2 = 120 → get_read_length (cigar r2) = Ok 50 →
       ∃ cov,
         coverage [r1; r2] 1 200 = Ok cov
         ∧ ∀ pos, 1 ≤ pos ≤ 200 →
             depth_at 1 cov pos
             = Some ((if in_range 100 150 pos then 1 else 0)
                     + (if in_range 120 170 pos then 1 else 0))
             ∧ (depth_at 1 cov pos = Some 2 ↔ 120 ≤ pos ≤ 149))
  ∧ (∀ r,
       ref_pos r = 151 → get_read_length (cigar r) = Ok 50 →
       ∃ cov,
         coverage [r] 1 200 = Ok cov
         ∧ in_range 151 (151 + 50) 200 = true
         ∧ depth_at 1 cov 200 = Some 0
         ∧ ∀ pos, 151 ≤ pos ≤ 199 → depth_at 1 cov pos = Some 1).
Proof.
  split; [| split; [| split; [| split]]].
  - intros ops. unfold get_read_length. rewrite loop_cigar_text. reflexivity.
  - intros start_pos end_pos cov row L Hlen HL.
    destruct (add_read_depth start_pos end_pos cov row L Hlen HL)
      as (cov' & Hadd & _ & Hdepth).
    exists cov'. split; [exact Hadd |]. intros pos. rewrite Hdepth.
    unfold depth_at.
    destruct (Z.ltb_spec pos start_pos) as [Hlt | Hge]; [reflexivity |].
    destruct (cov !! Z.to_nat (pos - start_pos)) as [depth |]; [| reflexivity].
    cbn [fmap option_fmap option_map]. f_equal. unfold in_range.
    repeat match goal with
           | |- context [?a <? ?b] => destruct (Z.ltb_spec a b)
           | |- context [?a <=? ?b] => destruct (Z.leb_spec a b)
           end; cbn [andb]; lia.
  - intros r1 Hpos HL.
    destruct (add_read_depth 1 200 (replicate 200 0) r1 50 eq_refl HL)
      as (cov & Hadd & _ & Hdepth).
    exists cov. split.
    + unfold coverage.
      change (zeros (200 - 1 + 1)) with (Ok (replicate 200 0)).
      cbn [mbind result_bind add_reads]. rewrite Hadd. reflexivity.
    + intros pos Hwin. rewrite Hdepth, Hpos.
      change (replicate 200 0) with (replicate (Z.to_nat (200 - 1 + 1)) 0).
      rewrite zeros_depth by lia. reflexivity.
  - intros r1 r2 Hpos1 HL1 Hpos2 HL2.
    destruct (add_read_depth 1 200 (replicate 200 0) r1 50 eq_refl HL1)
      as (cov1 & Hadd1 & Hlen1 & Hdepth1).
    destruct (add_read_depth 1 200 cov1 r2 50
                ltac:(rewrite Hlen1; reflexivity) HL2)
      as (cov2 & Hadd2 & _ & Hdepth2).
    exists cov2. split.
    + unfold coverage.
      change (zeros (200 - 1 + 1)) with (Ok (replicate 200 0)).
      cbn [mbind result_bind add_reads]. rewrite Hadd1.
      cbn [mbind result_bind]. rewrite Hadd2. reflexivity.
    + intros pos Hwin. rewrite Hdepth2, Hdepth1, Hpos1, Hpos2.
      change (replicate 200 0) with (replicate (Z.to_nat (200 - 1 + 1)) 0).
      rewrite zeros_depth by lia. cbn [fmap option_fmap option_map].
      unfold in_range.
      repeat match goal with
             | |- context [?a <? ?b] => destruct (Z.ltb_spec a b)
             | |- context [?a <=? ?b] => destruct (Z.leb_spec a b)
             end; cbn [andb]; try lia;
        (split; [reflexivity | split; [intros H'; apply (inj Some) in H'; lia | intros ?; f_equal; lia]]).
  - intros r Hpos HL.
    destruct (add_read_depth 1 200 (replicate 200 0) r 50 eq_refl HL)
      as (cov & Hadd & _ & Hdepth).
    exists cov. split; [| split; [reflexivity | split]].
    + unfold coverage.
      change (zeros (200 - 1 + 1)) with (Ok (replicate 200 0)).
      cbn [mbind result_bind add_reads]. rewrite Hadd. reflexivity.
    + rewrite Hdepth, Hpos. reflexivity.
    + intros pos Hwin. rewrite Hdepth, Hpos.
      change (replicate 200 0) with (replicate (Z.to_nat (200 - 1 + 1)) 0).
      rewrite zeros_depth by lia. cbn [fmap option_fmap option_map].
      unfold in_range.
      repeat match goal with
             | |- context [?a <? ?b] => destruct (Z.ltb_spec a b)
             | |- context [?a <=? ?b] => destruct (Z.leb_spec a b)
             end; cbn [andb]; try lia; reflexivity.
Qed.

(** C3 on a record at 100 whose operations sum to 50, alone and with a
    second record at 120, and on a record that reaches the window end. *)
Lemma C3_span_and_depth_witness :
  get_read_length (py "5S20M3I30X") = Ok 50
  ∧ (∃ cov',
       add_read 1 200 (replicate 200 0) (read_at 151 "50M") = Ok cov'
       ∧ ∀ pos,
           depth_at 1 cov' pos
           = (fun depth =>
                if in_range 151 (151 + 50) pos && (pos <? 200)
                then depth + 1 else depth)
               <$> depth_at 1 (replicate 200 0) pos)
  ∧ (∃ cov,
       coverage [read_at 100 "5S20M3I30X"] 1 200 = Ok cov
       ∧ ∀ pos, 1 ≤ pos ≤ 200 →
           depth_at 1 cov pos = Some (if in_range 100 150 pos then 1 else 0))
  ∧ (∃ cov,
       coverage [read_at 100 "5S20M3I30X"; read_at 120 "50M"] 1 200 = Ok cov
       ∧ ∀ pos, 1 ≤ pos ≤ 200 →
           depth_at 1 cov pos
           = Some ((if in_range 100 150 pos then 1 else 0)
                   + (if in_range 120 170 pos then 1 else 0))
           ∧ (depth_at 1 cov pos = Some 2 ↔ 120 ≤ pos ≤ 149))
  ∧ (∃ cov,
       coverage [read_at 151 "50M"] 1 200 = Ok cov
       ∧ in_range 151 (151 + 50) 200 = true
       ∧ depth_at 1 cov 200 = Some 0
       ∧ ∀ pos, 151 ≤ pos ≤ 199 → depth_at 1 cov pos = Some 1).
Proof.
  destruct C3_reference_span_and_depth as (Hspan & Hone & Hfirst & Htwo & Hend).
  split; [| split; [| split; [| split]]].
  - exact (Hspan [(5%N, OpS); (20%N, OpM); (3%N, OpI); (30%N, OpX)]).
  - exact (Hone 1 200 (replicate 200 0) (read_at 151 "50M") 50
             eq_refl eq_refl).
  - exact (Hfirst (read_at 100 "5S20M3I30X") eq_refl eq_refl).
  - exact (Htwo (read_at 100 "5S20M3I30X") (read_at 120 "50M")
             eq_refl eq_refl eq_refl eq_refl).
  - exact (Hend (read_at 151 "50M") eq_refl eq_refl).
Defined.

(** C4, as the code has it.  A line beginning with [@] leaves the parser's
    variables unchanged; a data line with fewer than 11 fields is counted
    in [total_reads] and otherwise skipped; the parser returns normally on
    a file exactly when no data line with 11 fields or more has a flag or
    quality field that is no integer (or, being mapped with quality at the
    threshold or above, a position field that is no integer); on such a
    line it raises [ValueError]. *)
Theorem C4_skips_and_integer_fields :
  (∀ v line, Py.startswith "@" line = true → parse_line v line = Ok v)
  ∧ (∀ v line,
       Py.startswith "@" line = false →
       (length (fields_of line) < 11)%nat →
       parse_line v line = Ok (count_read v))
  ∧ (∀ v line, is_malformed line = true → parse_line v line = Raise ValueError)
  ∧ (∀ (fs : gmap string str) sam_file content,
       fs !! sam_file = Some content →
       (is_ok (parse_sam_file fs sam_file) = true
        ↔ ∀ line, In line (readlines content) → is_malformed line = false)
       ∧ (is_ok (parse_sam_file fs sam_file) = false
          → parse_sam_file fs sam_file = Raise ValueError)).
Proof.
  split; [| split; [| split]].
  - intros v line H. unfold parse_line. rewrite H. reflexivity.
  - intros v line Hdata Hshort. unfold parse_line. rewrite Hdata.
    fold (fields_of line).
    destruct (Nat.ltb_spec (length (fields_of line)) 11); [reflexivity | lia].
  - intros v line Hm. rewrite parse_line_classify.
    unfold is_malformed in Hm. destruct (classify line); try discriminate.
    reflexivity.
  - intros fs sam_file content Hfile. unfold parse_sam_file. rewrite Hfile.
    rewrite parse_sam_lines_spec.
    destruct (existsb is_malformed (readlines content)) eqn:Hex; cbn [is_ok].
    + split; [| reflexivity]. split; [discriminate |].
      intros Hall. apply existsb_exists in Hex as (line & Hin & Hm).
      rewrite (Hall line Hin) in Hm. discriminate.
    + split; [| discriminate]. split; [| reflexivity].
      intros _ line Hin. destruct (is_malformed line) eqn:Hm; [| reflexivity].
      assert (existsb is_malformed (readlines content) = true) as Hex'.
      { apply existsb_exists. eauto. }
      congruence.
Qed.

(** C4 on a header line, a line of two fields, a line whose flag is no
    integer, and a file without such a line. *)
Lemma C4_skips_witness :
  parse_line parse_init (sam_line ["@HD"; "VN:1.6"]%string) = Ok parse_init
  ∧ parse_line parse_init (sam_line ["truncated"; "0"]%string)
    = Ok (count_read parse_init)
  ∧ parse_line parse_init bad_flag_sam = Raise ValueError
  ∧ is_ok (parse_sam_file {[ sam_path := full_sam ]} sam_path) = true.
Proof.
  destruct C4_skips_and_integer_fields as (Hheader & Hshort & Hbad & Hfile).
  split; [| split; [| split]].
  - apply Hheader. reflexivity.
  - apply Hshort; [reflexivity | vm_compute; lia].
  - apply Hbad. reflexivity.
  - apply (Hfile {[ sam_path := full_sam ]} sam_path full_sam); [reflexivity |].
    apply existsb_false_In. vm_compute. reflexivity.
Defined.

(** C4 fails as stated: a data line with 11 fields whose flag is no
    integer makes the parser raise [ValueError], which ends the batch and,
    through [process_chunk], the run. *)
Lemma C4_bad_flag_counterexample :
  parse_sam_file {[ sam_path := bad_flag_sam ]} sam_path = Raise ValueError
  ∧ (main (aligner_writing bad_flag_sam) [one_read] ∅).2 = Raise ValueError.
Proof. split; vm_compute; reflexivity. Qed.

(** C6.  A data line with at least 11 fields whose flag has bit [0x4] set
    increments [unmapped] and adds no record, whatever its mapping
    quality: the accepted records of a file are those of the file without
    that line, and the file's [unmapped] count is one more. *)
Theorem C6_unmapped_bit_discards (line : str) (flag q : Z) :
  Py.startswith "@" line = false →
  (11 ≤ length (fields_of line))%nat →
  PyInt.int (Py.item (fields_of line) 1) = Ok flag →
  PyInt.int (Py.item (fields_of line) 4) = Ok q →
  Z.land flag 4 ≠ 0 →
  (∀ v, parse_line v line = Ok (count_unmapped (count_read v)))
  ∧ accepted_record line = None
  ∧ (∀ before after results stats,
       parse_sam_lines (before ++ line :: after) = Ok (results, stats) →
       ∃ stats',
         parse_sam_lines (before ++ after) = Ok (results, stats')
         ∧ unmapped stats = unmapped stats' + 1
         ∧ mapped_high_qual stats = mapped_high_qual stats'
         ∧ mapped_high_qual stats = Z.of_nat (length results)).
Proof.
  intros Hdata Hfields Hflag Hq Hbit.
  pose proof (classify_unmapped line flag q Hdata Hfields Hflag Hq Hbit) as Hc.
  assert (Hnone : accepted_record line = None).
  { unfold accepted_record. rewrite Hc. reflexivity. }
  split; [| split].
  - intros v. rewrite parse_line_classify, Hc. reflexivity.
  - exact Hnone.
  - intros before after results stats Hparse.
    pose proof (parse_sam_lines_ok _ _ _ Hparse) as (_ & Hres & _).
    destruct (parse_without_discarded _ _ _ _ _ Hnone Hparse) as [Hwithout ->].
    eexists. split; [exact Hwithout |].
    unfold stats_of, advance.
    cbn [unmapped mapped_high_qual v_results v_unmapped parse_init].
    rewrite count_insert. unfold is_unmapped at 1. rewrite Hc.
    rewrite accepted_records_insert, Hnone, accepted_records_app.
    cbn [app]. rewrite Hres, accepted_records_insert, Hnone. cbn [app].
    repeat split; lia.
Qed.

(** C6 on a line with flag 4 and mapping quality 60. *)
Lemma C6_unmapped_witness :
  (∀ v, parse_line v (record_line "cell1_umi1" "4" "10" "60" "4M")
        = Ok (count_unmapped (count_read v)))
  ∧ accepted_record (record_line "cell1_umi1" "4" "10" "60" "4M") = None.
Proof.
  pose proof (C6_unmapped_bit_discards
                (record_line "cell1_umi1" "4" "10" "60" "4M") 4 60
                eq_refl ltac:(vm_compute; lia) eq_refl eq_refl ltac:(vm_compute; lia))
    as (Hstep & Hnone & _).
  split; [exact Hstep | exact Hnone].
Defined.

(** C5, as the code has it.  For a batch with at least one valid sequence:
    when the aligner exits with a non-zero code, [process_chunk] returns no
    record and statistics that are all zero, the prepared sequence file is
    deleted, and the orchestrator goes on with the next batch, its running
    totals unchanged; when the aligner cannot be launched, the exception is
    not handled and ends the run. *)
Theorem C5_aligner_failure
    (bowtie2 : gmap string str → string → string → aligner_outcome)
    (chunk : list Row) (chunk_num : nat) (fs0 : gmap string str) :
  let prepared := with_rev_comp (validate chunk) in
  let temp_fasta := temp_fasta_path chunk_num in
  let run := bowtie2 (<[temp_fasta := fasta_text prepared]> fs0)
               temp_fasta (sam_output_path chunk_num) in
  prepared ≠ [] →
  (∀ returncode fs1,
     run = Exited returncode fs1 → returncode ≠ 0 →
     process_chunk bowtie2 chunk chunk_num fs0
     = (delete temp_fasta fs1, Ok ([], zero_stats))
     ∧ delete temp_fasta fs1 !! temp_fasta = None
     ∧ ∀ rest st, fs st = fs0 →
         ∃ st',
           process_chunks bowtie2 (chunk :: rest) chunk_num st
           = process_chunks bowtie2 rest (S chunk_num) st'
           ∧ fs st' = delete temp_fasta fs1
           ∧ total_results st' = total_results st
           ∧ total_stats st' = total_stats st)
  ∧ (run = LaunchFailed →
     (process_chunk bowtie2 chunk chunk_num fs0).2 = Raise FileNotFoundError
     ∧ ∀ rest st, fs st = fs0 →
         (process_chunks bowtie2 (chunk :: rest) chunk_num st).2
         = Raise FileNotFoundError).
Proof.
  intros prepared temp_fasta run Hprepared. split.
  - intros returncode fs1 Hrun Hcode.
    pose proof (process_chunk_nonzero_exit bowtie2 chunk chunk_num fs0
                  Hprepared returncode fs1 Hrun Hcode) as Hchunk.
    split; [exact Hchunk |]. split; [apply lookup_delete_eq |].
    intros rest st Hfs. eexists. cbn [process_chunks].
    rewrite Hfs, Hchunk. split; [reflexivity |].
    cbn [fs total_results total_stats].
    rewrite app_nil_r, add_zero_stats. auto.
  - intros Hrun.
    pose proof (process_chunk_launch_failure bowtie2 chunk chunk_num fs0
                  Hprepared Hrun) as Hchunk.
    split; [rewrite Hchunk; reflexivity |].
    intros rest st Hfs. cbn [process_chunks]. rewrite Hfs, Hchunk. reflexivity.
Qed.

(** C5 on a batch of one read, with an aligner that exits with code 1
    after writing part of its output, and with one that cannot be
    launched. *)
Lemma C5_nonzero_exit_witness :
  process_chunk (aligner_failing_after (py "partial")) one_read 1 ∅
  = (delete (temp_fasta_path 1)
       (<[sam_output_path 1 := py "partial"]>
          (<[temp_fasta_path 1 := fasta_text (with_rev_comp (validate one_read))]> ∅)),
     Ok ([], zero_stats))
  ∧ (process_chunk aligner_missing one_read 1 ∅).2 = Raise FileNotFoundError.
Proof.
  split.
  - destruct (C5_aligner_failure (aligner_failing_after (py "partial")) one_read 1 ∅
                ltac:(discriminate)) as [Hexit _].
    destruct (Hexit 1 _ eq_refl ltac:(lia)) as [Hchunk _].
    exact Hchunk.
  - destruct (C5_aligner_failure aligner_missing one_read 1 ∅
                ltac:(discriminate)) as [_ Hlaunch].
    destruct (Hlaunch eq_refl) as [Hchunk _].
    exact Hchunk.
Defined.

(** C5 fails as stated: a launch failure ends the run with an exception,
    and after a non-zero exit the record-output file the aligner has begun
    is still there. *)
Lemma C5_failure_counterexample :
  (main aligner_missing [one_read; one_read] ∅).2 = Raise FileNotFoundError
  ∧ (process_chunk (aligner_failing_after (py "partial")) one_read 1 ∅).2
    = Ok ([], zero_stats)
  ∧ (process_chunk (aligner_failing_after (py "partial")) one_read 1 ∅).1
      !! sam_output_path 1 = Some (py "partial").
Proof. repeat split; vm_compute; reflexivity. Qed.

(** C7.  For a mapped data line (bit [0x4] clear) with integer fields: at
    mapping quality 20 the record is appended to the results, the accepted
    counter grows by one and the record is in the output of the file; at
    mapping quality 19 the line increments [low_mapq] and adds no record. *)
Theorem C7_threshold_boundary (line : str) (flag pos : Z) :
  Py.startswith "@" line = false →
  (11 ≤ length (fields_of line))%nat →
  PyInt.int (Py.item (fields_of line) 1) = Ok flag →
  Z.land flag 4 = 0 →
  PyInt.int (Py.item (fields_of line) 3) = Ok pos →
  (PyInt.int (Py.item (fields_of line) 4) = Ok 20 →
   let r := {| read_id := Py.item (fields_of line) 0; ref_pos := pos;
               mapq := 20; cigar := Py.item (fields_of line) 5;
               sequence := Py.item (fields_of line) 9 |} in
   (∀ v, parse_line v line = Ok (append_result (count_read v) r)
         ∧ mapped_high_qual (stats_of (append_result (count_read v) r))
           = mapped_high_qual (stats_of v) + 1)
   ∧ (∀ before after results stats,
        parse_sam_lines (before ++ line :: after) = Ok (results, stats) →
        In r results))
  ∧ (PyInt.int (Py.item (fields_of line) 4) = Ok 19 →
     (∀ v, parse_line v line = Ok (count_low_mapq (count_read v)))
     ∧ (∀ before after results stats,
          parse_sam_lines (before ++ line :: after) = Ok (results, stats) →
          ∃ stats',
            parse_sam_lines (before ++ after) = Ok (results, stats')
            ∧ low_mapq stats = low_mapq stats' + 1)).
Proof.
  intros Hdata Hfields Hflag Hbit Hpos. split.
  - intros Hq r.
    pose proof (classify_accepted line flag 20 Hdata Hfields Hflag Hq pos Hbit
                  ltac:(lia) Hpos) as Hc.
    fold r in Hc. split.
    + intros v. rewrite parse_line_classify, Hc. split; [reflexivity |].
      unfold stats_of, append_result, count_read.
      cbn [mapped_high_qual v_results]. rewrite length_app. cbn [length]. lia.
    + intros before after results stats Hparse.
      assert (Hsome : accepted_record line = Some r).
      { unfold accepted_record. rewrite Hc. reflexivity. }
      rewrite (accepted_stays _ _ _ _ _ _ Hsome Hparse).
      apply in_or_app. right. left. reflexivity.
  - intros Hq.
    pose proof (classify_low line flag 19 Hdata Hfields Hflag Hq Hbit
                  ltac:(lia)) as Hc.
    split.
    + intros v. rewrite parse_line_classify, Hc. reflexivity.
    + intros before after results stats Hparse.
      assert (Hnone : accepted_record line = None).
      { unfold accepted_record. rewrite Hc. reflexivity. }
      destruct (parse_without_discarded _ _ _ _ _ Hnone Hparse) as [Hwithout ->].
      eexists. split; [exact Hwithout |].
      unfold stats_of, advance. cbn [low_mapq v_low_mapq parse_init].
      rewrite count_insert. unfold is_low_confidence at 1. rewrite Hc. lia.
Qed.

(** C7 on two lines that differ in the mapping quality only, 20 and 19. *)
Lemma C7_threshold_witness :
  (let r := {| read_id := py "cell1_umi1"; ref_pos := 100; mapq := 20;
              cigar := py "30M"; sequence := py "ACGT" |} in
   ∀ v, parse_line v (record_line "cell1_umi1" "16" "100" "20" "30M")
        = Ok (append_result (count_read v) r)
        ∧ mapped_high_qual (stats_of (append_result (count_read v) r))
          = mapped_high_qual (stats_of v) + 1)
  ∧ (∀ v, parse_line v (record_line "cell1_umi1" "16" "100" "19" "30M")
          = Ok (count_low_mapq (count_read v))).
Proof.
  split.
  - pose proof (C7_threshold_boundary
                  (record_line "cell1_umi1" "16" "100" "20" "30M") 16 100
                  eq_refl ltac:(vm_compute; lia) eq_refl eq_refl eq_refl)
      as [H20 _].
    destruct (H20 eq_refl) as [Hstep _]. exact Hstep.
  - pose proof (C7_threshold_boundary
                  (record_line "cell1_umi1" "16" "100" "19" "30M") 16 100
                  eq_refl ltac:(vm_compute; lia) eq_refl eq_refl eq_refl)
      as [_ H19].
    destruct (H19 eq_refl) as [Hstep _]. exact Hstep.
Defined.

(** C8, as the code has it.  For every non-empty string over A, C, G, T,
    applying the reverse complement twice gives the string back. *)
Theorem C8_reverse_complement_involution (s : str) :
  s ≠ [] →
  forallb is_nucleotide s = true →
  reverse_complement_sequence (reverse_complement_sequence (Some s)) = Some s.
Proof.
  intros Hne Hs.
  destruct (reverse_complement_nucleotides s Hne Hs)
    as (t & Hrc & _ & Hts & Ht & Htne).
  rewrite Hrc.
  assert (Hrne : rev t ≠ []).
  { intros H. apply (f_equal (@rev ascii)) in H.
    rewrite rev_involutive in H. exact (Htne H). }
  destruct (reverse_complement_nucleotides (rev t) Hrne (forallb_rev _ _ Ht))
    as (u & Hrc' & Hu & _).
  transitivity (Some (rev u)); [exact Hrc' |].
  rewrite (mapM_rev _ _ _ Hts) in Hu. injection Hu as <-.
  rewrite rev_involutive. reflexivity.
Qed.

(** C8 on the sequence AACGT. *)
Lemma C8_involution_witness :
  reverse_complement_sequence (reverse_complement_sequence (Some (py "AACGT")))
  = Some (py "AACGT").
Proof.
  apply (C8_reverse_complement_involution (py "AACGT")); [discriminate | reflexivity].
Defined.

(** C8 fails as stated on the empty string, which is a string over
    A, C, G, T: the function returns [None] for it, and [None] again for
    [None]. *)
Lemma C8_empty_string_counterexample :
  forallb is_nucleotide (py "") = true
  ∧ reverse_complement_sequence (Some (py "")) = None
  ∧ reverse_complement_sequence (reverse_complement_sequence (Some (py "")))
    ≠ Some (py "").
Proof. repeat split. discriminate. Qed.

(** C9.  The parser's result is a function of the content of the file:
    two runs that find the same content under [sam_file] return the same
    records and the same statistics (or raise the same exception), and the
    records are those of the accepted lines in the order of the file. *)
Theorem C9_parser_rerun (fs1 fs2 : gmap string str) (sam_file : string) :
  fs1 !! sam_file = fs2 !! sam_file →
  parse_sam_file fs1 sam_file = parse_sam_file fs2 sam_file
  ∧ (∀ content results stats,
       fs1 !! sam_file = Some content →
       parse_sam_file fs1 sam_file = Ok (results, stats) →
       results = accepted_records (readlines content)
       ∧ stats = stats_of (advance parse_init (readlines content))).
Proof.
  intros Hsame. split.
  - unfold parse_sam_file. rewrite Hsame. reflexivity.
  - intros content results stats Hfile Hparse.
    unfold parse_sam_file in Hparse. rewrite Hfile in Hparse.
    apply parse_sam_lines_ok in Hparse as (_ & -> & ->). auto.
Qed.

(** C9 on two file systems that agree on the SAM file and differ
    elsewhere. *)
Lemma C9_rerun_witness :
  parse_sam_file {[ sam_path := mixed_sam ]} sam_path
  = parse_sam_file (<[ "alignment_results/temp_seqs_chunk_1.fa"%string := py ">c_u" ]>
                      {[ sam_path := mixed_sam ]}) sam_path.
Proof.
  apply (C9_parser_rerun {[ sam_path := mixed_sam ]}
           (<[ "alignment_results/temp_seqs_chunk_1.fa"%string := py ">c_u" ]>
              {[ sam_path := mixed_sam ]}) sam_path).
  vm_compute. reflexivity.
Defined.

(** C10.  The accepted counter of the statistics the parser returns is the
    length of the list of records it returns. *)
Theorem C10_accepted_counter_is_length (fs : gmap string str) (sam_file : string)
    (results : list AlignmentRecord) (stats : Stats) :
  parse_sam_file fs sam_file = Ok (results, stats) →
  mapped_high_qual stats = Z.of_nat (length results).
Proof.
  unfold parse_sam_file. destruct (fs !! sam_file) as [content |]; [| discriminate].
  unfold parse_sam_lines.
  destruct (parse_lines parse_init (readlines content)) as [v | e];
    [| discriminate].
  cbn [mbind result_bind]. intros [= <- <-]. reflexivity.
Qed.

(** C10 on the file with one line of each class. *)
Lemma C10_accepted_counter_witness :
  mapped_high_qual
    {| total_reads := 4; unmapped := 1; low_mapq := 1; mapped_high_qual := 1 |}
  = Z.of_nat (length [ {| read_id := py "cell3_umi3"; ref_pos := 100; mapq := 30;
                          cigar := py "30M"; sequence := py "ACGT" |} ]).
Proof.
  apply (C10_accepted_counter_is_length {[ sam_path := mixed_sam ]} sam_path).
  vm_compute. reflexivity.
Defined.

(** * Further properties of the code *)

Module ParserMore.

Import Align Spec More ParserFacts FileFacts LineFacts.

(** What an accepted line looks like. *)
Lemma accepted_record_inv (line : str) (r : AlignmentRecord) :
  accepted_record line = Some r →
  Py.startswith "@" line = false
  ∧ (11 ≤ length (fields_of line))%nat
  ∧ (∃ flag, PyInt.int (Py.item (fields_of line) 1) = Ok flag
             ∧ Z.land flag 4 = 0)
  ∧ PyInt.int (Py.item (fields_of line) 4) = Ok (mapq r)
  ∧ 20 ≤ mapq r
  ∧ PyInt.int (Py.item (fields_of line) 3) = Ok (ref_pos r)
  ∧ read_id r = Py.item (fields_of line) 0
  ∧ cigar r = Py.item (fields_of line) 5
  ∧ sequence r = Py.item (fields_of line) 9.
Proof.
  unfold accepted_record, classify, threshold.
  destruct (Py.startswith "@" line); [discriminate |].
  destruct (Nat.ltb_spec (length (fields_of line)) 11); [discriminate |].
  destruct (PyInt.int (Py.item (fields_of line) 1)) as [flag |] eqn:Hflag;
    [| discriminate].
  destruct (PyInt.int (Py.item (fields_of line) 4)) as [q |] eqn:Hq;
    [| discriminate].
  destruct (unmapped_bit flag) eqn:Hbit; [discriminate |].
  destruct (Z.ltb_spec q 20); [discriminate |].
  destruct (PyInt.int (Py.item (fields_of line) 3)) as [pos |] eqn:Hpos;
    [| discriminate].
  intros [= <-]. cbn [mapq ref_pos read_id cigar sequence].
  repeat split; try assumption; try lia.
  exists flag. split; [reflexivity |].
  pose proof (land_4_testbit flag) as H4. rewrite Hbit in H4.
  apply Z.eqb_eq. exact H4.
Qed.

Lemma readlines_nonempty (c : ascii) (rest : str) : readlines (c :: rest) ≠ [].
Proof.
  cbn [readlines]. destruct (Ascii.eqb c LF); [discriminate |].
  destruct (Ascii.eqb c CR).
  - destruct rest as [| c' rest']; [discriminate |].
    destruct (Ascii.eqb c' LF); discriminate.
  - destruct (readlines rest); discriminate.
Qed.

(** Reading a text that continues after a line end. *)
Lemma readlines_app_bounded (n : nat) : ∀ (c1 c2 : str),
  (length c1 ≤ n)%nat →
  readlines ((c1 ++ [LF]) ++ c2) = readlines (c1 ++ [LF]) ++ readlines c2.
Proof.
  induction n as [| n IH]; intros c1 c2 Hn.
  - destruct c1; [reflexivity | cbn in Hn; lia].
  - destruct c1 as [| x c1]; [reflexivity |].
    cbn [length] in Hn.
    cbn [app readlines].
    destruct (Ascii.eqb x LF).
    { rewrite IH by lia. reflexivity. }
    destruct (Ascii.eqb x CR).
    { destruct c1 as [| y c1].
      - cbn [app]. change (Ascii.eqb LF LF) with true. reflexivity.
      - cbn [app]. cbn [length] in Hn. destruct (Ascii.eqb y LF).
        + rewrite IH by lia. reflexivity.
        + change (y :: (c1 ++ [LF]) ++ c2) with (((y :: c1) ++ [LF]) ++ c2).
          change (y :: c1 ++ [LF]) with ((y :: c1) ++ [LF]).
          rewrite IH by (cbn [length]; lia). reflexivity. }
    rewrite IH by lia.
    destruct (readlines (c1 ++ [LF])) as [| l ls] eqn:E.
    { destruct c1; cbn in E; [discriminate |].
      exfalso. eapply readlines_nonempty. exact E. }
    reflexivity.
Qed.

Lemma readlines_app (c1 c2 : str) :
  readlines ((c1 ++ [LF]) ++ c2) = readlines (c1 ++ [LF]) ++ readlines c2.
Proof. apply (readlines_app_bounded (length c1)). lia. Qed.

Lemma stats_of_advance_app (l1 l2 : list str) :
  stats_of (advance parse_init (l1 ++ l2))
  = add_stats (stats_of (advance parse_init l1)) (stats_of (advance parse_init l2)).
Proof.
  unfold stats_of, add_stats, advance, parse_init.
  cbn [total_reads unmapped low_mapq mapped_high_qual
       v_results v_total_reads v_unmapped v_low_mapq app].
  rewrite !count_app, accepted_records_app, length_app. f_equal; lia.
Qed.

(** Parsing two lists of lines one after the other. *)
Lemma parse_sam_lines_app (l1 l2 : list str) :
  parse_sam_lines (l1 ++ l2) =
  match parse_sam_lines l1, parse_sam_lines l2 with
  | Ok (r1, s1), Ok (r2, s2) => Ok (r1 ++ r2, add_stats s1 s2)
  | _, _ => Raise ValueError
  end.
Proof.
  rewrite !parse_sam_lines_spec, existsb_app.
  destruct (existsb is_malformed l1), (existsb is_malformed l2);
    cbn [orb]; try reflexivity.
  rewrite accepted_records_app, stats_of_advance_app. reflexivity.
Qed.

End ParserMore.

Import Align Spec Samples More ParserFacts FileFacts LineFacts ParserMore.

(** X1.  Every record the parser returns has mapping quality 20 or more
    and is read off a data line of the file with at least 11 fields whose
    flag has bit [0x4] clear: fields 0, 3, 4, 5 and 9 of that line. *)
Theorem X1_accepted_records_provenance (fs : gmap string str) (sam_file : string)
    (results : list AlignmentRecord) (stats : Stats) (r : AlignmentRecord) :
  parse_sam_file fs sam_file = Ok (results, stats) →
  In r results →
  20 ≤ mapq r
  ∧ ∃ content line flag,
      fs !! sam_file = Some content
      ∧ In line (readlines content)
      ∧ Py.startswith "@" line = false
      ∧ (11 ≤ length (fields_of line))%nat
      ∧ PyInt.int (Py.item (fields_of line) 1) = Ok flag
      ∧ Z.land flag 4 = 0
      ∧ PyInt.int (Py.item (fields_of line) 4) = Ok (mapq r)
      ∧ PyInt.int (Py.item (fields_of line) 3) = Ok (ref_pos r)
      ∧ read_id r = Py.item (fields_of line) 0
      ∧ cigar r = Py.item (fields_of line) 5
      ∧ sequence r = Py.item (fields_of line) 9.
Proof.
  intros Hparse Hin.
  apply parse_sam_file_ok in Hparse as (content & Hfile & Hlines).
  apply parse_sam_lines_ok in Hlines as (_ & -> & _).
  unfold accepted_records in Hin.
  apply list_elem_of_In, list_elem_of_omap in Hin as (line & Hline & Hacc).
  apply accepted_record_inv in Hacc
    as (Hdata & Hlen & (flag & Hflag & Hbit) & Hq & Hhigh & Hpos & Hid & Hcig & Hseq).
  split; [exact Hhigh |].
  exists content, line, flag.
  repeat split; try assumption. apply list_elem_of_In. exact Hline.
Qed.

(** X1 on the file with one line of each class. *)
Lemma X1_provenance_witness :
  20 ≤ 30
  ∧ ∃ content line flag,
      ({[ sam_path := mixed_sam ]} : gmap string str) !! sam_path = Some content
      ∧ In line (readlines content)
      ∧ Py.startswith "@" line = false
      ∧ (11 ≤ length (fields_of line))%nat
      ∧ PyInt.int (Py.item (fields_of line) 1) = Ok flag
      ∧ Z.land flag 4 = 0
      ∧ PyInt.int (Py.item (fields_of line) 4) = Ok 30
      ∧ PyInt.int (Py.item (fields_of line) 3) = Ok 100
      ∧ py "cell3_umi3" = Py.item (fields_of line) 0
      ∧ py "30M" = Py.item (fields_of line) 5
      ∧ py "ACGT" = Py.item (fields_of line) 9.
Proof.
  apply (X1_accepted_records_provenance {[ sam_path := mixed_sam ]} sam_path
           [ {| read_id := py "cell3_umi3"; ref_pos := 100; mapq := 30;
                cigar := py "30M"; sequence := py "ACGT" |} ]
           {| total_reads := 4; unmapped := 1; low_mapq := 1;
              mapped_high_qual := 1 |}
           {| read_id := py "cell3_umi3"; ref_pos := 100; mapq := 30;
              cigar := py "30M"; sequence := py "ACGT" |}).
  - vm_compute. reflexivity.
  - left. reflexivity.
Defined.

(** X2.  Parsing a file made of one file that ends with a line end,
    followed by a second file, gives the records of the first followed by
    those of the second and the sum of the two statistics; it raises
    [ValueError] when either part does. *)
Theorem X2_parse_concatenation (fs fs1 fs2 : gmap string str)
    (sam_file sam1 sam2 : string) (c1 c2 : str) :
  fs1 !! sam1 = Some (c1 ++ [LF] : str) →
  fs2 !! sam2 = Some c2 →
  fs !! sam_file = Some ((c1 ++ [LF]) ++ c2 : str) →
  parse_sam_file fs sam_file =
  match parse_sam_file fs1 sam1, parse_sam_file fs2 sam2 with
  | Ok (r1, s1), Ok (r2, s2) => Ok (r1 ++ r2, add_stats s1 s2)
  | _, _ => Raise ValueError
  end.
Proof.
  intros H1 H2 H. unfold parse_sam_file. rewrite H1, H2, H.
  rewrite readlines_app. apply parse_sam_lines_app.
Qed.

(** X2 on one accepted record line followed by the sample file. *)
Lemma X2_concatenation_witness :
  parse_sam_file {[ sam_path := (record_line "cell3_umi3" "16" "100" "30" "30M") ++ mixed_sam ]} sam_path =
  match parse_sam_file {[ sam_path := record_line "cell3_umi3" "16" "100" "30" "30M" ]} sam_path,
        parse_sam_file {[ sam_path := mixed_sam ]} sam_path with
  | Ok (r1, s1), Ok (r2, s2) => Ok (r1 ++ r2, add_stats s1 s2)
  | _, _ => Raise ValueError
  end.
Proof.
  apply (X2_parse_concatenation _ _ _ sam_path sam_path sam_path
           (removelast (record_line "cell3_umi3" "16" "100" "30" "30M")) mixed_sam);
    reflexivity.
Defined.

Module FieldFacts.

Import Align Spec More ParserFacts FileFacts LineFacts.

Lemma is_header_startswith (line : str) : is_header line = Py.startswith "@" line.
Proof.
  unfold is_header, classify. destruct (Py.startswith "@" line); [reflexivity |].
  cbv zeta. destruct (length (fields_of line) <? 11)%nat; [reflexivity |].
  destruct (PyInt.int (Py.item (fields_of line) 1)); [| reflexivity].
  destruct (PyInt.int (Py.item (fields_of line) 4)); [| reflexivity].
  destruct (unmapped_bit a); [reflexivity |].
  destruct (a0 <? threshold); [reflexivity |].
  destruct (PyInt.int (Py.item (fields_of line) 3)); reflexivity.
Qed.

Lemma count_ext (p q : str → bool) (lines : list str) :
  (∀ l, p l = q l) → count p lines = count q lines.
Proof.
  intros H. induction lines as [| l ls IH]; [reflexivity |].
  rewrite !count_cons, H, IH. reflexivity.
Qed.

(** A header line adds nothing to the summary of a file. *)
Lemma advance_header_insert (before after : list str) (h : str) :
  Py.startswith "@" h = true →
  advance parse_init (before ++ h :: after) = advance parse_init (before ++ after).
Proof.
  intros Hh.
  assert (Hc : classify h = Header).
  { unfold classify. rewrite Hh. reflexivity. }
  assert (Hacc : accepted_record h = None) by (unfold accepted_record; rewrite Hc; reflexivity).
  assert (Hhd : is_header h = true) by (unfold is_header; rewrite Hc; reflexivity).
  assert (Hu : is_unmapped h = false) by (unfold is_unmapped; rewrite Hc; reflexivity).
  assert (Hl : is_low_confidence h = false)
    by (unfold is_low_confidence; rewrite Hc; reflexivity).
  apply vars_eq; unfold advance;
    cbn [v_results v_total_reads v_unmapped v_low_mapq];
    rewrite ?count_insert, ?accepted_records_insert, ?Hacc, ?Hhd, ?Hu, ?Hl;
    cbn [negb app]; rewrite ?accepted_records_app; try reflexivity; lia.
Qed.

(** The number of fields is one more than the number of separators. *)
Lemma split_length (sep : ascii) (s : str) :
  length (Py.split sep s) = S (count_char sep s).
Proof.
  unfold count_char. induction s as [| c s IH]; [reflexivity |].
  cbn [Py.split List.filter]. rewrite (Ascii.eqb_sym sep c).
  destruct (Ascii.eqb c sep).
  - cbn [length]. rewrite IH. reflexivity.
  - destruct (Py.split sep s) as [| f fs]; [discriminate |].
    cbn [length] in *. exact IH.
Qed.

End FieldFacts.

Import Align Spec Samples More ParserFacts FileFacts LineFacts ParserMore FieldFacts.

(** X3.  [total_reads] is the number of lines of the file that do not
    begin with [@], short lines included; and a line beginning with [@],
    wherever it stands, changes neither the records nor the statistics. *)
Theorem X3_headers_are_transparent :
  (∀ (fs : gmap string str) sam_file content results stats,
      fs !! sam_file = Some content →
      parse_sam_file fs sam_file = Ok (results, stats) →
      total_reads stats
      = Z.of_nat (length (List.filter (fun l => negb (Py.startswith "@" l))
                            (readlines content))))
  ∧ (∀ before h after,
       Py.startswith "@" h = true →
       parse_sam_lines (before ++ h :: after) = parse_sam_lines (before ++ after)).
Proof.
  split.
  - intros fs sam_file content results stats Hfile Hparse.
    unfold parse_sam_file in Hparse. rewrite Hfile in Hparse.
    apply parse_sam_lines_ok in Hparse as (_ & _ & ->).
    unfold stats_of, advance, parse_init. cbn [total_reads v_total_reads].
    rewrite Z.add_0_l.
    rewrite (count_ext _ (fun l => negb (Py.startswith "@" l))).
    + reflexivity.
    + intros l. rewrite is_header_startswith. reflexivity.
  - intros before h after Hh. rewrite !parse_sam_lines_spec.
    rewrite existsb_insert.
    assert (Hm : is_malformed h = false).
    { unfold is_malformed, classify. rewrite Hh. reflexivity. }
    rewrite Hm. cbn [orb]. rewrite (advance_header_insert _ _ _ Hh).
    rewrite accepted_records_insert, accepted_records_app.
    assert (Hacc : accepted_record h = None)
      by (unfold accepted_record, classify; rewrite Hh; reflexivity).
    rewrite Hacc. reflexivity.
Qed.

(** X3 on the sample file and on a header put between two record lines. *)
Lemma X3_headers_witness :
  4 = Z.of_nat (length (List.filter (fun l => negb (Py.startswith "@" l))
                          (readlines mixed_sam)))
  ∧ parse_sam_lines ([record_line "cell1_umi1" "16" "100" "30" "30M"]
                       ++ sam_line ["@PG"; "ID:bowtie2"]%string
                       :: [record_line "cell2_umi2" "4" "0" "0" "*"])
    = parse_sam_lines ([record_line "cell1_umi1" "16" "100" "30" "30M"]
                         ++ [record_line "cell2_umi2" "4" "0" "0" "*"]).
Proof.
  destruct X3_headers_are_transparent as [Htotal Hheader]. split.
  - apply (Htotal {[ sam_path := mixed_sam ]} sam_path mixed_sam
             [ {| read_id := py "cell3_umi3"; ref_pos := 100; mapq := 30;
                  cigar := py "30M"; sequence := py "ACGT" |} ]
             {| total_reads := 4; unmapped := 1; low_mapq := 1;
                mapped_high_qual := 1 |}).
    + reflexivity.
    + vm_compute. reflexivity.
  - apply Hheader. reflexivity.
Defined.

(** X4.  A line that does not begin with [@] is skipped as short exactly
    when fewer than 10 tabs are left once white space is stripped from
    both ends; tabs at the end of the line are stripped with the rest, so
    empty last fields do not count. *)
Theorem X4_short_lines_by_tabs (line : str) :
  Py.startswith "@" line = false →
  (is_short line = true ↔ (count_char TAB (Py.strip line) < 10)%nat)
  ∧ ((count_char TAB (Py.strip line) < 10)%nat →
     ∀ v, parse_line v line = Ok (count_read v)).
Proof.
  intros Hdata.
  assert (Hlen : length (fields_of line) = S (count_char TAB (Py.strip line))).
  { unfold fields_of. apply split_length. }
  split.
  - unfold is_short, classify. rewrite Hdata. cbv zeta.
    destruct (Nat.ltb_spec (length (fields_of line)) 11) as [Hlt | Hge].
    + split; [intros _; lia | reflexivity].
    + split; [| lia].
      destruct (PyInt.int (Py.item (fields_of line) 1)); [| discriminate].
      destruct (PyInt.int (Py.item (fields_of line) 4)); [| discriminate].
      destruct (unmapped_bit a); [discriminate |].
      destruct (a0 <? threshold); [discriminate |].
      destruct (PyInt.int (Py.item (fields_of line) 3)); discriminate.
  - intros Htabs v. unfold parse_line. rewrite Hdata. fold (fields_of line).
    destruct (Nat.ltb_spec (length (fields_of line)) 11); [reflexivity | lia].
Qed.

(** X4 on a line of eleven fields whose last two are empty. *)
Lemma X4_trailing_empty_fields_witness :
  (is_short (sam_line ["cell1_umi1"; "0"; "HIV"; "10"; "30"; "4M"; "*"; "0"; "0"; ""; ""]%string) = true
   ↔ (count_char TAB (Py.strip (sam_line ["cell1_umi1"; "0"; "HIV"; "10"; "30"; "4M"; "*"; "0"; "0"; ""; ""]%string)) < 10)%nat)
  ∧ ∀ v, parse_line v (sam_line ["cell1_umi1"; "0"; "HIV"; "10"; "30"; "4M"; "*"; "0"; "0"; ""; ""]%string)
         = Ok (count_read v).
Proof.
  destruct (X4_short_lines_by_tabs
              (sam_line ["cell1_umi1"; "0"; "HIV"; "10"; "30"; "4M"; "*"; "0"; "0"; ""; ""]%string)
              eq_refl) as [Hiff Hskip].
  split; [exact Hiff |].
  apply Hskip. vm_compute. lia.
Defined.

Module BatchMore.

Import Align Spec More StringFacts ParserFacts FileFacts LineFacts BatchFacts.

Lemma lstrip_blank (s : str) : is_blank s = true → Py.lstrip s = [].
Proof.
  unfold is_blank. induction s as [| c s IH]; [reflexivity |].
  cbn [forallb Py.lstrip]. intros [Hc Hs]%andb_true_iff. rewrite Hc. auto.
Qed.

(** [strip] of white space is the empty string. *)
Lemma strip_blank (s : str) : is_blank s = true → Py.strip s = [].
Proof.
  intros H. unfold Py.strip. rewrite (lstrip_blank s H). reflexivity.
Qed.

Lemma validate_blank (chunk : list Row) :
  (∀ row, In row chunk → ∃ s, Sequence row = Some s ∧ is_blank s = true) →
  validate chunk = [].
Proof.
  unfold validate. induction chunk as [| row rest IH]; intros Hall; [reflexivity |].
  destruct (Hall row (or_introl eq_refl)) as (s & Hs & Hblank).
  cbn [map]. rewrite filter_cons.
  cbn [Sequence astype_str]. rewrite Hs. cbn [astype_str].
  rewrite (strip_blank s Hblank). cbn [is_empty].
  destruct (decide (true = false)) as [Habs | _]; [discriminate |].
  apply IH. intros r Hr. apply Hall. right. exact Hr.
Qed.

Lemma temp_paths_differ (chunk_num : nat) :
  temp_fasta_path chunk_num ≠ sam_output_path chunk_num.
Proof. unfold temp_fasta_path, sam_output_path. cbn. discriminate. Qed.

Lemma intermediate_not_final (chunk_num : nat) :
  intermediate_path chunk_num ≠ final_results_path.
Proof. unfold intermediate_path, final_results_path. cbn. discriminate. Qed.

(** The accepted counter a batch returns is the number of its records. *)
Lemma process_chunk_counter bowtie2 chunk chunk_num fs fs' results stats :
  process_chunk bowtie2 chunk chunk_num fs = (fs', Ok (results, stats)) →
  mapped_high_qual stats = Z.of_nat (length results).
Proof.
  unfold process_chunk.
  destruct (with_rev_comp (validate chunk)) as [| r rs].
  { intros [= <- <- <-]. reflexivity. }
  destruct (bowtie2 _ _ _) as [| code fs1]; [discriminate |].
  destruct (code =? 0).
  2:{ intros [= <- <- <-]. reflexivity. }
  destruct (parse_sam_file fs1 _) as [[res st] | e] eqn:Hparse; [| discriminate].
  intros [= <- <- <-].
  apply parse_sam_file_ok in Hparse as (content & _ & Hlines).
  apply parse_sam_lines_ok in Hlines as (_ & -> & ->). reflexivity.
Qed.

Lemma is_prefix_refl {A} (l : list A) : is_prefix l l.
Proof. exists []. symmetry. apply app_nil_r. Qed.

Lemma is_prefix_app {A} (l1 l2 more : list A) :
  is_prefix l1 l2 → is_prefix l1 (l2 ++ more).
Proof. intros [rest ->]. exists (rest ++ more). symmetry. apply app_assoc. Qed.

Section Run.

Variable bowtie2 : gmap string str → string → string → aligner_outcome.

Lemma run_invariant_init (fs0 : gmap string str) : run_invariant (init_state fs0).
Proof.
  unfold run_invariant, init_state. cbn. repeat split.
  intros path t H. rewrite lookup_empty in H. discriminate.
Qed.

Lemma process_chunks_invariant (chunks : list (list Row)) :
  ∀ chunk_num st,
    run_invariant st →
    run_invariant (process_chunks bowtie2 chunks chunk_num st).1.
Proof.
  induction chunks as [| chunk rest IH]; intros chunk_num st Hst; [exact Hst |].
  cbn [process_chunks].
  destruct (process_chunk bowtie2 chunk chunk_num (fs st))
    as [fs' [[results stats] | e]] eqn:Hchunk.
  2:{ exact Hst. }
  apply IH. destruct Hst as (Hcount & Hprefix & Hfinal & Hreport).
  unfold run_invariant. cbn [total_stats total_results tables report].
  split; [| split; [| split]].
  - unfold add_stats. cbn [mapped_high_qual]. rewrite length_app.
    rewrite (process_chunk_counter _ _ _ _ _ _ _ Hchunk). lia.
  - intros path t.
    destruct (Z.of_nat chunk_num mod 2 =? 0).
    + rewrite lookup_insert. destruct (decide (intermediate_path chunk_num = path)).
      * intros [= <-]. apply is_prefix_refl.
      * intros H. apply is_prefix_app. eapply Hprefix. exact H.
    + intros H. apply is_prefix_app. eapply Hprefix. exact H.
  - destruct (Z.of_nat chunk_num mod 2 =? 0); [| exact Hfinal].
    rewrite lookup_insert_ne by apply intermediate_not_final. exact Hfinal.
  - exact Hreport.
Qed.

(** A run that ends normally has a checkpoint for every even batch
    number it has passed. *)
Lemma process_chunks_checkpoints (chunks : list (list Row)) :
  ∀ chunk_num st st',
    process_chunks bowtie2 chunks chunk_num st = (st', Ok ()) →
    (∀ path, is_Some (tables st !! path) → is_Some (tables st' !! path))
    ∧ ∀ k, (chunk_num ≤ k < chunk_num + length chunks)%nat →
           Z.of_nat k mod 2 = 0 →
           is_Some (tables st' !! intermediate_path k).
Proof.
  induction chunks as [| chunk rest IH]; intros chunk_num st st' Hrun.
  - injection Hrun as <-. split; [auto |]. intros k Hk. cbn [length] in Hk. lia.
  - cbn [process_chunks] in Hrun.
    destruct (process_chunk bowtie2 chunk chunk_num (fs st))
      as [fs' [[results stats] | e]] eqn:Hchunk; [| discriminate].
    apply IH in Hrun as [Hkeep Hnew]. cbn [tables] in Hkeep.
    split.
    + intros path Hsome. apply Hkeep.
      destruct (Z.of_nat chunk_num mod 2 =? 0); [| exact Hsome].
      rewrite lookup_insert. destruct (decide (intermediate_path chunk_num = path));
        [eauto | exact Hsome].
    + intros k Hk Heven. cbn [length] in Hk.
      destruct (decide (k = chunk_num)) as [-> | Hne].
      * apply Hkeep. rewrite (proj2 (Z.eqb_eq _ _) Heven).
        rewrite lookup_insert_eq. eauto.
      * apply Hnew; [lia | exact Heven].
Qed.

End Run.

End BatchMore.

Import Align Spec Samples More StringFacts ParserFacts FileFacts LineFacts BatchFacts BatchMore.

(** X5.  A batch whose sequences are all white space (or empty) is
    answered without calling the aligner: no record, statistics all zero,
    and the file system as it was. *)
Theorem X5_blank_batch_skips_aligner
    (bowtie2 : gmap string str → string → string → aligner_outcome)
    (chunk : list Row) (chunk_num : nat) (fs0 : gmap string str) :
  (∀ row, In row chunk → ∃ s, Sequence row = Some s ∧ is_blank s = true) →
  process_chunk bowtie2 chunk chunk_num fs0 = (fs0, Ok ([], zero_stats)).
Proof.
  intros Hblank. unfold process_chunk.
  rewrite (validate_blank chunk Hblank). reflexivity.
Qed.

(** X5 on a batch of two blank sequences, with an aligner that cannot be
    launched. *)
Lemma X5_blank_batch_witness :
  process_chunk aligner_missing
    [ {| CellID := py "cell1"; UMI := py "umi1"; Sequence := Some (py "  ") |};
      {| CellID := py "cell2"; UMI := py "umi2"; Sequence := Some (py "") |} ]
    1 ∅
  = (∅, Ok ([], zero_stats)).
Proof.
  apply X5_blank_batch_skips_aligner.
  intros row [<- | [<- | []]]; eexists; split; reflexivity.
Defined.

(** X6.  When the aligner exits with code 0 and its SAM file parses,
    [process_chunk] returns what the parser returns and removes both
    temporary files, leaving every other file as the aligner left it; with
    an aligner that writes nothing but its SAM file, the file system is the
    one before the batch without the two temporary paths. *)
Theorem X6_successful_batch_cleans_up
    (bowtie2 : gmap string str → string → string → aligner_outcome)
    (chunk : list Row) (chunk_num : nat) (fs0 fs1 : gmap string str)
    (results : list AlignmentRecord) (stats : Stats) :
  let prepared := with_rev_comp (validate chunk) in
  let temp_fasta := temp_fasta_path chunk_num in
  let sam_output := sam_output_path chunk_num in
  prepared ≠ [] →
  bowtie2 (<[temp_fasta := fasta_text prepared]> fs0) temp_fasta sam_output
  = Exited 0 fs1 →
  parse_sam_file fs1 sam_output = Ok (results, stats) →
  ∃ fs',
    process_chunk bowtie2 chunk chunk_num fs0 = (fs', Ok (results, stats))
    ∧ fs' !! temp_fasta = None
    ∧ fs' !! sam_output = None
    ∧ (∀ path, path ≠ temp_fasta → path ≠ sam_output → fs' !! path = fs1 !! path)
    ∧ (writes_only_sam bowtie2 →
       fs' = delete sam_output (delete temp_fasta fs0)).
Proof.
  intros prepared temp_fasta sam_output Hprepared Hrun Hparse.
  exists (delete sam_output (delete temp_fasta fs1)).
  split; [| split; [| split; [| split]]].
  - rewrite (process_chunk_runs bowtie2 chunk chunk_num fs0 Hprepared).
    cbv zeta. fold prepared temp_fasta sam_output. rewrite Hrun.
    cbn [Z.eqb]. rewrite Hparse. reflexivity.
  - rewrite lookup_delete_ne by (symmetry; apply temp_paths_differ).
    apply lookup_delete_eq.
  - apply lookup_delete_eq.
  - intros path Hf Hs. rewrite !lookup_delete_ne by congruence. reflexivity.
  - intros Honly. apply map_eq. intros path.
    destruct (decide (path = sam_output)) as [-> | Hs].
    { rewrite !lookup_delete_eq. reflexivity. }
    rewrite !(lookup_delete_ne _ sam_output) by congruence.
    destruct (decide (path = temp_fasta)) as [-> | Hf].
    { rewrite !lookup_delete_eq. reflexivity. }
    rewrite !lookup_delete_ne by congruence.
    rewrite (Honly _ _ _ _ _ Hrun path Hs).
    apply lookup_insert_ne. congruence.
Qed.

Lemma aligner_writing_only_sam (text : str) : writes_only_sam (aligner_writing text).
Proof.
  intros fs fasta sam returncode fs' [= <- <-] path Hpath.
  apply lookup_insert_ne. congruence.
Defined.

(** X6 on a batch of one read and an aligner that writes the sample
    file. *)
Lemma X6_successful_batch_witness :
  ∃ fs',
    process_chunk (aligner_writing full_sam) one_read 1 {[ "notes.txt"%string := py "kept" ]}
    = (fs', Ok ([ {| read_id := py "cell3_umi3"; ref_pos := 100; mapq := 30;
                     cigar := py "30M"; sequence := py "ACGT" |} ],
                {| total_reads := 3; unmapped := 1; low_mapq := 1;
                   mapped_high_qual := 1 |}))
    ∧ fs' = delete (sam_output_path 1)
              (delete (temp_fasta_path 1) {[ "notes.txt"%string := py "kept" ]}).
Proof.
  destruct (X6_successful_batch_cleans_up (aligner_writing full_sam) one_read 1
              {[ "notes.txt"%string := py "kept" ]} _ _ _
              ltac:(discriminate) eq_refl ltac:(vm_compute; reflexivity))
    as (fs' & Hrun & _ & _ & _ & Hfs).
  exists fs'. split; [exact Hrun |].
  apply Hfs, aligner_writing_only_sam.
Defined.

(** X7.  When the aligner exits with code 0 and the parser raises,
    [process_chunk] removes nothing: the file system stays as the aligner
    left it (with the FASTA file still there when the aligner wrote
    nothing but its SAM file), the exception is [FileNotFoundError] exactly
    when the SAM file is missing and [ValueError] otherwise (the file then
    has a line with a field that is no integer), and it ends the run. *)
Theorem X7_parser_exception_skips_cleanup
    (bowtie2 : gmap string str → string → string → aligner_outcome)
    (chunk : list Row) (chunk_num : nat) (fs0 fs1 : gmap string str) (e : exn) :
  let prepared := with_rev_comp (validate chunk) in
  let temp_fasta := temp_fasta_path chunk_num in
  let sam_output := sam_output_path chunk_num in
  prepared ≠ [] →
  bowtie2 (<[temp_fasta := fasta_text prepared]> fs0) temp_fasta sam_output
  = Exited 0 fs1 →
  parse_sam_file fs1 sam_output = Raise e →
  process_chunk bowtie2 chunk chunk_num fs0 = (fs1, Raise e)
  ∧ (fs1 !! sam_output = None ↔ e = FileNotFoundError)
  ∧ (∀ content, fs1 !! sam_output = Some content →
       e = ValueError
       ∧ ∃ line, In line (readlines content) ∧ is_malformed line = true)
  ∧ (writes_only_sam bowtie2 → fs1 !! temp_fasta = Some (fasta_text prepared))
  ∧ (∀ rest st, fs st = fs0 →
       (process_chunks bowtie2 (chunk :: rest) chunk_num st).2 = Raise e).
Proof.
  intros prepared temp_fasta sam_output Hprepared Hrun Hparse.
  assert (Hchunk : process_chunk bowtie2 chunk chunk_num fs0 = (fs1, Raise e)).
  { rewrite (process_chunk_runs bowtie2 chunk chunk_num fs0 Hprepared).
    cbv zeta. fold prepared temp_fasta sam_output. rewrite Hrun.
    cbn [Z.eqb]. rewrite Hparse. reflexivity. }
  split; [exact Hchunk |]. split; [| split; [| split]].
  - unfold parse_sam_file in Hparse.
    destruct (fs1 !! sam_output) as [content |].
    + rewrite parse_sam_lines_spec in Hparse.
      destruct (existsb is_malformed (readlines content)); [| discriminate].
      injection Hparse as <-. split; discriminate.
    + injection Hparse as <-. split; reflexivity.
  - intros content Hfile. unfold parse_sam_file in Hparse.
    rewrite Hfile, parse_sam_lines_spec in Hparse.
    destruct (existsb is_malformed (readlines content)) eqn:Hbad;
      [| discriminate].
    injection Hparse as <-. split; [reflexivity |].
    apply existsb_exists in Hbad as (line & Hin & Hline). eauto.
  - intros Honly.
    rewrite (Honly _ _ _ _ _ Hrun temp_fasta (temp_paths_differ chunk_num)).
    apply lookup_insert_eq.
  - intros rest st Hfs. cbn [process_chunks]. rewrite Hfs, Hchunk. reflexivity.
Qed.

(** X7 on an aligner that writes a SAM file with a flag that is no
    integer. *)
Lemma X7_parser_exception_witness :
  process_chunk (aligner_writing bad_flag_sam) one_read 1 ∅
  = (<[sam_output_path 1 := bad_flag_sam]>
       (<[temp_fasta_path 1 := fasta_text (with_rev_comp (validate one_read))]> ∅),
     Raise ValueError)
  ∧ (<[sam_output_path 1 := bad_flag_sam]>
       (<[temp_fasta_path 1 := fasta_text (with_rev_comp (validate one_read))]>
          (∅ : gmap string str)))
      !! temp_fasta_path 1
    = Some (fasta_text (with_rev_comp (validate one_read))).
Proof.
  destruct (X7_parser_exception_skips_cleanup (aligner_writing bad_flag_sam)
              one_read 1 ∅ _ ValueError
              ltac:(discriminate) eq_refl ltac:(vm_compute; reflexivity))
    as (Hchunk & _ & _ & Hfasta & _).
  split; [exact Hchunk |].
  apply Hfasta, aligner_writing_only_sam.
Defined.

(** X8.  Whatever the aligner does and however the run ends, the accepted
    counter of the running totals is the number of records gathered. *)
Theorem X8_total_accepted_is_number_of_results
    (bowtie2 : gmap string str → string → string → aligner_outcome)
    (chunks : list (list Row)) (fs0 : gmap string str) :
  mapped_high_qual (total_stats (main bowtie2 chunks fs0).1)
  = Z.of_nat (length (total_results (main bowtie2 chunks fs0).1)).
Proof.
  pose proof (process_chunks_invariant bowtie2 chunks 1 (init_state fs0)
                (run_invariant_init fs0)) as (Hcount & _).
  unfold main.
  destruct (process_chunks bowtie2 chunks 1 (init_state fs0)) as [st [[] | e]];
    exact Hcount.
Qed.

(** X9.  Every table a run has written holds an initial segment of the
    records gathered.  A run that ends normally has written the final
    table with all of them, the report with the running totals, and a
    checkpoint for every even batch number; a run that ends with an
    exception has written neither the final table nor the report. *)
Theorem X9_run_outputs
    (bowtie2 : gmap string str → string → string → aligner_outcome)
    (chunks : list (list Row)) (fs0 : gmap string str) :
  let st := (main bowtie2 chunks fs0).1 in
  let outcome := (main bowtie2 chunks fs0).2 in
  (∀ path t, tables st !! path = Some t → is_prefix t (total_results st))
  ∧ (outcome = Ok () →
     tables st !! final_results_path = Some (total_results st)
     ∧ report st = Some (total_stats st)
     ∧ ∀ k, (1 ≤ k ≤ length chunks)%nat → Z.of_nat k mod 2 = 0 →
            is_Some (tables st !! intermediate_path k))
  ∧ (∀ e, outcome = Raise e →
          tables st !! final_results_path = None ∧ report st = None).
Proof.
  cbv zeta.
  pose proof (process_chunks_invariant bowtie2 chunks 1 (init_state fs0)
                (run_invariant_init fs0)) as (_ & Hprefix & Hfinal & Hreport).
  pose proof (process_chunks_checkpoints bowtie2 chunks 1 (init_state fs0)) as Hcp.
  unfold main.
  destruct (process_chunks bowtie2 chunks 1 (init_state fs0)) as [st [[] | e]];
    cbn [fst snd tables report total_results total_stats] in *.
  - split; [| split].
    + intros path t. rewrite lookup_insert.
      destruct (decide (final_results_path = path)).
      * intros [= <-]. apply is_prefix_refl.
      * apply Hprefix.
    + intros _. split; [apply lookup_insert_eq |]. split; [reflexivity |].
      intros k Hk Heven. destruct (Hcp st eq_refl) as [_ Hnew].
      rewrite lookup_insert_ne by (symmetry; apply intermediate_not_final).
      apply Hnew; [lia | exact Heven].
    + intros e [=].
  - split; [exact Hprefix |]. split; [intros [=] |].
    intros e' _. split; assumption.
Qed.

(** X9 on a run of three batches that ends normally, and on a run that
    the parser ends. *)
Lemma X9_run_outputs_witness :
  (tables (main (aligner_writing full_sam) [one_read; one_read; one_read] ∅).1
     !! final_results_path
   = Some (total_results
             (main (aligner_writing full_sam) [one_read; one_read; one_read] ∅).1)
   ∧ is_Some (tables (main (aligner_writing full_sam) [one_read; one_read; one_read] ∅).1
                !! intermediate_path 2))
  ∧ report (main (aligner_writing bad_flag_sam) [one_read] ∅).1 = None.
Proof.
  split.
  - destruct (X9_run_outputs (aligner_writing full_sam) [one_read; one_read; one_read] ∅)
      as (_ & Hok & _).
    destruct (Hok ltac:(vm_compute; reflexivity)) as (Hfinal & _ & Hcp).
    split; [exact Hfinal |].
    apply Hcp; [cbn; lia | reflexivity].
  - destruct (X9_run_outputs (aligner_writing bad_flag_sam) [one_read] ∅)
      as (_ & _ & Hraise).
    destruct (Hraise ValueError ltac:(vm_compute; reflexivity)) as [_ Hrep].
    exact Hrep.
Defined.

Module CoverageMore.

Import Align Spec Plot More StringFacts CigarFacts CoverageFacts.

Lemma get_read_length_loop_ValueError (cigar : str) : ∀ length current_num e,
  get_read_length_loop length current_num cigar = Raise e → e = ValueError.
Proof.
  induction cigar as [| char rest IH]; intros length current_num e; [discriminate |].
  cbn [get_read_length_loop].
  destruct (Py.isdigit char); [apply IH |].
  destruct (Py.char_in char (py "MIDNSHP=X")); [| apply IH].
  destruct (Py.char_in char (py "M=X")); [| apply IH].
  destruct (PyInt.int current_num) as [n | e'] eqn:Hint; cbn [mbind result_bind].
  - apply IH.
  - intros [= <-]. eapply ParserFacts.int_raises_ValueError. exact Hint.
Qed.

Lemma add_read_ValueError start_pos end_pos cov row e :
  add_read start_pos end_pos cov row = Raise e → e = ValueError.
Proof.
  unfold add_read.
  destruct (get_read_length (cigar row)) as [L | e'] eqn:HL; cbn [mbind result_bind].
  - destruct (_ && _); discriminate.
  - intros [= <-]. eapply get_read_length_loop_ValueError. exact HL.
Qed.

Lemma covers_span (start_pos end_pos pos : Z) (row : AlignmentRecord) (L : Z) :
  get_read_length (cigar row) = Ok L →
  covers start_pos end_pos pos row
  = in_range (Z.max start_pos (ref_pos row)) (Z.min end_pos (ref_pos row + L)) pos.
Proof. intros HL. unfold covers. rewrite HL. reflexivity. Qed.

(** The loop over the records adds, at every position, the number of
    records that cover it. *)
Lemma add_reads_depth (start_pos end_pos : Z) (df : list AlignmentRecord) :
  ∀ cov cov',
    Z.of_nat (length cov) = end_pos - start_pos + 1 →
    add_reads start_pos end_pos cov df = Ok cov' →
    length cov' = length cov
    ∧ ∀ pos,
        depth_at start_pos cov' pos
        = (fun depth =>
             depth + Z.of_nat (length (List.filter (covers start_pos end_pos pos) df)))
            <$> depth_at start_pos cov pos.
Proof.
  induction df as [| row rest IH]; intros cov cov' Hlen Hadd.
  - injection Hadd as <-. split; [reflexivity |]. intros pos.
    destruct (depth_at start_pos cov pos); cbn; [f_equal; lia | reflexivity].
  - cbn [add_reads] in Hadd.
    destruct (add_read start_pos end_pos cov row) as [cov1 | e] eqn:H1;
      [| discriminate].
    cbn [mbind result_bind] in Hadd.
    destruct (get_read_length (cigar row)) as [L | e] eqn:HL.
    2:{ unfold add_read in H1. rewrite HL in H1. discriminate. }
    destruct (add_read_depth start_pos end_pos cov row L Hlen HL)
      as (cov1' & H1' & Hlen1 & Hdepth1).
    rewrite H1 in H1'. injection H1' as <-.
    destruct (IH cov1 cov' ltac:(rewrite Hlen1; exact Hlen) Hadd) as [Hlen' Hdepth'].
    split; [congruence |]. intros pos. rewrite Hdepth', Hdepth1.
    cbn [List.filter]. rewrite (covers_span _ _ _ _ _ HL).
    destruct (depth_at start_pos cov pos) as [d |]; [| reflexivity].
    cbn [fmap option_fmap option_map]. f_equal.
    destruct (in_range _ _ pos); cbn [length]; lia.
Qed.

Lemma add_reads_ok (start_pos end_pos : Z) (df : list AlignmentRecord) : ∀ cov,
  is_ok (add_reads start_pos end_pos cov df) = forallb span_ok df.
Proof.
  induction df as [| row rest IH]; intros cov; [reflexivity |].
  cbn [add_reads forallb]. unfold span_ok at 1, add_read.
  destruct (get_read_length (cigar row)) as [L | e]; cbn [mbind result_bind is_ok andb].
  - destruct (_ && _); cbn [mbind result_bind]; apply IH.
  - reflexivity.
Qed.

Lemma add_reads_ValueError (start_pos end_pos : Z) (df : list AlignmentRecord) :
  ∀ cov e, add_reads start_pos end_pos cov df = Raise e → e = ValueError.
Proof.
  induction df as [| row rest IH]; intros cov e; [discriminate |].
  cbn [add_reads].
  destruct (add_read start_pos end_pos cov row) as [cov1 | e1] eqn:H1;
    cbn [mbind result_bind].
  - apply IH.
  - intros [= <-]. eapply add_read_ValueError. exact H1.
Qed.

Lemma coverage_ValueError df start_pos end_pos e :
  coverage df start_pos end_pos = Raise e → e = ValueError.
Proof.
  unfold coverage, zeros. destruct (_ <? 0); cbn [mbind result_bind].
  - intros [= <-]. reflexivity.
  - apply add_reads_ValueError.
Qed.

(** The array [coverage]: its length and its cells. *)
Lemma coverage_depth df start_pos end_pos cov :
  coverage df start_pos end_pos = Ok cov →
  start_pos - 1 ≤ end_pos
  ∧ Z.of_nat (length cov) = end_pos - start_pos + 1
  ∧ ∀ pos, start_pos ≤ pos ≤ end_pos →
      depth_at start_pos cov pos
      = Some (Z.of_nat (length (List.filter (covers start_pos end_pos pos) df))).
Proof.
  unfold coverage, zeros.
  destruct (Z.ltb_spec (end_pos - start_pos + 1) 0) as [Hneg | Hsize];
    [discriminate |].
  cbn [mbind result_bind]. intros Hadd.
  destruct (add_reads_depth start_pos end_pos df _ cov
              (zeros_length (end_pos - start_pos + 1) Hsize) Hadd)
    as [Hlen Hdepth].
  split; [lia |]. split.
  - rewrite Hlen. apply zeros_length. exact Hsize.
  - intros pos Hpos. rewrite Hdepth, zeros_depth by exact Hpos. reflexivity.
Qed.

Lemma count_covers_perm start_pos end_pos pos (df df' : list AlignmentRecord) :
  Permutation df df' →
  length (List.filter (covers start_pos end_pos pos) df)
  = length (List.filter (covers start_pos end_pos pos) df').
Proof.
  induction 1 as [| x l l' _ IH | x y l | l l' l'' _ IH1 _ IH2];
    cbn [List.filter]; try reflexivity.
  - destruct (covers _ _ _ x); cbn [length]; congruence.
  - destruct (covers _ _ _ x), (covers _ _ _ y); reflexivity.
  - congruence.
Qed.

Lemma span_ok_perm (df df' : list AlignmentRecord) :
  Permutation df df' → forallb span_ok df = forallb span_ok df'.
Proof.
  induction 1 as [| x l l' _ IH | x y l | l l' l'' _ IH1 _ IH2];
    cbn [forallb]; try reflexivity.
  - congruence.
  - destruct (span_ok x), (span_ok y); reflexivity.
  - congruence.
Qed.

Lemma coverage_ok df start_pos end_pos :
  is_ok (coverage df start_pos end_pos)
  = (start_pos - 1 <=? end_pos) && forallb span_ok df.
Proof.
  unfold coverage, zeros.
  destruct (Z.ltb_spec (end_pos - start_pos + 1) 0);
    destruct (Z.leb_spec (start_pos - 1) end_pos); try lia;
    cbn [mbind result_bind is_ok andb]; [reflexivity |].
  apply add_reads_ok.
Qed.

(** [max] of a non-empty list. *)
Lemma fold_max_spec (l : list Z) : ∀ x,
  (fold_left Z.max l x = x ∨ In (fold_left Z.max l x) l)
  ∧ x ≤ fold_left Z.max l x
  ∧ ∀ y, In y l → y ≤ fold_left Z.max l x.
Proof.
  induction l as [| a l IH]; intros x; cbn [fold_left].
  - split; [left; reflexivity |]. split; [lia |]. intros y [].
  - destruct (IH (Z.max x a)) as (Hin & Hge & Hall). split; [| split].
    + destruct Hin as [Heq | Hin]; [| right; right; exact Hin].
      rewrite Heq. destruct (Z.max_spec x a) as [[_ ->] | [_ ->]];
        [right; left; reflexivity | left; reflexivity].
    + lia.
    + intros y [<- | Hy]; [lia | auto].
Qed.

Lemma py_max_spec (l : list Z) (m : Z) :
  py_max l = Ok m → In m l ∧ ∀ y, In y l → y ≤ m.
Proof.
  destruct l as [| x l]; [discriminate |]. cbn [py_max]. intros [= <-].
  destruct (fold_max_spec l x) as (Hin & Hge & Hall). split.
  - destruct Hin as [-> | Hin]; [left; reflexivity | right; exact Hin].
  - intros y [<- | Hy]; [exact Hge | auto].
Qed.

Lemma covers_spans_inside (start_pos end_pos pos : Z) (df : list AlignmentRecord) :
  start_pos ≤ pos < end_pos →
  length (List.filter (covers start_pos end_pos pos) df)
  = length (List.filter (spans pos) df).
Proof.
  intros Hpos. induction df as [| row rest IH]; [reflexivity |].
  cbn [List.filter].
  assert (Heq : covers start_pos end_pos pos row = spans pos row).
  { unfold covers, spans. destruct (get_read_length (cigar row)) as [L |];
      [| reflexivity].
    unfold in_range.
    repeat match goal with
           | |- context [?a <? ?b] => destruct (Z.ltb_spec a b)
           | |- context [?a <=? ?b] => destruct (Z.leb_spec a b)
           end; cbn [andb]; first [reflexivity | lia]. }
  rewrite Heq. destruct (spans pos row); [cbn [length]; f_equal |]; exact IH.
Qed.

Lemma covers_window_end (start_pos end_pos : Z) (df : list AlignmentRecord) :
  List.filter (covers start_pos end_pos end_pos) df = [].
Proof.
  induction df as [| row rest IH]; [reflexivity |].
  cbn [List.filter]. unfold covers at 1.
  destruct (get_read_length (cigar row)) as [L |]; [| exact IH].
  unfold in_range.
  destruct (Z.ltb_spec end_pos (Z.min end_pos (ref_pos row + L))); [lia |].
  rewrite andb_false_r. exact IH.
Qed.

(** The loop over a table is the loop over its rows as records, up to
    the first row on which the body raises. *)
Lemma frame_add_reads (start_pos end_pos : Z) (df : list Frame.FrameRow) : ∀ cov,
  Frame.add_reads start_pos end_pos cov df
  = match Frame.first_failure df with
    | Some e => Raise e
    | None => add_reads start_pos end_pos cov (omap Frame.record_of df)
    end.
Proof.
  induction df as [| [[z | |] [s |]] rest IH]; intros cov; try reflexivity.
  cbn [Frame.add_reads]. unfold Frame.add_read, Frame.first_failure.
  cbn [Frame.ref_pos_cell Frame.cigar_cell Frame.int_of_number
       Frame.get_read_length_cell mbind result_bind omap list_omap
       Frame.row_failure Frame.record_of].
  destruct (get_read_length s) as [L | e] eqn:HL; cbn [is_ok mbind result_bind head].
  - cbn [add_reads]. unfold add_read at 1. cbn [ref_pos cigar]. rewrite HL.
    cbn [mbind result_bind].
    destruct (_ && _); cbn [mbind result_bind]; apply IH.
  - apply get_read_length_loop_ValueError in HL as ->. reflexivity.
Qed.

Lemma frame_first_failure (df : list Frame.FrameRow) :
  (Frame.first_failure df = None → forallb Frame.row_ok df = true)
  ∧ (Frame.first_failure df ≠ None → forallb Frame.row_ok df = false).
Proof.
  unfold Frame.first_failure.
  induction df as [| row rest [IH1 IH2]];
    [split; [reflexivity | intros H; exfalso; apply H; reflexivity] |].
  cbn [omap list_omap forallb]. unfold Frame.row_ok at 1 3.
  destruct (Frame.row_failure row) as [e |]; cbn [head andb].
  - split; [discriminate | reflexivity].
  - split; assumption.
Qed.

Lemma forallb_false_first_failure (df : list Frame.FrameRow) :
  forallb Frame.row_ok df = false → ∃ e, Frame.first_failure df = Some e.
Proof.
  intros Hok. destruct (Frame.first_failure df) as [e |] eqn:Hfirst; [eauto |].
  apply (proj1 (frame_first_failure df)) in Hfirst. congruence.
Qed.

Lemma frame_rows_typed (df : list Frame.FrameRow) :
  forallb Frame.row_ok df = true →
  Forall2 (fun row record => Frame.record_of row = Some record)
    df (omap Frame.record_of df)
  ∧ forallb span_ok (omap Frame.record_of df) = true.
Proof.
  induction df as [| [[z | |] [s |]] rest IH]; cbn [forallb];
    try (split; [constructor | reflexivity]); try discriminate.
  unfold Frame.row_ok at 1, Frame.row_failure.
  cbn [Frame.ref_pos_cell Frame.cigar_cell omap list_omap Frame.record_of].
  destruct (get_read_length s) as [L | e] eqn:HL; cbn [is_ok andb]; [| discriminate].
  intros Hrest. destruct (IH Hrest) as [Hall Hspan]. split.
  - constructor; [reflexivity | exact Hall].
  - cbn [forallb]. unfold span_ok at 1. cbn [cigar]. rewrite HL. exact Hspan.
Qed.

End CoverageMore.

Import Align Spec Samples Plot More StringFacts CigarFacts CoverageFacts CoverageMore.

(** X10.  When [coverage] is computed, it has one cell for each position
    of the window, and the cell of a position holds the number of records
    that cover it: records whose interval, cut at [start_pos] below and
    before [end_pos] above, contains the position. *)
Theorem X10_depth_counts_covering_records
    (df : list AlignmentRecord) (start_pos end_pos : Z) (cov : list Z) :
  coverage df start_pos end_pos = Ok cov →
  Z.of_nat (length cov) = end_pos - start_pos + 1
  ∧ ∀ pos, start_pos ≤ pos ≤ end_pos →
      depth_at start_pos cov pos
      = Some (Z.of_nat (length (List.filter (covers start_pos end_pos pos) df))).
Proof. intros H. apply coverage_depth in H as (_ & Hlen & Hdepth). auto. Qed.

(** X10 on two overlapping records in the window [[1, 200]]. *)
Lemma X10_depth_counts_witness :
  ∃ cov,
    coverage [read_at 100 "50M"; read_at 120 "10S50M"] 1 200 = Ok cov
    ∧ Z.of_nat (length cov) = 200 - 1 + 1
    ∧ ∀ pos, 1 ≤ pos ≤ 200 →
        depth_at 1 cov pos
        = Some (Z.of_nat (length (List.filter (covers 1 200 pos)
                                    [read_at 100 "50M"; read_at 120 "10S50M"]))).
Proof.
  destruct (coverage [read_at 100 "50M"; read_at 120 "10S50M"] 1 200)
    as [cov | e] eqn:Hcov; [| vm_compute in Hcov; discriminate].
  exists cov. split; [reflexivity |].
  exact (X10_depth_counts_covering_records _ 1 200 cov Hcov).
Defined.

(** X11.  On a table as [pd.read_csv] hands it over, the array is
    computed exactly when the window has no negative size
    ([end_pos >= start_pos - 1]) and the loop body raises on no row, that
    is, every row has a finite [ref_pos], a text in [cigar], and a number
    that [int] reads before each M, = and X of it; the array is then the
    one computed from the rows as records.  Otherwise the call raises:
    [ValueError] for a window of negative size, else the exception of the
    first row on which the body raises ([ValueError] for a [ref_pos] that
    is not-a-number, [OverflowError] for an infinite one, [TypeError] for
    a [cigar] that is no text, [ValueError] for a text without a readable
    number before M, = or X). *)
Theorem X11_coverage_success_criterion
    (df : list Frame.FrameRow) (start_pos end_pos : Z) :
  Frame.coverage df start_pos end_pos
  = (if end_pos - start_pos + 1 <? 0 then Raise ValueError
     else match Frame.first_failure df with
          | Some e => Raise e
          | None => coverage (omap Frame.record_of df) start_pos end_pos
          end)
  ∧ is_ok (Frame.coverage df start_pos end_pos)
    = (start_pos - 1 <=? end_pos) && forallb Frame.row_ok df
  ∧ (forallb Frame.row_ok df = true →
     Frame.first_failure df = None
     ∧ Forall2 (fun row record => Frame.record_of row = Some record)
         df (omap Frame.record_of df)
     ∧ forallb span_ok (omap Frame.record_of df) = true).
Proof.
  split; [| split].
  - unfold Frame.coverage, coverage.
    destruct (zeros (end_pos - start_pos + 1)) as [zero | e] eqn:Hz;
      unfold zeros in Hz; destruct (_ <? 0); try discriminate.
    + cbn [mbind result_bind]. apply frame_add_reads.
    + injection Hz as <-. reflexivity.
  - unfold Frame.coverage, zeros.
    destruct (Z.ltb_spec (end_pos - start_pos + 1) 0);
      destruct (Z.leb_spec (start_pos - 1) end_pos); try lia;
      cbn [mbind result_bind is_ok andb]; [reflexivity |].
    rewrite frame_add_reads.
    destruct (Frame.first_failure df) as [e |] eqn:Hfirst.
    + rewrite (proj2 (frame_first_failure df)); [reflexivity |].
      rewrite Hfirst. discriminate.
    + pose proof (proj1 (frame_first_failure df)) as Hall.
      destruct (forallb Frame.row_ok df) eqn:Hok.
      * rewrite add_reads_ok. apply (frame_rows_typed df Hok).
      * destruct (forallb_false_first_failure df Hok) as [e He]. congruence.
  - intros Hok. split; [| apply (frame_rows_typed df Hok)].
    destruct (Frame.first_failure df) as [e |] eqn:Hfirst; [| reflexivity].
    rewrite (proj2 (frame_first_failure df)) in Hok; [discriminate |].
    rewrite Hfirst. discriminate.
Qed.

(** X11 on a table of two good rows, and on tables with an empty [cigar]
    cell and with a [ref_pos] that is no number. *)
Lemma X11_criterion_witness :
  let good pos cig :=
    {| Frame.ref_pos_cell := Frame.Finite pos; Frame.cigar_cell := Frame.Text (py cig) |} in
  (Frame.first_failure [good 100 "50M"; good 120 "10S50M"] = None
   ∧ Forall2 (fun row record => Frame.record_of row = Some record)
       [good 100 "50M"; good 120 "10S50M"]
       (omap Frame.record_of [good 100 "50M"; good 120 "10S50M"])
   ∧ forallb span_ok (omap Frame.record_of [good 100 "50M"; good 120 "10S50M"])
     = true)
  ∧ Frame.coverage
      [good 100 "50M";
       {| Frame.ref_pos_cell := Frame.Finite 120; Frame.cigar_cell := Frame.NotText |};
       good 130 "M"] 1 200
    = Raise TypeError
  ∧ Frame.coverage
      [{| Frame.ref_pos_cell := Frame.NaN; Frame.cigar_cell := Frame.NotText |}] 1 200
    = Raise ValueError.
Proof.
  intros good. split; [| split].
  - apply (X11_coverage_success_criterion [good 100 "50M"; good 120 "10S50M"] 1 200).
    reflexivity.
  - rewrite (proj1 (X11_coverage_success_criterion _ 1 200)). reflexivity.
  - rewrite (proj1 (X11_coverage_success_criterion _ 1 200)). reflexivity.
Defined.



(** The value returned is a cell of the array and no cell exceeds it. *)
Lemma returned_maximum_cells
    (df : list AlignmentRecord) (start_pos end_pos m : Z) :
  plot_alignment_coverage df start_pos end_pos = Ok m →
  start_pos ≤ end_pos
  ∧ (∃ pos, start_pos ≤ pos ≤ end_pos
            ∧ m = Z.of_nat (length (List.filter (covers start_pos end_pos pos) df)))
  ∧ (∀ pos, start_pos ≤ pos ≤ end_pos →
            Z.of_nat (length (List.filter (covers start_pos end_pos pos) df)) ≤ m)
  ∧ (start_pos = end_pos → m = 0).
Proof.
  unfold plot_alignment_coverage.
  destruct (coverage df start_pos end_pos) as [cov | e] eqn:Hcov; [| discriminate].
  cbn [mbind result_bind]. intros Hmax.
  pose proof (last_position_never_covered df start_pos end_pos cov) as Hlast.
  apply coverage_depth in Hcov as (Hwin & Hlen & Hdepth).
  apply py_max_spec in Hmax as [Hin Hall].
  assert (Hne : start_pos ≤ end_pos).
  { destruct cov; [destruct Hin |]. cbn [length] in Hlen. lia. }
  assert (Hcell : ∀ pos, start_pos ≤ pos ≤ end_pos →
            In (Z.of_nat (length (List.filter (covers start_pos end_pos pos) df))) cov).
  { intros pos Hpos. specialize (Hdepth pos Hpos). unfold depth_at in Hdepth.
    destruct (Z.ltb_spec pos start_pos); [lia |].
    apply list_elem_of_In. eapply list_elem_of_lookup_2. exact Hdepth. }
  split; [exact Hne |]. split; [| split].
  - apply list_elem_of_In, list_elem_of_lookup_1 in Hin as [i Hi].
    pose proof (lookup_lt_Some _ _ _ Hi) as Hlt.
    exists (start_pos + Z.of_nat i). split; [lia |].
    specialize (Hdepth (start_pos + Z.of_nat i) ltac:(lia)).
    unfold depth_at in Hdepth.
    destruct (Z.ltb_spec (start_pos + Z.of_nat i) start_pos); [lia |].
    replace (Z.to_nat (start_pos + Z.of_nat i - start_pos)) with i in Hdepth by lia.
    congruence.
  - intros pos Hpos. apply Hall, Hcell, Hpos.
  - intros ->.
    destruct cov as [| x [| y cov]]; cbn [length] in Hlen; try lia.
    destruct Hin as [<- | []].
    specialize (Hdepth end_pos ltac:(lia)).
    specialize (Hcell end_pos ltac:(lia)).
    unfold coverage in *.
    assert (Hzero : depth_at end_pos [x] end_pos = Some 0).
    { rewrite Hdepth.
      assert (Hnone : List.filter (covers end_pos end_pos end_pos) df = []).
      { clear. induction df as [| row rest IH]; [reflexivity |].
        cbn [List.filter]. unfold covers at 1.
        destruct (get_read_length (cigar row)) as [L |]; [| exact IH].
        unfold in_range.
        destruct (Z.ltb_spec end_pos (Z.min end_pos (ref_pos row + L))); [lia |].
        rewrite andb_false_r. exact IH. }
      rewrite Hnone. reflexivity. }
    unfold depth_at in Hzero. rewrite Z.ltb_irrefl, Z.sub_diag in Hzero.
    change (Some x = Some 0) in Hzero. injection Hzero as ->. reflexivity.
Qed.

(** X13.  The value [plot_alignment_coverage] returns is the largest
    number of records whose interval [[ref_pos, ref_pos + L)] contains
    one position among [start_pos] to [end_pos - 1], and 0 when no such
    position or record exists: position [end_pos] itself is never
    counted, so records that lie on [end_pos] only give 0. *)
Theorem X13_returned_maximum
    (df : list AlignmentRecord) (start_pos end_pos m : Z) :
  plot_alignment_coverage df start_pos end_pos = Ok m →
  start_pos ≤ end_pos
  ∧ 0 ≤ m
  ∧ (∀ pos, start_pos ≤ pos < end_pos →
            Z.of_nat (length (List.filter (spans pos) df)) ≤ m)
  ∧ (m = 0
     ∨ ∃ pos, start_pos ≤ pos < end_pos
              ∧ m = Z.of_nat (length (List.filter (spans pos) df))).
Proof.
  intros H. apply returned_maximum_cells in H as (Hne & (pos & Hpos & Hm) & Hall & _).
  split; [exact Hne |]. split; [| split].
  - specialize (Hall end_pos ltac:(lia)). lia.
  - intros pos' Hpos'. rewrite <- (covers_spans_inside start_pos end_pos pos' df Hpos').
    apply Hall. lia.
  - destruct (Z.eq_dec pos end_pos) as [-> | Hneq].
    + left. rewrite Hm, covers_window_end. reflexivity.
    + right. exists pos. split; [lia |].
      rewrite <- (covers_spans_inside start_pos end_pos pos df) by lia. exact Hm.
Qed.

(** X13 on three records that lie on the last position of the window
    [[1, 10]]. *)
Lemma X13_maximum_witness :
  plot_alignment_coverage [read_at 10 "1M"; read_at 10 "1M"; read_at 10 "1M"] 1 10
  = Ok 0
  ∧ 1 ≤ 10
  ∧ 0 ≤ 0
  ∧ (∀ pos, 1 ≤ pos < 10 →
            Z.of_nat (length (List.filter (spans pos)
                                [read_at 10 "1M"; read_at 10 "1M"; read_at 10 "1M"])) ≤ 0)
  ∧ (0 = 0
     ∨ ∃ pos, 1 ≤ pos < 10
              ∧ 0 = Z.of_nat (length (List.filter (spans pos)
                                        [read_at 10 "1M"; read_at 10 "1M"; read_at 10 "1M"]))).
Proof.
  split; [vm_compute; reflexivity |].
  apply (X13_returned_maximum
           [read_at 10 "1M"; read_at 10 "1M"; read_at 10 "1M"] 1 10 0).
  vm_compute. reflexivity.
Defined.

Module SpanMore.

Import Align Spec Plot More StringFacts CigarFacts.

Lemma isdigit_no_space (c : ascii) :
  Py.isdigit c = true → PyInt.isspace c = false.
Proof.
  unfold Py.isdigit, Py.isdecimal, PyInt.isspace.
  repeat match goal with
         | |- context [?a <=? ?b] => destruct (Z.leb_spec a b)
         | |- context [?a =? ?b] => destruct (Z.eqb_spec a b)
         end; cbn; intros; try reflexivity; try discriminate; lia.
Qed.

Lemma digit_value_nonneg (c : ascii) : Py.isdecimal c = true → 0 ≤ Py.digit_value c.
Proof.
  unfold Py.isdecimal, Py.digit_value. intros [H _]%andb_true_iff.
  apply Z.leb_le in H. lia.
Qed.

Lemma digits_nonneg (s : str) : ∀ acc seen v,
  0 ≤ acc → PyInt.digits acc seen s = Some v → 0 ≤ v.
Proof.
  induction s as [| c s IH]; intros acc seen v Hacc; cbn [PyInt.digits].
  - destruct seen; [intros [= <-]; exact Hacc | discriminate].
  - destruct (Py.isdecimal c) eqn:Hc.
    + apply IH. pose proof (digit_value_nonneg c Hc). lia.
    + destruct (Ascii.eqb c "_" && seen); [| discriminate].
      destruct s as [| d s']; [discriminate |].
      destruct (Py.isdecimal d); [| discriminate]. apply IH. exact Hacc.
Qed.

Lemma int_lstrip_id (s : str) :
  Forall (fun c => PyInt.isspace c = false) s → PyInt.lstrip s = s.
Proof.
  intros [| c s' Hc _]; [reflexivity |]. cbn [PyInt.lstrip]. rewrite Hc.
  reflexivity.
Qed.

Lemma int_strip_id (s : str) :
  Forall (fun c => PyInt.isspace c = false) s → PyInt.strip s = s.
Proof.
  intros H. unfold PyInt.strip. rewrite (int_lstrip_id s H).
  rewrite int_lstrip_id by (apply Forall_rev', H).
  apply rev_involutive.
Qed.

(** A string of digits is no negative number. *)
Lemma int_digits_nonneg (s : str) (n : Z) :
  Forall (fun c => Py.isdigit c = true) s → PyInt.int s = Ok n → 0 ≤ n.
Proof.
  intros Hs. unfold PyInt.int. rewrite int_strip_id.
  2:{ eapply Forall_impl; [exact Hs |]. apply isdigit_no_space. }
  destruct s as [| c body].
  - cbn. discriminate.
  - apply Forall_cons in Hs as [Hc _].
    assert (Ascii.eqb c "-" = false) as ->.
    { apply Ascii.eqb_neq. intros ->. discriminate. }
    assert (Ascii.eqb c "+" = false) as ->.
    { apply Ascii.eqb_neq. intros ->. discriminate. }
    destruct (PyInt.digits 0 false (c :: body)) as [v |] eqn:Hd; [| discriminate].
    destruct (_ <? _)%nat; [discriminate |].
    intros [= <-]. eapply digits_nonneg; [| exact Hd]. lia.
Qed.

Lemma loop_nonneg (cigar : str) : ∀ length current_num L,
  0 ≤ length →
  Forall (fun c => Py.isdigit c = true) current_num →
  get_read_length_loop length current_num cigar = Ok L →
  0 ≤ L.
Proof.
  induction cigar as [| char rest IH]; intros length current_num L Hlen Hnum;
    cbn [get_read_length_loop].
  - intros [= <-]. exact Hlen.
  - destruct (Py.isdigit char) eqn:Hd.
    { apply IH; [exact Hlen |]. apply Forall_app. split; [exact Hnum |].
      repeat constructor. exact Hd. }
    destruct (Py.char_in char (py "MIDNSHP=X")); [| apply IH; assumption].
    destruct (Py.char_in char (py "M=X")); [| apply IH; [exact Hlen | constructor]].
    destruct (PyInt.int current_num) as [n |] eqn:Hint; [| discriminate].
    cbn [mbind result_bind]. apply IH; [| constructor].
    pose proof (int_digits_nonneg current_num n Hnum Hint). lia.
Qed.

(** The loop skips the characters that are neither digits nor operation
    codes. *)
Lemma loop_filter (cigar : str) : ∀ length current_num,
  get_read_length_loop length current_num (List.filter is_cigar_char cigar)
  = get_read_length_loop length current_num cigar.
Proof.
  induction cigar as [| char rest IH]; intros length current_num; [reflexivity |].
  cbn [List.filter]. unfold is_cigar_char at 1.
  destruct (Py.isdigit char) eqn:Hd; cbn [orb].
  - cbn [get_read_length_loop]. rewrite Hd. apply IH.
  - destruct (Py.char_in char (py "MIDNSHP=X")) eqn:Hop.
    + cbn [get_read_length_loop]. rewrite Hd, Hop.
      destruct (Py.char_in char (py "M=X")); [| apply IH].
      destruct (PyInt.int current_num); cbn [mbind result_bind];
        [apply IH | reflexivity].
    + cbn [get_read_length_loop]. rewrite Hd, Hop. apply IH.
Qed.

(** The length accumulated so far is added to what the rest yields. *)
Lemma loop_shift (cigar : str) : ∀ length current_num,
  get_read_length_loop length current_num cigar
  = (L ← get_read_length_loop 0 current_num cigar; Ok (length + L)).
Proof.
  induction cigar as [| char rest IH]; intros length current_num;
    cbn [get_read_length_loop].
  - cbn. rewrite Z.add_0_r. reflexivity.
  - destruct (Py.isdigit char); [apply IH |].
    destruct (Py.char_in char (py "MIDNSHP=X")); [| apply IH].
    destruct (Py.char_in char (py "M=X")); [| apply IH].
    destruct (PyInt.int current_num) as [n |]; cbn [mbind result_bind];
      [| reflexivity].
    rewrite IH, (IH (0 + n)).
    destruct (get_read_length_loop 0 [] rest); cbn [mbind result_bind];
      [f_equal; lia | reflexivity].
Qed.

Lemma op_char_not_digit (c : ascii) : is_op_char c = true → Py.isdigit c = false.
Proof.
  unfold is_op_char, Py.char_in. cbn [existsb list_ascii_of_string].
  rewrite !orb_true_iff, !Ascii.eqb_eq.
  intros H. decompose [or] H; subst; try reflexivity. discriminate.
Qed.

(** After an operation code the loop starts afresh. *)
Lemma loop_app_op (a : str) (op : ascii) (b : str) :
  is_op_char op = true →
  ∀ length current_num,
    get_read_length_loop length current_num ((a ++ [op]) ++ b)
    = (L ← get_read_length_loop length current_num (a ++ [op]);
       get_read_length_loop L [] b).
Proof.
  intros Hop. pose proof (op_char_not_digit op Hop) as Hnd.
  unfold is_op_char in Hop.
  induction a as [| char rest IH]; intros length current_num.
  - cbn [app get_read_length_loop]. rewrite Hnd, Hop.
    destruct (Py.char_in op (py "M=X")); [| reflexivity].
    destruct (PyInt.int current_num); reflexivity.
  - cbn [app get_read_length_loop].
    destruct (Py.isdigit char); [apply IH |].
    destruct (Py.char_in char (py "MIDNSHP=X")); [| apply IH].
    destruct (Py.char_in char (py "M=X")); [| apply IH].
    destruct (PyInt.int current_num); cbn [mbind result_bind];
      [apply IH | reflexivity].
Qed.

End SpanMore.

Module PreparerMore.

Import Align Spec More StringFacts PreparerFacts.

Lemma mapM_length {A B} (f : A → option B) (l : list A) (k : list B) :
  mapM f l = Some k → length k = length l.
Proof.
  rewrite mapM_Some. intros H. symmetry. eapply Forall2_length. exact H.
Qed.

End PreparerMore.

Import Align Spec Samples Plot More StringFacts CigarFacts SpanMore PreparerMore.

(** X14.  The span [get_read_length] computes is never negative. *)
Theorem X14_span_is_not_negative (cigar : str) (L : Z) :
  get_read_length cigar = Ok L → 0 ≤ L.
Proof.
  unfold get_read_length. apply loop_nonneg; [lia | constructor].
Qed.

(** X14 on an operation string with clips and an insertion. *)
Lemma X14_span_witness : 0 ≤ 50.
Proof. apply (X14_span_is_not_negative (py "5S20M3I30X")). reflexivity. Defined.

(** X15.  Characters that are neither digits nor operation codes are
    skipped: the span of a string is the span of the string without
    them.  The [*] of a record without operation string gives span 0. *)
Theorem X15_other_characters_are_skipped (cigar : str) :
  get_read_length (List.filter is_cigar_char cigar) = get_read_length cigar.
Proof. unfold get_read_length. apply loop_filter. Qed.

(** X16.  The span of an operation string that continues after an
    operation code is the span up to that code plus the span of the
    rest; it cannot be computed when one of the two parts cannot. *)
Theorem X16_span_of_concatenation (a : str) (op : ascii) (b : str) :
  is_op_char op = true →
  get_read_length ((a ++ [op]) ++ b)
  = (La ← get_read_length (a ++ [op]);
     Lb ← get_read_length b;
     Ok (La + Lb)).
Proof.
  intros Hop. unfold get_read_length. rewrite (loop_app_op a op b Hop).
  destruct (get_read_length_loop 0 [] (a ++ [op])) as [La |];
    cbn [mbind result_bind]; [| reflexivity].
  apply loop_shift.
Qed.

(** X16 on a soft clip followed by a match. *)
Lemma X16_concatenation_witness :
  get_read_length ((py "5S20" ++ ["M"%char]) ++ py "3I30X")
  = (La ← get_read_length (py "5S20" ++ ["M"%char]);
     Lb ← get_read_length (py "3I30X");
     Ok (La + Lb)).
Proof. apply X16_span_of_concatenation. reflexivity. Defined.

(** X17.  [reverse_complement_sequence] gives nothing for a missing value
    and for a sequence of white space only; what it gives otherwise is
    never empty and has the length of the sequence without the white
    space at its ends. *)
Theorem X17_reverse_complement_edges :
  reverse_complement_sequence None = None
  ∧ (∀ s, is_blank s = true → reverse_complement_sequence (Some s) = None)
  ∧ (∀ s t, reverse_complement_sequence (Some s) = Some t →
            t ≠ [] ∧ length t = length (Py.strip s)).
Proof.
  split; [reflexivity |]. split.
  - intros s Hs. unfold reverse_complement_sequence.
    rewrite (BatchMore.strip_blank s Hs). reflexivity.
  - intros s t. unfold reverse_complement_sequence, Seq_reverse_complement.
    destruct (Py.strip s) as [| c rest] eqn:Hstrip; [discriminate |].
    destruct (mapM complement (c :: rest)) as [u |] eqn:Hu; [| discriminate].
    intros [= <-]. apply mapM_length in Hu.
    rewrite length_rev, Hu. split; [| reflexivity].
    intros Hnil. apply (f_equal (@length ascii)) in Hnil.
    rewrite length_rev, Hu in Hnil. discriminate.
Qed.

Module PathFacts.

Import Align Spec More.

Lemma chars_append (s t : string) : py (s +:+ t) = py s ++ py t.
Proof. induction s as [| c s IH]; [reflexivity |]. simpl. f_equal. exact IH. Qed.

Lemma chars_inj (s t : string) : py s = py t → s = t.
Proof.
  intros H. rewrite <- (string_of_list_ascii_of_string s),
    <- (string_of_list_ascii_of_string t), H. reflexivity.
Qed.

(** Two texts with the same ending are equal when what stands before the
    ending is. *)
Lemma append_inv_tail (s1 s2 t : string) : s1 +:+ t = s2 +:+ t → s1 = s2.
Proof.
  intros H. apply chars_inj. apply (f_equal list_ascii_of_string) in H.
  rewrite !chars_append in H. eapply app_inv_tail. exact H.
Qed.

Lemma numbered_path_inj (before after : string) (n m : nat) :
  before +:+ pretty n +:+ after = before +:+ pretty m +:+ after → n = m.
Proof.
  intros H. apply (inj (String.app before)) in H.
  apply append_inv_tail in H. apply (inj pretty) in H. exact H.
Qed.

End PathFacts.

Module RunMore.

Import Align Spec More BatchFacts BatchMore.

Section Tidy.

Variable bowtie2 : gmap string str → string → string → aligner_outcome.
Hypothesis Honly : writes_only_sam bowtie2.
Hypothesis Hzero : always_exits_zero bowtie2.

Lemma only_deleted_delete fs0 fs path :
  only_deleted fs0 fs → only_deleted fs0 (delete path fs).
Proof.
  intros H p. destruct (decide (p = path)) as [-> | Hne].
  - left. apply lookup_delete_eq.
  - rewrite lookup_delete_ne by congruence. apply H.
Qed.

Lemma process_chunk_tidy chunk chunk_num fs fs' results stats :
  process_chunk bowtie2 chunk chunk_num fs = (fs', Ok (results, stats)) →
  fs' = fs ∨ fs' = delete (sam_output_path chunk_num)
                     (delete (temp_fasta_path chunk_num) fs).
Proof.
  destruct (with_rev_comp (validate chunk)) as [| r rs] eqn:Hprep.
  { unfold process_chunk. rewrite Hprep. intros [= <- _ _]. left. reflexivity. }
  assert (Hne : with_rev_comp (validate chunk) ≠ []) by (rewrite Hprep; discriminate).
  destruct (Hzero (<[temp_fasta_path chunk_num :=
                       fasta_text (with_rev_comp (validate chunk))]> fs)
              (temp_fasta_path chunk_num) (sam_output_path chunk_num))
    as [fs1 Hrun].
  destruct (parse_sam_file fs1 (sam_output_path chunk_num)) as [[res st] | e] eqn:Hparse.
  - rewrite (process_chunk_runs bowtie2 chunk chunk_num fs Hne). cbv zeta.
    rewrite Hrun. cbn [Z.eqb]. rewrite Hparse. intros [= <- _ _]. right.
    apply map_eq. intros path.
    destruct (decide (path = sam_output_path chunk_num)) as [-> | Hs].
    { rewrite !lookup_delete_eq. reflexivity. }
    rewrite !(lookup_delete_ne _ (sam_output_path chunk_num)) by congruence.
    destruct (decide (path = temp_fasta_path chunk_num)) as [-> | Hf].
    { rewrite !lookup_delete_eq. reflexivity. }
    rewrite !lookup_delete_ne by congruence.
    rewrite (Honly _ _ _ _ _ Hrun path Hs).
    apply lookup_insert_ne. congruence.
  - rewrite (process_chunk_runs bowtie2 chunk chunk_num fs Hne). cbv zeta.
    rewrite Hrun. cbn [Z.eqb]. rewrite Hparse. discriminate.
Qed.

Lemma process_chunks_tidy (chunks : list (list Row)) : ∀ chunk_num st st' fs0,
  only_deleted fs0 (fs st) →
  process_chunks bowtie2 chunks chunk_num st = (st', Ok ()) →
  only_deleted fs0 (fs st').
Proof.
  induction chunks as [| chunk rest IH]; intros chunk_num st st' fs0 Hst Hrun.
  - injection Hrun as <-. exact Hst.
  - cbn [process_chunks] in Hrun.
    destruct (process_chunk bowtie2 chunk chunk_num (fs st))
      as [fs' [[results stats] | e]] eqn:Hchunk; [| discriminate].
    eapply IH; [| exact Hrun]. cbn [fs].
    apply process_chunk_tidy in Hchunk as [-> | ->]; [exact Hst |].
    apply only_deleted_delete, only_deleted_delete, Hst.
Qed.

End Tidy.

End RunMore.

Import Align Spec Samples Plot More BatchFacts BatchMore CoverageMore SpanMore PathFacts RunMore.

(** X18.  The paths of the temporary files and of the checkpoints of two
    batches with different numbers are different, the FASTA file and the
    SAM file of a batch are different files, and no checkpoint is the
    final table. *)
Theorem X18_batch_paths_are_distinct (n m : nat) :
  (temp_fasta_path n = temp_fasta_path m → n = m)
  ∧ (sam_output_path n = sam_output_path m → n = m)
  ∧ (intermediate_path n = intermediate_path m → n = m)
  ∧ temp_fasta_path n ≠ sam_output_path m
  ∧ intermediate_path n ≠ final_results_path.
Proof.
  unfold temp_fasta_path, sam_output_path, intermediate_path, final_results_path,
    output_dir.
  split; [| split; [| split; [| split]]].
  - apply (numbered_path_inj "alignment_results/temp_seqs_chunk_" ".fa").
  - apply (numbered_path_inj "alignment_results/alignment_chunk_" ".sam").
  - apply (numbered_path_inj "alignment_results/intermediate_results_chunk_" ".csv").
  - cbn. discriminate.
  - cbn. discriminate.
Qed.

(** X18 on the batches 1 and 11. *)
Lemma X18_paths_witness : temp_fasta_path 1 ≠ temp_fasta_path 11.
Proof.
  intros H. destruct (X18_batch_paths_are_distinct 1 11) as (Hfa & _).
  specialize (Hfa H). discriminate.
Defined.


Lemma aligner_writing_exits_zero (text : str) : always_exits_zero (aligner_writing text).
Proof. intros fs fasta sam. eexists. reflexivity. Defined.


(** X17 on a blank sequence and on a sequence between blanks. *)
Lemma X17_edges_witness :
  reverse_complement_sequence (Some (py "   ")) = None
  ∧ (py "ACGTT" ≠ [] ∧ length (py "ACGTT") = length (Py.strip (py " AACGT "))).
Proof.
  destruct X17_reverse_complement_edges as (_ & Hblank & Hlen). split.
  - apply Hblank. reflexivity.
  - apply (Hlen (py " AACGT ") (py "ACGTT")). reflexivity.
Defined.

Module TrimFacts.

Import Align Spec More TrimCsv StringFacts PreparerFacts.

Lemma char_in_T (c : ascii) : Py.char_in c (py "T") = Ascii.eqb c "T".
Proof. unfold Py.char_in. cbn. apply orb_false_r. Qed.

(** The text is a run of [T] followed by what [trim_t_sequence] keeps. *)
Lemma trim_split (s : str) :
  ∃ k, s = replicate k "T"%char ++ trim_t_sequence s.
Proof.
  unfold trim_t_sequence. induction s as [| c s [k IH]]; [exists 0%nat; reflexivity |].
  cbn [lstrip_chars]. rewrite char_in_T.
  destruct (Ascii.eqb_spec c "T") as [-> | Hne].
  - exists (S k). cbn [replicate app]. f_equal. exact IH.
  - exists 0%nat. reflexivity.
Qed.

Lemma trim_no_T (s : str) : Py.startswith "T" (trim_t_sequence s) = false.
Proof.
  unfold trim_t_sequence. induction s as [| c s IH]; [reflexivity |].
  cbn [lstrip_chars]. rewrite char_in_T.
  destruct (Ascii.eqb c "T") eqn:Hc; [exact IH |]. cbn. exact Hc.
Qed.

Lemma trim_fixed (s : str) :
  Py.startswith "T" s = false → trim_t_sequence s = s.
Proof.
  unfold trim_t_sequence. destruct s as [| c s]; [reflexivity |].
  cbn [Py.startswith lstrip_chars]. rewrite char_in_T. intros ->. reflexivity.
Qed.

Lemma trim_nucleotides (s : str) :
  forallb is_nucleotide s = true → forallb is_nucleotide (trim_t_sequence s) = true.
Proof.
  unfold trim_t_sequence. induction s as [| c s IH]; [reflexivity |].
  cbn [lstrip_chars forallb]. intros [Hc Hs]%andb_true_iff.
  destruct (Py.char_in c (py "T")); [auto |].
  cbn [forallb]. rewrite Hc, Hs. reflexivity.
Qed.

Lemma complement_to_A (c c' : ascii) :
  is_nucleotide c = true → complement c = Some c' → c' = "A"%char → c = "T"%char.
Proof.
  intros [-> | [-> | [-> | ->]]]%nucleotide_cases; cbn; intros [= <-]; try discriminate.
  reflexivity.
Qed.

End TrimFacts.

Import Align Spec Samples More TrimCsv StringFacts PreparerFacts TrimFacts.

(** X20.  [trim_t_sequence] removes the run of [T] a sequence begins
    with and nothing else: the sequence is some number of [T] followed by
    the result, the result does not begin with [T], and trimming it again
    changes nothing. *)
Theorem X20_trim_removes_leading_T (sequence : str) :
  (∃ k, sequence = replicate k "T"%char ++ trim_t_sequence sequence)
  ∧ Py.startswith "T" (trim_t_sequence sequence) = false
  ∧ trim_t_sequence (trim_t_sequence sequence) = trim_t_sequence sequence.
Proof.
  split; [apply trim_split |]. split; [apply trim_no_T |].
  apply trim_fixed, trim_no_T.
Qed.

(** X21.  The sequence handed to the aligner for a trimmed read over
    A, C, G, T never ends with [A]: the reverse complement of what
    [trim_t_sequence] keeps has no [A] in the last place. *)
Theorem X21_trimmed_read_has_no_trailing_A (sequence rev_comp_seq : str) :
  forallb is_nucleotide sequence = true →
  reverse_complement_sequence (Some (trim_t_sequence sequence)) = Some rev_comp_seq →
  last rev_comp_seq ≠ Some "A"%char.
Proof.
  intros Hnuc Hrc.
  pose proof (trim_nucleotides sequence Hnuc) as Htrim.
  pose proof (trim_no_T sequence) as HnoT.
  destruct (trim_t_sequence sequence) as [| c rest] eqn:E.
  { cbn in Hrc. discriminate. }
  destruct (reverse_complement_nucleotides (c :: rest) ltac:(discriminate) Htrim)
    as (t & Hrc' & Hct & _).
  assert (Some rev_comp_seq = Some (rev t)) as [= ->].
  { rewrite <- Hrc. exact Hrc'. }
  cbn [mapM] in Hct.
  destruct (complement c) as [c' |] eqn:Hc; [| discriminate].
  cbn [mbind option_bind] in Hct.
  destruct (mapM complement rest) as [t' |]; [| discriminate].
  cbn in Hct. injection Hct as <-.
  cbn [rev]. rewrite last_snoc. intros [= ->].
  cbn [forallb] in Htrim. apply andb_true_iff in Htrim as [Hnc _].
  pose proof (complement_to_A c "A" Hnc Hc eq_refl) as ->.
  cbn in HnoT. discriminate.
Qed.

(** X21 on a read that begins with three [T]. *)
Lemma X21_trailing_A_witness : last (py "CGT") ≠ Some "A"%char.
Proof.
  apply (X21_trimmed_read_has_no_trailing_A (py "TTTACG") (py "CGT")); reflexivity.
Defined.

Module PolyCFacts.

Import PolyC.

(** A run of [length] letters C stands at offset [q] of [s]. *)
Lemma run_lookup (length q : nat) (s : list ascii) (j : nat) :
  take length (drop q s) = replicate length "C"%char →
  (j < length)%nat →
  s !! (q + j)%nat = Some "C"%char.
Proof.
  intros Hrun Hj.
  rewrite <- lookup_drop, <- (lookup_take_lt _ length) by exact Hj.
  rewrite Hrun. apply lookup_replicate. split; [reflexivity | exact Hj].
Qed.

Lemma run_fits (length q : nat) (s : list ascii) :
  take length (drop q s) = replicate length "C"%char →
  (0 < length)%nat →
  (q + length ≤ List.length s)%nat.
Proof.
  intros Hrun Hpos. apply (f_equal (@List.length ascii)) in Hrun.
  rewrite length_take, length_drop, length_replicate in Hrun. lia.
Qed.

(** Every range the loop reports stands for a run of C at or after [i]. *)
Lemma loop_sound (length : nat) (fuel : nat) : ∀ i rest s e,
  In (s, e) (find_poly_c_loop fuel length i rest) →
  ∃ q, s = (i + q + 1)%nat ∧ e = (i + q + length)%nat
       ∧ take length (drop q rest) = replicate length "C"%char.
Proof.
  induction fuel as [| fuel IH]; intros i rest s e; cbn [find_poly_c_loop];
    [intros [] |].
  destruct rest as [| c rest']; [intros [] |].
  destruct (decide (take length (c :: rest') = replicate length "C"%char))
    as [Hrun | Hno].
  - intros [[= <- <-] | Hin].
    + exists 0%nat. repeat split; try lia. exact Hrun.
    + apply IH in Hin as (q & -> & -> & Hq).
      exists (length + q)%nat. repeat split; try lia.
      rewrite <- drop_drop. exact Hq.
  - intros Hin. apply IH in Hin as (q & -> & -> & Hq).
    exists (S q). repeat split; try lia. exact Hq.
Qed.

(** The ranges come in increasing order and do not touch. *)
Lemma loop_sorted (length : nat) (fuel : nat) : ∀ i rest,
  (0 < length)%nat →
  StronglySorted (fun a b : nat * nat => (a.2 < b.1)%nat)
    (find_poly_c_loop fuel length i rest).
Proof.
  induction fuel as [| fuel IH]; intros i rest Hpos; cbn [find_poly_c_loop];
    [constructor |].
  destruct rest as [| c rest']; [constructor |].
  destruct (decide (take length (c :: rest') = replicate length "C"%char))
    as [Hrun | Hno].
  - constructor; [apply IH, Hpos |].
    apply Forall_forall. intros [s1 e1] Hin%list_elem_of_In.
    apply loop_sound in Hin as (q & -> & _). cbn. lia.
  - apply IH, Hpos.
Qed.

(** A run of C at offset [q] of the rest is met by a reported range. *)
Lemma loop_complete (length : nat) (fuel : nat) : ∀ i rest q,
  (0 < length)%nat →
  (List.length rest ≤ fuel)%nat →
  take length (drop q rest) = replicate length "C"%char →
  ∃ s e, In (s, e) (find_poly_c_loop fuel length i rest)
         ∧ (s ≤ i + q + 1 ≤ e)%nat.
Proof.
  induction fuel as [| fuel IH]; intros i rest q Hpos Hfuel Hrun.
  - pose proof (run_fits _ _ _ Hrun Hpos). lia.
  - destruct rest as [| c rest'].
    { pose proof (run_fits _ _ _ Hrun Hpos). cbn in *. lia. }
    cbn [find_poly_c_loop]. cbn [List.length] in Hfuel.
    destruct (decide (take length (c :: rest') = replicate length "C"%char))
      as [Hhere | Hno].
    + destruct (decide (q < length)%nat) as [Hq | Hq].
      * exists (i + 1)%nat, (i + length)%nat. split; [left; reflexivity | lia].
      * destruct (IH (i + length)%nat (drop length (c :: rest')) (q - length)%nat Hpos)
          as (s & e & Hin & Hcover).
        { rewrite length_drop. cbn [List.length]. lia. }
        { rewrite drop_drop. replace (length + (q - length))%nat with q by lia.
          exact Hrun. }
        exists s, e. split; [right; exact Hin | lia].
    + destruct q as [| q]; [contradiction |].
      destruct (IH (i + 1)%nat rest' q Hpos ltac:(lia) Hrun)
        as (s & e & Hin & Hcover).
      exists s, e. split; [exact Hin | lia].
Qed.

End PolyCFacts.

Import PolyC PolyCFacts.

(** X22.  The ranges [find_poly_c] returns are 1-based, lie in the
    sequence, have [length] positions each, hold the letter C at every
    position, and come in increasing order without touching one
    another. *)
Theorem X22_poly_c_ranges_are_runs (sequence : list ascii) (length : nat)
    (poly_c_ranges : list (nat * nat)) :
  find_poly_c sequence length = Some poly_c_ranges →
  StronglySorted (fun a b : nat * nat => (a.2 < b.1)%nat) poly_c_ranges
  ∧ ∀ start end_, In (start, end_) poly_c_ranges →
      (1 ≤ start)%nat
      ∧ (end_ + 1 = start + length)%nat
      ∧ (end_ ≤ List.length sequence)%nat
      ∧ ∀ p, (start ≤ p ≤ end_)%nat → sequence !! (p - 1)%nat = Some "C"%char.
Proof.
  unfold find_poly_c. destruct length as [| n].
  { destruct sequence; [| discriminate]. intros [= <-].
    split; [constructor | intros ? ? []]. }
  intros [= <-]. split; [apply loop_sorted; lia |].
  intros start end_ Hin. apply loop_sound in Hin as (q & -> & -> & Hrun).
  pose proof (run_fits _ _ _ Hrun ltac:(lia)) as Hfit.
  repeat split; try lia.
  intros p Hp.
  replace (p - 1)%nat with (q + (p - 1 - q))%nat by lia.
  apply (run_lookup (S n)); [exact Hrun | lia].
Qed.

(** X22 on a sequence with a run of eleven C. *)
Lemma X22_runs_witness :
  StronglySorted (fun a b : nat * nat => (a.2 < b.1)%nat) [(3, 7); (8, 12)]%nat
  ∧ ∀ start end_, In (start, end_) [(3, 7); (8, 12)]%nat →
      (1 ≤ start)%nat
      ∧ (end_ + 1 = start + 5)%nat
      ∧ (end_ ≤ List.length (py "AGCCCCCCCCCCCT"))%nat
      ∧ ∀ p, (start ≤ p ≤ end_)%nat →
             py "AGCCCCCCCCCCCT" !! (p - 1)%nat = Some "C"%char.
Proof.
  apply (X22_poly_c_ranges_are_runs (py "AGCCCCCCCCCCCT") 5). reflexivity.
Defined.

(** X23.  No run is missed: wherever [length] letters C stand in a row
    ([length > 0]), the first of them lies in one of the ranges
    returned. *)
Theorem X23_poly_c_finds_every_run (sequence : list ascii) (length : nat)
    (poly_c_ranges : list (nat * nat)) (q : nat) :
  find_poly_c sequence length = Some poly_c_ranges →
  (0 < length)%nat →
  take length (drop q sequence) = replicate length "C"%char →
  ∃ start end_, In (start, end_) poly_c_ranges ∧ (start ≤ q + 1 ≤ end_)%nat.
Proof.
  unfold find_poly_c. destruct length as [| n]; [lia |].
  intros [= <-] _ Hrun.
  destruct (loop_complete (S n) (List.length sequence) 0 sequence q
              ltac:(lia) ltac:(lia) Hrun) as (s & e & Hin & Hcover).
  exists s, e. split; [exact Hin | lia].
Qed.

(** X23 on the run of five C that begins at the ninth letter. *)
Lemma X23_every_run_witness :
  ∃ start end_, In (start, end_) [(3, 7); (8, 12)]%nat ∧ (start ≤ 8 + 1 ≤ end_)%nat.
Proof.
  apply (X23_poly_c_finds_every_run (py "AGCCCCCCCCCCCT") 5 _ 8);
    [reflexivity | lia | reflexivity].
Defined.

Module FastqFacts.

Import Fastq.

Section Facts.

Variable quality_t : Type.
Variable mean_quality : list Z → quality_t.
Variable chunk_size : Z.
Variable output_file : option (list (csv_line quality_t)).
Hypothesis Hsize : 0 < chunk_size.

Lemma loop_invariant_init :
  loop_invariant quality_t chunk_size output_file 0
    {| data := []; total_reads := 0; current_chunk := 0; output := output_file |} [].
Proof.
  unfold loop_invariant. cbn [data total_reads current_chunk output length].
  split; [reflexivity |]. split; [reflexivity |]. split; [lia |]. split; [lia |].
  exists []. split; [reflexivity |]. split; [cbn [length]; lia | reflexivity].
Qed.

(** One record more. *)
Lemma step_invariant (i : Z) (v : vars quality_t) (done : list (Read quality_t))
    (record : FastqRecord) (row : Read quality_t) :
  extract quality_t mean_quality record = inr row →
  loop_invariant quality_t chunk_size output_file i v done →
  ∃ v', step quality_t mean_quality chunk_size i v record = inr v'
        ∧ loop_invariant quality_t chunk_size output_file (i + 1) v' (done ++ [row]).
Proof.
  intros Hrow (Hi & Htotal & Hcc & Hdata & written & Hdone & Hwritten & Hout).
  unfold step. rewrite Hrow.
  destruct (Z.eqb_spec chunk_size 0) as [Hz | _]; [lia |].
  assert (Hnext : i + 1 = chunk_size * current_chunk _ v
                          + (Z.of_nat (length (data _ v)) + 1)).
  { rewrite Hi, Hdone, length_app. lia. }
  assert (Hmod : (i + 1) mod chunk_size
                 = (Z.of_nat (length (data _ v)) + 1) mod chunk_size).
  { rewrite Hnext, Z.add_comm, Z.mul_comm. apply Z_mod_plus_full. }
  destruct (Z.eqb_spec ((i + 1) mod chunk_size) 0) as [Hflush | Hkeep].
  - assert (Hfull : Z.of_nat (length (data _ v)) + 1 = chunk_size).
    { destruct (Z.eq_dec (Z.of_nat (length (data _ v)) + 1) chunk_size) as [E | NE];
        [exact E |].
      rewrite Hmod, Z.mod_small in Hflush by lia. lia. }
    eexists. split; [reflexivity |].
    unfold loop_invariant. cbn [data total_reads current_chunk output].
    split; [rewrite length_app; cbn [length]; lia |].
    split; [lia |]. split; [lia |]. split; [cbn [length]; lia |].
    exists (done ++ [row]). split; [rewrite app_nil_r; reflexivity |]. split.
    { rewrite length_app. cbn [length]. lia. }
    destruct (Z.eqb_spec (current_chunk _ v + 1) 0) as [Habs | _]; [lia |].
    destruct (Z.eqb_spec (current_chunk _ v + 1) 1) as [Hfirst | Hlater].
    + assert (Hw : written = []).
      { destruct written; [reflexivity |]. cbn [length] in Hwritten. nia. }
      subst written. unfold to_csv. cbn [app]. rewrite Hdone. reflexivity.
    + rewrite Hout.
      destruct (Z.eqb_spec (current_chunk _ v) 0) as [Hzero | _]; [lia |].
      unfold to_csv. cbn [default app]. rewrite Hdone.
      rewrite <- app_assoc, !map_app. reflexivity.
  - assert (Hless : Z.of_nat (length (data _ v)) + 1 < chunk_size).
    { destruct (Z.eq_dec (Z.of_nat (length (data _ v)) + 1) chunk_size) as [E | NE];
        [| lia].
      rewrite Hmod, E, Z.mod_same in Hkeep by lia. lia. }
    eexists. split; [reflexivity |].
    unfold loop_invariant. cbn [data total_reads current_chunk output].
    split; [rewrite length_app; cbn [length]; lia |].
    split; [lia |]. split; [lia |].
    split; [rewrite length_app; cbn [length]; lia |].
    exists written. split; [rewrite Hdone, app_assoc; reflexivity |].
    split; [exact Hwritten | exact Hout].
Qed.

(** The loop over records that all have quality values. *)
Lemma loop_keeps_invariant (records : list FastqRecord) :
  ∀ (rows : list (Read quality_t)) i v done,
    Forall2 (fun record row => extract quality_t mean_quality record = inr row)
      records rows →
    loop_invariant quality_t chunk_size output_file i v done →
    ∃ v', loop quality_t mean_quality chunk_size i v records = inr v'
          ∧ loop_invariant quality_t chunk_size output_file
              (i + Z.of_nat (length records)) v' (done ++ rows).
Proof.
  induction records as [| record rest IH]; intros rows i v done Hrows Hinv.
  - apply Forall2_nil_inv_l in Hrows as ->. exists v. split; [reflexivity |].
    rewrite app_nil_r, Z.add_0_r. exact Hinv.
  - apply Forall2_cons_inv_l in Hrows as (row & rows' & Hrow & Hrest & ->).
    destruct (step_invariant i v done record row Hrow Hinv) as (v1 & Hstep & Hinv1).
    destruct (IH rows' (i + 1) v1 (done ++ [row]) Hrest Hinv1) as (v' & Hloop & Hinv').
    exists v'. cbn [loop]. rewrite Hstep. split; [exact Hloop |].
    replace (i + Z.of_nat (length (record :: rest)))
      with (i + 1 + Z.of_nat (length rest)) by (cbn [length]; lia).
    rewrite <- app_assoc in Hinv'. exact Hinv'.
Qed.

(** The number of whole chunks among [n] rows. *)
Lemma whole_chunks (n held chunks : Z) :
  n = chunk_size * chunks + held → 0 ≤ held < chunk_size →
  chunks = n / chunk_size.
Proof.
  intros -> Hheld. rewrite Z.mul_comm, Z.add_comm, Z.div_add by lia.
  rewrite Z.div_small by lia. lia.
Qed.

End Facts.

Section Failure.

Variable quality_t : Type.
Variable mean_quality : list Z → quality_t.

Lemma loop_app (chunk_size : Z) (before rest : list FastqRecord) :
  ∀ i v v',
    loop quality_t mean_quality chunk_size i v before = inr v' →
    loop quality_t mean_quality chunk_size i v (before ++ rest)
    = loop quality_t mean_quality chunk_size (i + Z.of_nat (length before)) v' rest.
Proof.
  induction before as [| record before IH]; intros i v v'.
  - intros [= <-]. cbn [app length]. rewrite Z.add_0_r. reflexivity.
  - cbn [app loop].
    destruct (step quality_t mean_quality chunk_size i v record) as [e | v1];
      [discriminate |].
    intros Hloop. rewrite (IH _ _ _ Hloop). f_equal. cbn [length]. lia.
Qed.

Lemma step_without_quality (chunk_size i : Z) (v : vars quality_t)
    (record : FastqRecord) :
  phred_quality record = [] →
  step quality_t mean_quality chunk_size i v record = inl ZeroDivisionError.
Proof. intros H. unfold step, extract. rewrite H. reflexivity. Qed.

Lemma step_zero_chunk_size (i : Z) (v : vars quality_t) (record : FastqRecord) :
  step quality_t mean_quality 0 i v record = inl ZeroDivisionError.
Proof.
  unfold step. destruct (extract quality_t mean_quality record) as [[] | row];
    reflexivity.
Qed.

End Failure.

(** The three slices of a read. *)
Lemma slices_partition (s : list ascii) :
  slice 0 16 s ++ slice 16 28 s ++ slice_from 28 s = s
  ∧ length (slice 0 16 s) = Nat.min 16 (length s)
  ∧ length (slice 16 28 s) = Nat.min 12 (length s - 16)
  ∧ length (slice_from 28 s) = (length s - 28)%nat.
Proof.
  unfold slice, slice_from.
  change (16 - 0)%nat with 16%nat. change (28 - 16)%nat with 12%nat.
  change (drop 0 s) with s.
  split; [| split; [| split]].
  - replace (drop 28 s) with (drop 12 (drop 16 s))
      by (rewrite drop_drop; reflexivity).
    rewrite (take_drop 12). apply take_drop.
  - rewrite length_take. reflexivity.
  - rewrite length_take, length_drop. reflexivity.
  - apply length_drop.
Qed.

End FastqFacts.

Import Fastq FastqFacts.

(** X24.  The three fields cut out of a read put together give the read
    back; the cell barcode has at most 16 letters, the UMI at most 12, and
    a read of 28 letters or fewer leaves an empty sequence. *)
Theorem X24_read_fields_partition (quality_t : Type) (mean_quality : list Z → quality_t)
    (record : FastqRecord) (row : Read quality_t) :
  extract quality_t mean_quality record = inr row →
  CellID _ row ++ UMI _ row ++ Sequence _ row = seq record
  ∧ length (CellID _ row) = Nat.min 16 (length (seq record))
  ∧ length (UMI _ row) = Nat.min 12 (length (seq record) - 16)
  ∧ length (Sequence _ row) = (length (seq record) - 28)%nat.
Proof.
  unfold extract. destruct (phred_quality record); [discriminate |].
  intros [= <-]. exact (slices_partition (seq record)).
Qed.

(** X24 on a read of 30 letters. *)
Lemma X24_fields_witness :
  py "AAAACCCCGGGGTTTT" ++ py "ACGTACGTACGT" ++ py "TT"
  = py "AAAACCCCGGGGTTTTACGTACGTACGTTT"
  ∧ length (py "AAAACCCCGGGGTTTT") = Nat.min 16 30
  ∧ length (py "ACGTACGTACGT") = Nat.min 12 (30 - 16)
  ∧ length (py "TT") = (30 - 28)%nat.
Proof.
  apply (X24_read_fields_partition Z (fun q => 0)
           {| seq := py "AAAACCCCGGGGTTTTACGTACGTACGTTT"; phred_quality := [30] |}
           {| CellID := py "AAAACCCCGGGGTTTT"; UMI := py "ACGTACGTACGT";
              Sequence := py "TT"; Average_Quality := 0 |}).
  reflexivity.
Defined.

(** X25.  For a positive chunk size and reads that all have quality
    values, [process_fastq] counts every read, and the output file ends as
    follows: untouched when there is no read; the header and all rows in
    order, replacing what the file held, when there are [chunk_size] reads
    or more; and, when there are fewer, the header and the rows appended to
    what the file held before. *)
Theorem X25_fastq_output (quality_t : Type) (mean_quality : list Z → quality_t)
    (records : list FastqRecord) (rows : list (Read quality_t))
    (output_file : option (list (csv_line quality_t))) (chunk_size : Z) :
  0 < chunk_size →
  Forall2 (fun record row => extract quality_t mean_quality record = inr row)
    records rows →
  process_fastq quality_t mean_quality records output_file chunk_size
  = inr (match rows with
         | [] => output_file
         | _ :: _ =>
             if Z.of_nat (length rows) <? chunk_size
             then Some (default [] output_file ++ HeaderLine :: map DataLine rows)
             else Some (HeaderLine :: map DataLine rows)
         end,
         Z.of_nat (length records)).
Proof.
  intros Hsize Hrows.
  destruct (loop_keeps_invariant quality_t mean_quality chunk_size output_file Hsize
              records rows 0 _ [] Hrows
              (loop_invariant_init quality_t chunk_size output_file Hsize))
    as (v & Hloop & Hinv).
  unfold process_fastq. rewrite Hloop.
  destruct Hinv as (Hi & Htotal & Hcc & Hdata & written & Hdone & Hwritten & Hout).
  cbn [app] in Hi, Hdone. rewrite Z.add_0_l in Hi, Htotal.
  pose proof (Forall2_length _ _ _ Hrows) as Hlen.
  assert (Hn : Z.of_nat (length rows)
               = chunk_size * current_chunk _ v + Z.of_nat (length (data _ v))).
  { rewrite Hdone, length_app. lia. }
  destruct (data _ v) as [| x held] eqn:Hheld.
  - rewrite app_nil_r in Hdone. subst written. rewrite Htotal. f_equal. f_equal.
    rewrite Hout. cbn [length] in Hn.
    destruct (Z.eqb_spec (current_chunk _ v) 0) as [Hzero | Hpos].
    + destruct rows; [reflexivity |]. cbn [length] in Hn. nia.
    + destruct rows as [| r rows']; [cbn [length] in Hn; nia |].
      destruct (Z.ltb_spec (Z.of_nat (length (r :: rows'))) chunk_size); [nia |].
      reflexivity.
  - rewrite Htotal. f_equal. f_equal. rewrite Hout.
    destruct rows as [| r rows']; [destruct written; discriminate |].
    destruct (Z.eqb_spec (current_chunk _ v) 0) as [Hzero | Hpos].
    + assert (Hw : written = []).
      { destruct written; [reflexivity |]. cbn [length] in Hwritten. nia. }
      subst written. cbn [app] in Hdone. rewrite <- Hdone.
      destruct (Z.ltb_spec (Z.of_nat (length (r :: rows'))) chunk_size); [| lia].
      unfold to_csv. reflexivity.
    + destruct (Z.ltb_spec (Z.of_nat (length (r :: rows'))) chunk_size); [nia |].
      unfold to_csv. cbn [default app]. rewrite Hdone, map_app. reflexivity.
Qed.

(** X25 on three reads with a chunk size of two, and with a chunk size of
    five over a file that holds a line already. *)
Lemma X25_output_witness :
  let read (s : string) := {| seq := py s; phred_quality := [30; 31] |} in
  let row (s : string) :=
    {| CellID := slice 0 16 (py s); UMI := slice 16 28 (py s);
       Sequence := slice_from 28 (py s); Average_Quality := 61 |} in
  process_fastq Z (fun q => fold_right Z.add 0 q) [read "AC"; read "GT"; read "TT"]
    (Some [HeaderLine]) 2
  = inr (Some (HeaderLine :: map DataLine [row "AC"; row "GT"; row "TT"]), 3)
  ∧ process_fastq Z (fun q => fold_right Z.add 0 q) [read "AC"; read "GT"; read "TT"]
      (Some [HeaderLine]) 5
    = inr (Some ([HeaderLine] ++ HeaderLine :: map DataLine [row "AC"; row "GT"; row "TT"]), 3).
Proof.
  intros read row. split.
  - apply (X25_fastq_output Z (fun q => fold_right Z.add 0 q)
             [read "AC"; read "GT"; read "TT"] [row "AC"; row "GT"; row "TT"]
             (Some [HeaderLine]) 2); [lia |].
    repeat constructor.
  - apply (X25_fastq_output Z (fun q => fold_right Z.add 0 q)
             [read "AC"; read "GT"; read "TT"] [row "AC"; row "GT"; row "TT"]
             (Some [HeaderLine]) 5); [lia |].
    repeat constructor.
Defined.

(** X26.  [process_fastq] ends with [ZeroDivisionError] at the first read
    when the chunk size is 0, leaving the output file untouched, and at a
    read without quality values; in that case the file holds the whole
    chunks flushed before (untouched when there is none), and the reads
    after the last flush are not written. *)
Theorem X26_fastq_failure (quality_t : Type) (mean_quality : list Z → quality_t)
    (output_file : option (list (csv_line quality_t))) :
  (∀ record rest,
      process_fastq quality_t mean_quality (record :: rest) output_file 0
      = inl (ZeroDivisionError, output_file))
  ∧ (∀ chunk_size before rows bad after,
       0 < chunk_size →
       Forall2 (fun record row => extract quality_t mean_quality record = inr row)
         before rows →
       phred_quality bad = [] →
       process_fastq quality_t mean_quality (before ++ bad :: after) output_file
         chunk_size
       = inl (ZeroDivisionError,
              if Z.of_nat (length rows) <? chunk_size then output_file
              else Some (HeaderLine
                           :: map DataLine
                                (take (Z.to_nat (chunk_size
                                                 * (Z.of_nat (length rows) / chunk_size)))
                                   rows)))).
Proof.
  split.
  - intros record rest. unfold process_fastq. cbn [loop].
    rewrite step_zero_chunk_size. reflexivity.
  - intros chunk_size before rows bad after Hsize Hrows Hbad.
    destruct (loop_keeps_invariant quality_t mean_quality chunk_size output_file Hsize
                before rows 0 _ [] Hrows
                (loop_invariant_init quality_t chunk_size output_file Hsize))
      as (v & Hloop & Hinv).
    unfold process_fastq. rewrite (loop_app _ _ _ _ _ _ _ _ Hloop).
    cbn [loop]. rewrite (step_without_quality _ _ _ _ _ _ Hbad).
    destruct Hinv as (_ & _ & Hcc & Hdata & written & Hdone & Hwritten & Hout).
    cbn [app] in Hdone. f_equal. f_equal. rewrite Hout.
    assert (Hn : Z.of_nat (length rows)
                 = chunk_size * current_chunk _ v + Z.of_nat (length (data _ v))).
    { rewrite Hdone, length_app. lia. }
    pose proof (whole_chunks chunk_size Hsize _ _ _ Hn ltac:(lia)) as Hchunks.
    destruct (Z.eqb_spec (current_chunk _ v) 0) as [Hzero | Hpos].
    + destruct (Z.ltb_spec (Z.of_nat (length rows)) chunk_size); [reflexivity | nia].
    + destruct (Z.ltb_spec (Z.of_nat (length rows)) chunk_size); [nia |].
      rewrite <- Hchunks, <- Hwritten, Nat2Z.id, Hdone, take_app_length.
      reflexivity.
Qed.

(** X26 on three reads, the third without quality values, with a chunk
    size of two. *)
Lemma X26_failure_witness :
  let read (s : string) := {| seq := py s; phred_quality := [30; 31] |} in
  let row (s : string) :=
    {| CellID := slice 0 16 (py s); UMI := slice 16 28 (py s);
       Sequence := slice_from 28 (py s); Average_Quality := 61 |} in
  process_fastq Z (fun q => fold_right Z.add 0 q)
    ([read "AC"; read "GT"; read "TT"] ++ {| seq := []; phred_quality := [] |} :: [read "AA"])
    None 2
  = inl (ZeroDivisionError, Some (HeaderLine :: map DataLine [row "AC"; row "GT"])).
Proof.
  intros read row.
  destruct (X26_fastq_failure Z (fun q => fold_right Z.add 0 q) None) as [_ Hbad].
  apply (Hbad 2 [read "AC"; read "GT"; read "TT"] [row "AC"; row "GT"; row "TT"]
           {| seq := []; phred_quality := [] |} [read "AA"]); [lia | | reflexivity].
  repeat constructor.
Defined.

Module PolyAFacts.

Import More PolyA.

Section OneRecord.

Variables (record_id sequence : str) (window_size adenine_threshold jump_size : Z).

(** More iterations do not change what the loop returns. *)
Lemma scan_loop_more_fuel (fuel : nat) : ∀ fuel' i hits,
  (fuel ≤ fuel')%nat →
  scan_loop fuel record_id sequence window_size adenine_threshold jump_size i
  = Some hits →
  scan_loop fuel' record_id sequence window_size adenine_threshold jump_size i
  = Some hits.
Proof.
  induction fuel as [| fuel IH]; intros fuel' i hits Hle; [discriminate |].
  destruct fuel' as [| fuel']; [lia |]. cbn [scan_loop].
  destruct (i <? _); [| auto].
  destruct (adenine_threshold <=? _); [| apply IH; lia].
  destruct (scan_loop fuel _ _ _ _ _ (i + jump_size)) as [tail |] eqn:Htail;
    [| discriminate].
  rewrite (IH fuel' _ _ ltac:(lia) Htail). auto.
Qed.

(** With a jump of 0 the loop stays on a window that meets the
    threshold. *)
Lemma scan_loop_stuck (fuel : nat) (i : Z) :
  jump_size = 0 →
  rich_at sequence window_size adenine_threshold i →
  scan_loop fuel record_id sequence window_size adenine_threshold jump_size i
  = None.
Proof.
  intros -> [[_ Hi] Hrich]. induction fuel as [| fuel IH]; [reflexivity |].
  cbn [scan_loop].
  destruct (Z.ltb_spec i (Z.of_nat (length sequence) - window_size + 1)); [| lia].
  destruct (Z.leb_spec adenine_threshold
              (Z.of_nat (count_char "A" (py_slice sequence i (i + window_size)))));
    [| lia].
  rewrite Z.add_0_r, IH. reflexivity.
Qed.

Hypothesis Hjump : 0 ≤ jump_size.

(** Every entry stands for a window at or after [i] that meets the
    threshold. *)
Lemma scan_loop_sound (fuel : nat) : ∀ i hits h,
  0 ≤ i →
  scan_loop fuel record_id sequence window_size adenine_threshold jump_size i
  = Some hits →
  In h hits →
  ∃ p, i ≤ p
       ∧ window_entry record_id sequence window_size adenine_threshold p h.
Proof.
  induction fuel as [| fuel IH]; intros i hits h Hi; cbn [scan_loop];
    [discriminate |].
  destruct (Z.ltb_spec i (Z.of_nat (length sequence) - window_size + 1))
    as [Hin_range | Hend].
  2:{ intros [= <-] []. }
  destruct (Z.leb_spec adenine_threshold
              (Z.of_nat (count_char "A" (py_slice sequence i (i + window_size)))))
    as [Hrich | Hpoor].
  - destruct (scan_loop fuel _ _ _ _ _ (i + jump_size)) as [tail |] eqn:Htail;
      [| discriminate].
    cbn [mbind option_bind]. intros [= <-] [<- | Hin].
    + exists i. split; [lia |]. unfold window_entry, rich_at.
      cbn [gene start end_ PolyA.sequence adenine_count].
      repeat split; try reflexivity; try lia; exact Hrich.
    + destruct (IH (i + jump_size) tail h ltac:(lia) Htail Hin) as (p & Hp & Hentry).
      exists p. split; [lia | exact Hentry].
  - intros Hloop Hin.
    destruct (IH (i + 1) hits h ltac:(lia) Hloop Hin) as (p & Hp & Hentry).
    exists p. split; [lia | exact Hentry].
Qed.

Lemma scan_loop_sorted (fuel : nat) : ∀ i hits,
  0 ≤ i →
  scan_loop fuel record_id sequence window_size adenine_threshold jump_size i
  = Some hits →
  StronglySorted (fun a b : hit => start a < start b) hits.
Proof.
  induction fuel as [| fuel IH]; intros i hits Hi; cbn [scan_loop];
    [discriminate |].
  destruct (Z.ltb_spec i (Z.of_nat (length sequence) - window_size + 1))
    as [Hin_range | Hend].
  2:{ intros [= <-]. constructor. }
  destruct (Z.leb_spec adenine_threshold
              (Z.of_nat (count_char "A" (py_slice sequence i (i + window_size)))))
    as [Hrich | Hpoor]; [| apply IH; lia].
  destruct (scan_loop fuel _ _ _ _ _ (i + jump_size)) as [tail |] eqn:Htail;
    [| discriminate].
  cbn [mbind option_bind]. intros [= <-].
  assert (Hpos : 0 < jump_size).
  { destruct (Z.eq_dec jump_size 0) as [Hzero | Hne]; [| lia].
    rewrite (scan_loop_stuck fuel (i + jump_size) Hzero) in Htail;
      [discriminate |].
    rewrite Hzero, Z.add_0_r. split; [lia | exact Hrich]. }
  constructor; [eapply (IH (i + jump_size)); [lia | exact Htail] |].
  apply Forall_forall. intros h Hin%list_elem_of_In.
  destruct (scan_loop_sound fuel (i + jump_size) tail h ltac:(lia) Htail Hin)
    as (p & Hp & _ & Hstart & _).
  cbn [start]. lia.
Qed.

(** A window that meets the threshold lies less than a jump after the
    start of an entry. *)
Lemma scan_loop_cover (fuel : nat) : ∀ i hits p,
  scan_loop fuel record_id sequence window_size adenine_threshold jump_size i
  = Some hits →
  i ≤ p →
  rich_at sequence window_size adenine_threshold p →
  ∃ h, In h hits ∧ start h ≤ p + 1 < start h + jump_size.
Proof.
  induction fuel as [| fuel IH]; intros i hits p; cbn [scan_loop]; [discriminate |].
  destruct (Z.ltb_spec i (Z.of_nat (length sequence) - window_size + 1))
    as [Hin_range | Hend].
  2:{ intros _ Hp [Hfit _]. lia. }
  destruct (Z.leb_spec adenine_threshold
              (Z.of_nat (count_char "A" (py_slice sequence i (i + window_size)))))
    as [Hrich | Hpoor].
  - destruct (scan_loop fuel _ _ _ _ _ (i + jump_size)) as [tail |] eqn:Htail;
      [| discriminate].
    cbn [mbind option_bind]. intros [= <-] Hp Hrichp.
    destruct (Z.lt_ge_cases p (i + jump_size)) as [Hnear | Hfar].
    + eexists. split; [left; reflexivity |]. cbn [start]. lia.
    + destruct (IH _ _ p Htail Hfar Hrichp) as (h & Hin & Hcover).
      exists h. split; [right; exact Hin | exact Hcover].
  - intros Hloop Hp Hrichp.
    assert (p ≠ i) by (intros ->; destruct Hrichp as [_ Hr]; lia).
    apply (IH _ _ p Hloop); [lia | exact Hrichp].
Qed.

(** With enough iterations the loop does not end exactly when the jump
    is 0 and a window that meets the threshold lies ahead. *)
Lemma scan_loop_None (fuel : nat) : ∀ i,
  0 ≤ i →
  Z.of_nat (length sequence) - window_size + 1 - i < Z.of_nat fuel →
  (1 ≤ fuel)%nat →
  scan_loop fuel record_id sequence window_size adenine_threshold jump_size i
  = None
  ↔ jump_size = 0
    ∧ ∃ p, i ≤ p ∧ rich_at sequence window_size adenine_threshold p.
Proof.
  induction fuel as [| fuel IH]; intros i Hi Hfuel Hone; [lia |].
  cbn [scan_loop].
  destruct (Z.ltb_spec i (Z.of_nat (length sequence) - window_size + 1))
    as [Hin_range | Hend].
  2:{ split; [discriminate |]. intros (_ & p & Hp & [_ Hfit] & _). lia. }
  destruct (Z.leb_spec adenine_threshold
              (Z.of_nat (count_char "A" (py_slice sequence i (i + window_size)))))
    as [Hrich | Hpoor].
  - destruct (Z.eq_dec jump_size 0) as [Hzero | Hne].
    + rewrite (scan_loop_stuck fuel (i + jump_size) Hzero).
      2:{ rewrite Hzero, Z.add_0_r. split; [lia | exact Hrich]. }
      split; [| reflexivity]. intros _. split; [exact Hzero |].
      exists i. split; [lia |]. split; [lia | exact Hrich].
    + split; [| intros [Hzero _]; contradiction].
      destruct (scan_loop fuel _ _ _ _ _ (i + jump_size)) as [tail |] eqn:Htail;
        [discriminate |].
      intros _. apply IH in Htail as [Hzero _]; [contradiction | lia | lia | lia].
  - rewrite IH by lia.
    split; intros (Hj & p & Hp & Hrichp); (split; [exact Hj |]).
    + exists p. split; [lia | exact Hrichp].
    + exists p. split; [| exact Hrichp].
      assert (p ≠ i) by (intros ->; destruct Hrichp as [_ Hr]; lia). lia.
Qed.

End OneRecord.

(** On a window of no negative size the slice is the window itself. *)
Lemma py_slice_window (sequence : str) (p window_size : Z) :
  0 ≤ p → 0 ≤ window_size →
  p + window_size ≤ Z.of_nat (length sequence) →
  py_slice sequence p (p + window_size)
  = take (Z.to_nat window_size) (drop (Z.to_nat p) sequence)
  ∧ Z.of_nat (length (py_slice sequence p (p + window_size))) = window_size.
Proof.
  intros Hp Hw Hfit. unfold py_slice, Plot.slice_bound.
  destruct (Z.ltb_spec p 0); [lia |].
  destruct (Z.ltb_spec (p + window_size) 0); [lia |].
  rewrite !Z.min_l by lia.
  replace (p + window_size - p) with window_size by lia.
  split; [reflexivity |].
  rewrite length_take, length_drop. lia.
Qed.

(** The entries of all records are those of each record, in order. *)
Lemma find_Some (fuel : nat) (records : list (str * str))
    (window_size adenine_threshold : Z) (jump_size : option Z) :
  ∀ hits h,
    find_adenine_rich_sequences fuel records window_size adenine_threshold
      jump_size = Some hits →
    In h hits →
    ∃ record_id sequence record_hits,
      In (record_id, sequence) records
      ∧ scan_record fuel record_id sequence window_size adenine_threshold
          jump_size = Some record_hits
      ∧ In h record_hits.
Proof.
  induction records as [| [record_id sequence] rest IH]; intros hits h;
    cbn [find_adenine_rich_sequences].
  - intros [= <-] [].
  - destruct (scan_record fuel record_id sequence _ _ _) as [here |] eqn:Hhere;
      [| discriminate].
    destruct (find_adenine_rich_sequences fuel rest _ _ _) as [more |];
      [| discriminate].
    cbn [mbind option_bind]. intros [= <-] [Hin | Hin]%in_app_or.
    + exists record_id, sequence, here. split; [left; reflexivity | auto].
    + destruct (IH _ _ eq_refl Hin) as (r & s & rh & Hr & Hscan & Hh).
      exists r, s, rh. split; [right; exact Hr | auto].
Qed.

(** A window of negative size: the entry ends before it starts and its
    text is the sequence without its last letter. *)
Example negative_window_size :
  find_adenine_rich_sequences 10 [(py "chr1", py "AAAA")] (-1) 3 (Some 5)
  = Some [{| gene := py "chr1"; start := 1; end_ := -1; sequence := py "AAA";
             adenine_count := 3 |}].
Proof. reflexivity. Qed.

(** A negative jump: the loop goes back and forth between the first two
    letters and never ends. *)
Example negative_jump_never_ends (fuel : nat) :
  scan_record fuel (py "chr1") (py "CA") 1 1 (Some (-1)) = None.
Proof.
  unfold scan_record, jump_of.
  assert (H : scan_loop fuel (py "chr1") (py "CA") 1 1 (-1) 0 = None
              ∧ scan_loop fuel (py "chr1") (py "CA") 1 1 (-1) 1 = None).
  { induction fuel as [| fuel [IH0 IH1]]; [split; reflexivity |].
    split.
    - change (scan_loop (S fuel) (py "chr1") (py "CA") 1 1 (-1) 0)
        with (scan_loop fuel (py "chr1") (py "CA") 1 1 (-1) 1).
      exact IH1.
    - change (scan_loop (S fuel) (py "chr1") (py "CA") 1 1 (-1) 1)
        with (tail ← scan_loop fuel (py "chr1") (py "CA") 1 1 (-1) 0;
              Some ({| gene := py "chr1"; start := 2; end_ := 2;
                       sequence := py "A"; adenine_count := 1 |} :: tail)).
      rewrite IH0. reflexivity. }
  exact (proj1 H).
Qed.

End PolyAFacts.

Import More PolyA PolyAFacts.

(** X27.  With a jump that is not negative, every entry
    [find_adenine_rich_sequences] returns is made from a window of one
    record that the loop looks at and that meets the threshold: start one
    more than the 0-based index of the window, end [window_size - 1]
    positions later, the text of the window and its number of A; when
    [window_size] is not negative either, the start is at least 1, the end
    lies within the sequence and the text has [window_size] letters.  The
    entries of one record come with strictly increasing starts. *)
Theorem X27_adenine_entries_are_windows :
  (∀ fuel records window_size adenine_threshold jump_size hits h,
      0 ≤ jump_of window_size jump_size →
      find_adenine_rich_sequences fuel records window_size adenine_threshold
        jump_size = Some hits →
      In h hits →
      ∃ record_id sequence p,
        In (record_id, sequence) records
        ∧ window_entry record_id sequence window_size adenine_threshold p h
        ∧ (0 ≤ window_size →
           1 ≤ start h
           ∧ end_ h ≤ Z.of_nat (length sequence)
           ∧ PolyA.sequence h
             = take (Z.to_nat window_size) (drop (Z.to_nat p) sequence)
           ∧ Z.of_nat (length (PolyA.sequence h)) = window_size))
  ∧ (∀ fuel record_id sequence window_size adenine_threshold jump_size hits,
       0 ≤ jump_of window_size jump_size →
       scan_record fuel record_id sequence window_size adenine_threshold
         jump_size = Some hits →
       StronglySorted (fun a b : hit => start a < start b) hits).
Proof.
  split.
  - intros fuel records window_size adenine_threshold jump_size hits h Hjump
      Hfind Hin.
    destruct (find_Some _ _ _ _ _ _ _ Hfind Hin)
      as (record_id & sequence & record_hits & Hrec & Hscan & Hh).
    destruct (scan_loop_sound record_id sequence window_size adenine_threshold
                (jump_of window_size jump_size) Hjump fuel 0 record_hits h
                ltac:(lia) Hscan Hh)
      as (p & Hp & Hentry).
    exists record_id, sequence, p. split; [exact Hrec |].
    split; [exact Hentry |]. intros Hw.
    destruct Hentry as (_ & Hstart & Hend & Htext & _ & Hrange & _).
    destruct (py_slice_window sequence p window_size) as [Hslice Hlen]; try lia.
    split; [lia |]. split; [lia |]. split.
    + transitivity (py_slice sequence p (p + window_size)); assumption.
    + pose proof (f_equal (fun x : str => Z.of_nat (length x)) Htext) as Hl.
      cbn beta in Hl. etransitivity; [exact Hl | exact Hlen].
  - intros fuel record_id sequence window_size adenine_threshold jump_size hits
      Hjump Hscan.
    eapply scan_loop_sorted; [exact Hjump | | exact Hscan]. lia.
Qed.

(** X27 on one record with windows of four letters. *)
Lemma X27_entries_witness :
  ∃ record_id sequence p,
    In (record_id, sequence) [(py "chr1", py "CAAAGAAAAC")]
    ∧ window_entry record_id sequence 4 3 p
        {| gene := py "chr1"; start := 1; end_ := 4; sequence := py "CAAA";
           adenine_count := 3 |}
    ∧ (0 ≤ 4 →
       1 ≤ 1
       ∧ 4 ≤ Z.of_nat (length sequence)
       ∧ py "CAAA" = take (Z.to_nat 4) (drop (Z.to_nat p) sequence)
       ∧ Z.of_nat (length (py "CAAA")) = 4).
Proof.
  destruct X27_adenine_entries_are_windows as [Hentry _].
  eapply (Hentry 20%nat [(py "chr1", py "CAAAGAAAAC")] 4 3 None).
  - vm_compute. discriminate.
  - vm_compute. reflexivity.
  - left. reflexivity.
Defined.

(** X28.  With a jump that is not negative, the loop on one record never
    ends when the jump is 0 and some window it looks at meets the
    threshold (with the default jump, [window_size // 2], this is the case
    for a window of one letter), and ends otherwise, within
    [enough sequence window_size] iterations; and when it ends, every
    window that meets the threshold begins less than a jump after the
    start of an entry. *)
Theorem X28_adenine_scan_ends_and_covers
    (record_id sequence : str) (window_size adenine_threshold : Z)
    (jump_size : option Z) :
  0 ≤ jump_of window_size jump_size →
  ((∀ fuel,
      scan_record fuel record_id sequence window_size adenine_threshold
        jump_size = None)
   ↔ jump_of window_size jump_size = 0
     ∧ ∃ p, rich_at sequence window_size adenine_threshold p)
  ∧ ((∃ hits, ∀ fuel, (enough sequence window_size ≤ fuel)%nat →
        scan_record fuel record_id sequence window_size adenine_threshold
          jump_size = Some hits)
     ∨ jump_of window_size jump_size = 0
       ∧ ∃ p, rich_at sequence window_size adenine_threshold p)
  ∧ (∀ fuel hits p,
       scan_record fuel record_id sequence window_size adenine_threshold
         jump_size = Some hits →
       rich_at sequence window_size adenine_threshold p →
       ∃ h, In h hits
            ∧ start h ≤ p + 1 < start h + jump_of window_size jump_size).
Proof.
  intros Hjump. unfold scan_record.
  pose proof (scan_loop_None record_id sequence window_size adenine_threshold
                (jump_of window_size jump_size) Hjump
                (enough sequence window_size) 0 ltac:(lia)
                ltac:(unfold enough; lia) ltac:(unfold enough; lia)) as Hnone.
  split; [| split].
  - split.
    + intros Hall. apply Hnone in Hall as (Hzero & p & _ & Hrich). eauto.
    + intros (Hzero & p & Hrich) fuel.
      destruct Hrich as [[Hp Hfit] Hrich].
      destruct (scan_loop fuel record_id sequence window_size adenine_threshold
                  (jump_of window_size jump_size) 0) as [hits |] eqn:Hscan;
        [| reflexivity].
      exfalso.
      pose proof (scan_loop_more_fuel record_id sequence window_size
                    adenine_threshold (jump_of window_size jump_size) fuel
                    (Nat.max fuel (enough sequence window_size)) 0 hits
                    ltac:(lia) Hscan) as Hmore.
      assert (Hstop : scan_loop (Nat.max fuel (enough sequence window_size))
                        record_id sequence window_size adenine_threshold
                        (jump_of window_size jump_size) 0 = None).
      { apply scan_loop_None; [exact Hjump | lia | unfold enough; lia
                              | unfold enough; lia |].
        split; [exact Hzero |]. exists p. split; [lia |].
        split; [lia | exact Hrich]. }
      congruence.
  - destruct (scan_loop (enough sequence window_size) record_id sequence
                window_size adenine_threshold (jump_of window_size jump_size) 0)
      as [hits |] eqn:Hscan.
    + left. exists hits. intros fuel Hfuel.
      eapply scan_loop_more_fuel; [exact Hfuel | exact Hscan].
    + right. destruct (proj1 Hnone eq_refl) as (Hzero & p & _ & Hrich). eauto.
  - intros fuel hits p Hscan Hrich.
    eapply scan_loop_cover; [exact Hscan | | exact Hrich].
    destruct Hrich as [[Hp _] _]. exact Hp.
Qed.

(** X28 on a window of one letter with the default jump, and on windows
    of four letters. *)
Lemma X28_scan_witness :
  (∀ fuel, scan_record fuel (py "chr1") (py "CCAC") 1 1 None = None)
  ∧ ∃ hits h,
      scan_record 20 (py "chr1") (py "CAAAGAAAAC") 4 3 None = Some hits
      ∧ In h hits
      ∧ start h ≤ 5 + 1 < start h + jump_of 4 None.
Proof.
  split.
  - destruct (X28_adenine_scan_ends_and_covers (py "chr1") (py "CCAC") 1 1 None)
      as [Hnone _]; [vm_compute; discriminate |].
    apply Hnone. split; [reflexivity |]. exists 2.
    split; [vm_compute; split; [discriminate | reflexivity] | vm_compute; discriminate].
  - destruct (X28_adenine_scan_ends_and_covers (py "chr1") (py "CAAAGAAAAC") 4 3 None)
      as (_ & _ & Hcover); [vm_compute; discriminate |].
    destruct (scan_record 20 (py "chr1") (py "CAAAGAAAAC") 4 3 None) as [hits |] eqn:Hscan;
      [| vm_compute in Hscan; discriminate].
    destruct (Hcover 20%nat hits 5 Hscan) as (h & Hin & Hnear).
    + split; [vm_compute; split; [discriminate | reflexivity]
             | vm_compute; discriminate].
    + exists hits, h. auto.
Defined.

Module AdenineGtfFacts.

Import AdenineGtf.

(** What the loop keeps true of the counters after [n] rows. *)
Lemma step_counters (adjustment : Z) (source_name : str) (v v' : vars)
    (row : list str) :
  step adjustment source_name v row = inr v' →
  total_lines v' = total_lines v + 1
  ∧ ((adjusted_lines v' = adjusted_lines v + 1
      ∧ skipped_lines v' = skipped_lines v
      ∧ ∃ line, outfile v' = outfile v ++ [line])
     ∨ (adjusted_lines v' = adjusted_lines v
        ∧ skipped_lines v' = skipped_lines v + 1
        ∧ outfile v' = outfile v)).
Proof.
  unfold step. destruct (length row <? 5)%nat.
  { intros [= <-]. cbn. split; [reflexivity |]. right. auto. }
  destruct row as [| c [| s [| e [| q [| a [| x rest]]]]]]; try discriminate.
  destruct (int_field s) as [err | start_value]; [discriminate |].
  destruct (int_field e) as [err | end_value]; [discriminate |].
  destruct (0 <? start_value - adjustment); intros [= <-]; cbn;
    (split; [reflexivity |]); [left | right]; eauto.
Qed.

Lemma loop_counters (adjustment : Z) (source_name : str) (rows : list (list str)) :
  ∀ v v',
    loop adjustment source_name v rows = inr v' →
    total_lines v' = total_lines v + Z.of_nat (length rows)
    ∧ adjusted_lines v' + skipped_lines v'
      = adjusted_lines v + skipped_lines v + Z.of_nat (length rows)
    ∧ adjusted_lines v ≤ adjusted_lines v'
    ∧ skipped_lines v ≤ skipped_lines v'
    ∧ ∃ lines, outfile v' = outfile v ++ lines
               ∧ Z.of_nat (length lines) = adjusted_lines v' - adjusted_lines v.
Proof.
  induction rows as [| row rest IH]; intros v v'; cbn [loop].
  - intros [= <-]. cbn [length]. repeat split; try lia.
    exists []. rewrite app_nil_r. split; [reflexivity | cbn; lia].
  - destruct (step adjustment source_name v row) as [e | v1] eqn:Hstep;
      [discriminate |].
    intros Hloop. apply IH in Hloop as (Ht & Hsum & Ha & Hs & lines & Hout & Hlen).
    apply step_counters in Hstep as [Ht1 Hcase]. cbn [length].
    destruct Hcase as [(Ha1 & Hs1 & line & Hout1) | (Ha1 & Hs1 & Hout1)].
    + repeat split; try lia. exists (line :: lines). split.
      * rewrite Hout, Hout1, <- app_assoc. reflexivity.
      * cbn [length]. lia.
    + repeat split; try lia. exists lines. split; [congruence | lia].
Qed.

End AdenineGtfFacts.

Import AdenineGtf AdenineGtfFacts.

(** X29.  When [adjust_and_convert_to_gtf] returns, [total_lines] is the
    number of rows after the header, every row is counted either as
    adjusted or as skipped, and the number of lines written is
    [adjusted_lines]. *)
Theorem X29_converter_counters (rows : list (list str)) (adjustment : Z)
    (source_name : str) (total adjusted skipped : Z) (lines : list str) :
  adjust_and_convert_to_gtf rows adjustment source_name
  = inr (total, adjusted, skipped, lines) →
  total = Z.of_nat (length rows) - 1
  ∧ total = adjusted + skipped
  ∧ adjusted = Z.of_nat (length lines)
  ∧ 0 ≤ skipped.
Proof.
  unfold adjust_and_convert_to_gtf. destruct rows as [| header rows]; [discriminate |].
  destruct (loop adjustment source_name _ rows) as [e | v] eqn:Hloop; [discriminate |].
  intros [= <- <- <- <-].
  apply loop_counters in Hloop as (Ht & Hsum & Ha & Hs & lines & Hout & Hlen).
  cbn [total_lines adjusted_lines skipped_lines outfile app] in *.
  rewrite Hout. cbn [length]. lia.
Qed.

(** X29 on a table of three rows after the header. *)
Lemma X29_counters_witness :
  3 = Z.of_nat (length [[py "Chromosome"; py "Start"; py "End"; py "Sequence"; py "Adenine Count"];
                        [py "chr1"; py "301"; py "320"; py "AAAA"; py "4"];
                        [py "chr1"; py "12"; py "31"; py "AACA"; py "3"];
                        [py "chr1"]]) - 1
  ∧ 3 = 1 + 2
  ∧ 1 = Z.of_nat (length [gtf_line (py "chr1") (py "finder") (py "adenine_rich_region")
                            (py "1") (py "20") (py ".") (py ".") (py ".")
                            (py "sequence " ++ [QUOTE] ++ py "AAAA" ++ [QUOTE]
                               ++ py "; adenine_count " ++ [QUOTE] ++ py "4" ++ [QUOTE])])
  ∧ 0 ≤ 2.
Proof.
  apply (X29_converter_counters _ 300 (py "finder")). vm_compute. reflexivity.
Defined.

